(** * Veo Studio: frame sampling and scroll-synchronised playback

    A shallow embedding of the two places where the repository implements
    its scroll-scrubbing player:

    - the in-app preview component [ScrollPreview] (the [extractFrames]
      sampler of its first effect, and [handleScroll] / [handleResize] of
      its second effect);
    - the standalone HTML kit emitted by [handleDownloadHtmlKit] in
      [components/VideoResult.tsx] (the inline script with [D], [R] and its
      sampling loop), together with the capture loop of [handleDownloadGif].

    and of what stands beside them in the sources: the first effect of
    the preview run again for another video, [getFrames], which sizes the
    GIF downloads, and [generateVideo] of the generation service, from the
    request it builds to the video it fetches.

    JavaScript numbers are kept abstract behind the class [JSNumber], and
    the program text is translated once against that interface.  The
    program computes in IEEE binary64: that is the instance [Binary64],
    the primitive floating-point numbers of the kernel.  What is proved of
    the program is proved either for every instance of the interface, with
    each arithmetic expression left as the program writes it, or of the
    instance [Binary64] itself, by evaluation.  The second instance,
    [Exact], computes without rounding; it is the reading of the
    specification's formulas over the rationals, and it coincides with the
    program where no rounding can occur (products with 0, [NaN] and the
    infinities, quotients that are integers).

    The frame count, the constant [FRAME_COUNT = 100] of the preview and
    [F = 100] of the kit, is a parameter of the sampling loops, so that
    their behaviour can be stated for every count. *)

From Stdlib Require Import String.
From Stdlib Require Import ZArith QArith Qround Qreduction Qminmax Lia Lqa Bool List.
From Stdlib Require Import Floats.PrimFloat Floats.SpecFloat Floats.FloatOps.
From Stdlib Require Import Numbers.Cyclic.Int63.Uint63.
Import ListNotations.

Set Implicit Arguments.

(* ================================================================== *)
(** ** JavaScript numbers *)

(** The operations on numbers that the sources use.  [array_index] is the
    conversion of a number used as a property key of an array: it names an
    element only when the number is a non-negative integer.  (Arrays are
    lists here, all far shorter than the 2^32 - 1 elements an array can
    hold, so the upper limit of array indices never decides a lookup.) *)
Class JSNumber (num : Type) : Type := {
  of_nat : nat -> num;
  ndiv : num -> num -> num;
  nmul : num -> num -> num;
  nsub : num -> num -> num;
  ngt : num -> num -> bool;
  Math_floor : num -> num;
  Math_ceil : num -> num;
  Math_max : num -> num -> num;
  Math_min : num -> num -> num;
  isFinite : num -> bool;
  array_index : num -> option nat
}.

Declare Scope js_scope.
Delimit Scope js_scope with js.
Infix "/" := ndiv : js_scope.
Infix "*" := nmul : js_scope.
Infix "-" := nsub : js_scope.
Infix ">" := ngt : js_scope.
Notation "$ n" := (of_nat n) (at level 5, n at level 0, format "$ n") : js_scope.

(** [a[k]] on a JavaScript array: [undefined] unless [k] is an index below
    the length. *)
Definition array_get {num} `{JSNumber num} {A} (a : list A) (k : num) : option A :=
  match array_index k with
  | Some n => nth_error a n
  | None => None
  end.

(* ------------------------------------------------------------------ *)
(** *** Arithmetic without rounding

    Finite values are rationals and every operation is exact; division by
    zero, [NaN] and the infinities behave as IEEE 754 prescribes.  The two
    zeros are not distinguished (a zero divisor counts as [+0]).  This is
    not the arithmetic of the program, which rounds every quotient and
    product to binary64: [(10 / 100) * 3] is [3 / 10] here and
    0.30000000000000004 in the program.  It serves to state what the
    formulas of the specification give over the rationals, and for the
    computations of the program in which no rounding occurs. *)
Module Exact.

Inductive num : Type :=
| NaN
| PInf
| NInf
| Fin (q : Q).

Definition fin (q : Q) : num := Fin (Qred q).

Definition Qgtb (x y : Q) : bool := negb (Qle_bool x y).

Definition by_sign (x : Q) (pos neg zero : num) : num :=
  match x ?= 0 with
  | Gt => pos
  | Lt => neg
  | Eq => zero
  end.

Definition div (a b : num) : num :=
  match a, b with
  | NaN, _ | _, NaN => NaN
  | Fin x, Fin y => if Qeq_bool y 0 then by_sign x PInf NInf NaN else fin (x / y)
  | Fin _, _ => Fin 0
  | PInf, Fin y => by_sign y PInf NInf PInf
  | NInf, Fin y => by_sign y NInf PInf NInf
  | _, _ => NaN
  end.

Definition mul (a b : num) : num :=
  match a, b with
  | NaN, _ | _, NaN => NaN
  | Fin x, Fin y => fin (x * y)
  | Fin x, PInf | PInf, Fin x => by_sign x PInf NInf NaN
  | Fin x, NInf | NInf, Fin x => by_sign x NInf PInf NaN
  | PInf, PInf | NInf, NInf => PInf
  | PInf, NInf | NInf, PInf => NInf
  end.

Definition sub (a b : num) : num :=
  match a, b with
  | NaN, _ | _, NaN => NaN
  | Fin x, Fin y => fin (x - y)
  | Fin _, PInf => NInf
  | Fin _, NInf => PInf
  | PInf, PInf | NInf, NInf => NaN
  | PInf, _ => PInf
  | NInf, _ => NInf
  end.

Definition gt (a b : num) : bool :=
  match a, b with
  | NaN, _ | _, NaN => false
  | Fin x, Fin y => Qgtb x y
  | PInf, PInf => false
  | PInf, _ => true
  | NInf, _ => false
  | Fin _, NInf => true
  | Fin _, PInf => false
  end.

Definition max (a b : num) : num :=
  match a, b with
  | NaN, _ | _, NaN => NaN
  | PInf, _ | _, PInf => PInf
  | NInf, c | c, NInf => c
  | Fin x, Fin y => if Qle_bool x y then Fin y else Fin x
  end.

Definition min (a b : num) : num :=
  match a, b with
  | NaN, _ | _, NaN => NaN
  | NInf, _ | _, NInf => NInf
  | PInf, c | c, PInf => c
  | Fin x, Fin y => if Qle_bool x y then Fin x else Fin y
  end.

Definition of_Z (z : Z) : num := Fin (inject_Z z).

Definition natQ (n : nat) : Q := inject_Z (Z.of_nat n).

Definition floor (a : num) : num :=
  match a with
  | Fin x => of_Z (Qfloor x)
  | _ => a
  end.

Definition ceil (a : num) : num :=
  match a with
  | Fin x => of_Z (Qceiling x)
  | _ => a
  end.

Definition finite (a : num) : bool :=
  match a with
  | Fin _ => true
  | _ => false
  end.

Definition index (a : num) : option nat :=
  match a with
  | Fin x =>
      if Qle_bool 0 x && Qeq_bool (inject_Z (Qfloor x)) x
      then Some (Z.to_nat (Qfloor x))
      else None
  | _ => None
  end.

#[global] Instance number : JSNumber num := {|
  of_nat n := Fin (natQ n);
  ndiv := div;
  nmul := mul;
  nsub := sub;
  ngt := gt;
  Math_floor := floor;
  Math_ceil := ceil;
  Math_max := max;
  Math_min := min;
  isFinite := finite;
  array_index := index
|}.

End Exact.

(* ------------------------------------------------------------------ *)
(** *** IEEE binary64, the arithmetic of the program

    The arithmetic is the kernel's primitive binary64 arithmetic; the
    [Math] functions and the key conversion are written on the decoded
    value [m * 2^e]. *)
Module Binary64.

Definition num : Type := float.

Definition of_Z (z : Z) : float :=
  match z with
  | Z0 => 0%float
  | Zpos _ => PrimFloat.of_uint63 (Uint63.of_Z z)
  | Zneg p => PrimFloat.opp (PrimFloat.of_uint63 (Uint63.of_Z (Zpos p)))
  end.

(** [m * 2^e] with [e < 0], truncated toward zero, and whether that lost
    nothing. *)
Definition truncate (m : positive) (e : Z) : Z * bool :=
  let q := Z.shiftr (Zpos m) (- e) in
  (q, Z.eqb (Z.shiftl q (- e)) (Zpos m)).

Definition floor (x : float) : float :=
  match Prim2SF x with
  | S754_finite s m e =>
      if (0 <=? e)%Z then x
      else let (q, exact) := truncate m e in
           if exact then x
           else if s then of_Z (- (q + 1)) else of_Z q
  | _ => x
  end.

Definition ceil (x : float) : float :=
  match Prim2SF x with
  | S754_finite s m e =>
      if (0 <=? e)%Z then x
      else let (q, exact) := truncate m e in
           if exact then x
           else if s then (if (q =? 0)%Z then (-0)%float else of_Z (- q))
                else of_Z (q + 1)
  | _ => x
  end.

Definition is_neg_zero (x : float) : bool :=
  match Prim2SF x with
  | S754_zero true => true
  | _ => false
  end.

Definition max (a b : float) : float :=
  if PrimFloat.is_nan a || PrimFloat.is_nan b then PrimFloat.nan
  else if PrimFloat.ltb a b then b
  else if PrimFloat.ltb b a then a
  else if is_neg_zero a then b else a.

Definition min (a b : float) : float :=
  if PrimFloat.is_nan a || PrimFloat.is_nan b then PrimFloat.nan
  else if PrimFloat.ltb a b then a
  else if PrimFloat.ltb b a then b
  else if is_neg_zero a then a else b.

Definition finite (x : float) : bool :=
  match Prim2SF x with
  | S754_zero _ | S754_finite _ _ _ => true
  | _ => false
  end.

Definition index (x : float) : option nat :=
  match Prim2SF x with
  | S754_zero _ => Some 0%nat
  | S754_finite false m e =>
      if (0 <=? e)%Z then Some (Z.to_nat (Z.shiftl (Zpos m) e))
      else let (q, exact) := truncate m e in
           if exact then Some (Z.to_nat q) else None
  | _ => None
  end.

#[global] Instance number : JSNumber num := {|
  of_nat n := of_Z (Z.of_nat n);
  ndiv := PrimFloat.div;
  nmul := PrimFloat.mul;
  nsub := PrimFloat.sub;
  ngt a b := PrimFloat.ltb b a;
  Math_floor := floor;
  Math_ceil := ceil;
  Math_max := max;
  Math_min := min;
  isFinite := finite;
  array_index := index
|}.

End Binary64.

(* ================================================================== *)
(** ** The page: canvases, scroll metrics, events *)

Section Page.

Context {num : Type} `{JSNumber num}.
Local Open Scope js_scope.

(** An off-screen canvas made by the sampler (an element of
    [framesRef.current], resp. of [S]).  [still] is what [drawImage(video,
    0, 0)] put on it: the picture the video showed at that [currentTime];
    [None] is a canvas nothing was drawn on. *)
Record Frame : Type := {
  fwidth : nat;
  fheight : nat;
  still : option num
}.

(** What has been painted on the visible canvas since its bitmap was last
    reset, oldest first. *)
Inductive Paint : Type :=
| clearRect (x y w h : num)
| drawImage (image : Frame) (dx dy dw dh : num).

(** The visible canvas.  Assigning [width] or [height] resets the bitmap.
    [has2d] tells whether [getContext('2d')] yields a context. *)
Record Canvas : Type := {
  width : nat;
  height : nat;
  has2d : bool;
  paint : list Paint
}.

Record Window : Type := {
  innerWidth : nat;
  innerHeight : nat
}.

(** Scroll metrics of the scrolling element ([containerRef.current] in the
    app, [document.documentElement] in the kit). *)
Record Container : Type := {
  scrollTop : num;
  scrollHeight : nat;
  clientHeight : nat
}.

(** [canvas.width = window.innerWidth; canvas.height = window.innerHeight] *)
Definition fit_window (canvas : Canvas) (window : Window) : Canvas :=
  {| width := innerWidth window;
     height := innerHeight window;
     has2d := has2d canvas;
     paint := [] |}.

Definition draw (canvas : Canvas) (ops : list Paint) : Canvas :=
  {| width := width canvas;
     height := height canvas;
     has2d := has2d canvas;
     paint := paint canvas ++ ops |}.

(** How one [seeked] callback fares when it captures the picture. *)
Inductive Capture : Type :=
| Drawn        (* the picture is drawn on the new canvas *)
| NoContext    (* getContext('2d') is null *)
| Throws.      (* drawImage throws *)

(** The point at which the asynchronous function is suspended.  The
    constants [duration], [width], [height] of its body are kept with the
    loop position. *)
Inductive Task : Type :=
| AwaitMetadata
| AwaitSeeked (i : nat) (duration : num) (width height : nat)
| Stalled      (* awaiting a promise that nothing will resolve any more *)
| Returned.

(** Everything that can happen to the mounted component or the open page. *)
Inductive Event : Type :=
| loadedmetadata (duration : num) (videoWidth videoHeight : nat)
| seeked (c : Capture)
| error                                   (* the video element's error event *)
| cleanup                                 (* cleanup of the first effect *)
| scroll (container : Container)
| resize (window : Window) (container : Container)
| message (percent : num).                (* a [scroll] message posted to the page *)

End Page.

Arguments Frame : clear implicits.
Arguments Paint : clear implicits.
Arguments Canvas : clear implicits.
Arguments Container : clear implicits.
Arguments Task : clear implicits.
Arguments Event : clear implicits.

(* ================================================================== *)
(** ** components/ScrollPreview.tsx *)

Module ScrollPreview.

Section WithNumbers.

Context {num : Type} `{JSNumber num}.
Local Open Scope js_scope.

(* ------------------------------------------------------------------ *)
(** *** ScrollPreview, second effect: drawing on scroll *)

(** [const scrollPercent = Math.max(0, Math.min(1, scrollTop / scrollHeight))]
    where [scrollHeight] is the local
    [container.scrollHeight - container.clientHeight]. *)
Definition scrollPercent (container : Container num) : num :=
  let scrollTop := scrollTop container in
  let scrollHeight := $(scrollHeight container) - $(clientHeight container) in
  Math_max $0 (Math_min $1 (scrollTop / scrollHeight)).

(** [Math.floor(scrollPercent * (framesRef.current.length - 1))] *)
Definition frameIndex (frames : list (Frame num)) (scrollPercent : num) : num :=
  Math_floor (scrollPercent * ($(length frames) - $1)).

Record Placement : Type := {
  drawWidth : num;
  drawHeight : num;
  offsetX : num;
  offsetY : num
}.

(** The block under the comment [// Cover logic]. *)
Definition cover (frame : Frame num) (canvas : Canvas num) : Placement :=
  let frameAspect := $(fwidth frame) / $(fheight frame) in
  let canvasAspect := $(width canvas) / $(height canvas) in
  if canvasAspect > frameAspect then
    let drawWidth := $(width canvas) in
    let drawHeight := $(width canvas) / frameAspect in
    {| drawWidth := drawWidth;
       drawHeight := drawHeight;
       offsetX := $0;
       offsetY := ($(height canvas) - drawHeight) / $2 |}
  else
    let drawHeight := $(height canvas) in
    let drawWidth := $(height canvas) * frameAspect in
    {| drawWidth := drawWidth;
       drawHeight := drawHeight;
       offsetX := ($(width canvas) - drawWidth) / $2;
       offsetY := $0 |}.

(** [handleScroll], as a function from the referenced objects to the new
    contents of [canvasRef.current]. *)
Definition handleScroll (frames : list (Frame num))
    (containerRef : option (Container num)) (canvasRef : option (Canvas num))
  : option (Canvas num) :=
  match containerRef, canvasRef with
  | Some container, Some canvas =>
      let frameIndex := frameIndex frames (scrollPercent container) in
      match array_get frames frameIndex with
      | Some frame =>
          if has2d canvas then
            let p := cover frame canvas in
            Some (draw canvas
                    [clearRect $0 $0 $(width canvas) $(height canvas);
                     drawImage frame (offsetX p) (offsetY p)
                               (drawWidth p) (drawHeight p)])
          else Some canvas
      | None => Some canvas
      end
  | _, _ => canvasRef
  end.

(** [handleResize] *)
Definition handleResize (frames : list (Frame num)) (window : Window)
    (containerRef : option (Container num)) (canvasRef : option (Canvas num))
  : option (Canvas num) :=
  match canvasRef with
  | Some canvas =>
      handleScroll frames containerRef (Some (fit_window canvas window))
  | None => None
  end.

(* ------------------------------------------------------------------ *)
(** *** ScrollPreview, first effect: [extractFrames]

    One run of the effect, from mounting on.  The asynchronous function
    runs from one suspension to the next without interruption, so it is an
    automaton over the events of the page: [step] is what one event does
    to the component, [run] a whole history. *)

Record Preview : Type := {
  window : Window;
  containerRef : option (Container num);
  canvasRef : option (Canvas num);
  framesRef : list (Frame num);
  loadingProgress : list num;   (* arguments of setLoadingProgress, oldest first *)
  isReady : bool;
  isActive : bool;
  currentTime : num;            (* video.currentTime *)
  console : list string;        (* console.error *)
  task : Task num
}.

Definition set_task (t : Task num) (st : Preview) : Preview :=
  {| window := window st; containerRef := containerRef st;
     canvasRef := canvasRef st; framesRef := framesRef st;
     loadingProgress := loadingProgress st; isReady := isReady st;
     isActive := isActive st; currentTime := currentTime st;
     console := console st; task := t |}.

Definition set_canvas (c : option (Canvas num)) (st : Preview) : Preview :=
  {| window := window st; containerRef := containerRef st;
     canvasRef := c; framesRef := framesRef st;
     loadingProgress := loadingProgress st; isReady := isReady st;
     isActive := isActive st; currentTime := currentTime st;
     console := console st; task := task st |}.

(** The environment moves the page: new window size, new scroll metrics
    (of the container element, when there is one). *)
Definition set_layout (w : Window) (c : Container num) (st : Preview) : Preview :=
  {| window := w;
     containerRef := match containerRef st with Some _ => Some c | None => None end;
     canvasRef := canvasRef st; framesRef := framesRef st;
     loadingProgress := loadingProgress st; isReady := isReady st;
     isActive := isActive st; currentTime := currentTime st;
     console := console st; task := task st |}.

(** [video.currentTime = t], suspended on the [seeked] promise of
    iteration [i]. *)
Definition seek (t : num) (i : nat) (duration : num) (w h : nat)
    (st : Preview) : Preview :=
  {| window := window st; containerRef := containerRef st;
     canvasRef := canvasRef st; framesRef := framesRef st;
     loadingProgress := loadingProgress st; isReady := isReady st;
     isActive := isActive st; currentTime := t;
     console := console st; task := AwaitSeeked i duration w h |}.

(** [framesRef.current.push(frameCanvas); setLoadingProgress(p)] *)
Definition captured (frameCanvas : Frame num) (p : num) (st : Preview) : Preview :=
  {| window := window st; containerRef := containerRef st;
     canvasRef := canvasRef st; framesRef := framesRef st ++ [frameCanvas];
     loadingProgress := loadingProgress st ++ [p]; isReady := isReady st;
     isActive := isActive st; currentTime := currentTime st;
     console := console st; task := task st |}.

(** The [catch] clause. *)
Definition caught (st : Preview) : Preview :=
  {| window := window st; containerRef := containerRef st;
     canvasRef := canvasRef st; framesRef := framesRef st;
     loadingProgress := loadingProgress st; isReady := isReady st;
     isActive := isActive st; currentTime := currentTime st;
     console := console st ++ ["Frame extraction failed"%string];
     task := Returned |}.

(** [setIsReady(true)] and the return that follows it; the second effect
    then runs: it registers [handleScroll] and [handleResize] and ends
    with the initial [handleScroll()]. *)
Definition ready (st : Preview) : Preview :=
  {| window := window st; containerRef := containerRef st;
     canvasRef := handleScroll (framesRef st) (containerRef st) (canvasRef st);
     framesRef := framesRef st;
     loadingProgress := loadingProgress st; isReady := true;
     isActive := isActive st; currentTime := currentTime st;
     console := console st; task := Returned |}.

(** The cleanup of the first effect, [isActive = false]: the component is
    unmounted or [videoUrl] has changed. *)
Definition deactivate (st : Preview) : Preview :=
  {| window := window st; containerRef := containerRef st;
     canvasRef := canvasRef st; framesRef := framesRef st;
     loadingProgress := loadingProgress st; isReady := isReady st;
     isActive := false; currentTime := currentTime st;
     console := console st; task := task st |}.

Section ExtractFrames.

Variable FRAME_COUNT : nat.

(** The head of the [for] statement at counter [i], up to the next
    suspension: the test [i < FRAME_COUNT], the guard on [isActive], and
    the assignment to [video.currentTime], which throws a [TypeError] for
    a value that is not finite. *)
Definition iteration (i : nat) (duration : num) (w h : nat) (st : Preview)
  : Preview :=
  if (i <? FRAME_COUNT)%nat then
    if negb (isActive st) then set_task Returned st
    else
      let t := (duration / $FRAME_COUNT) * $i in
      if isFinite t then seek t i duration w h st
      else caught st
  else ready st.

(** The body of [onSeeked] for iteration [i]. *)
Definition onSeeked (i : nat) (w h : nat) (c : Capture) (st : Preview)
  : option Preview :=
  let progress := Math_floor (($i / $FRAME_COUNT) * $100) in
  match c with
  | Drawn =>
      Some (captured {| fwidth := w; fheight := h;
                        still := Some (currentTime st) |} progress st)
  | NoContext =>
      Some (captured {| fwidth := w; fheight := h; still := None |} progress st)
  | Throws => None
  end.

(** The promises are made with [resolve] alone: [loadedmetadata] resumes
    the function when it waits for the metadata, [seeked] runs [onSeeked]
    when a seek is awaited, and an exception in that listener leaves its
    promise pending.  The video's [error] event and the [message] event
    have no listener.  [handleScroll] and [handleResize] are listening
    once [isReady] is set. *)
Definition step (st : Preview) (ev : Event num) : Preview :=
  match ev with
  | loadedmetadata duration videoWidth videoHeight =>
      match task st with
      | AwaitMetadata =>
          let st :=
            set_canvas
              (match canvasRef st with
               | Some canvas => Some (fit_window canvas (window st))
               | None => None
               end) st in
          iteration 0 duration videoWidth videoHeight st
      | _ => st
      end
  | seeked c =>
      match task st with
      | AwaitSeeked i duration w h =>
          match onSeeked i w h c st with
          | Some st => iteration (S i) duration w h st
          | None => set_task Stalled st
          end
      | _ => st
      end
  | error => st
  | message _ => st
  | cleanup => deactivate st
  | scroll container =>
      let st := set_layout (window st) container st in
      if isReady st
      then set_canvas (handleScroll (framesRef st) (containerRef st) (canvasRef st)) st
      else st
  | resize window container =>
      let st := set_layout window container st in
      if isReady st
      then set_canvas (handleResize (framesRef st) window (containerRef st) (canvasRef st)) st
      else st
  end.

Definition run (st : Preview) (evs : list (Event num)) : Preview :=
  fold_left step evs st.

(** What the sampler has stored, in any state reached after the metadata
    [d], [w], [h] arrived: frame [j] has the video's size and holds the
    picture sought for position [j] (or nothing, where [blank] allows a
    canvas without context); one progress value was emitted per frame;
    the loop counter equals the number of frames; and [isReady] is set
    only with [FRAME_COUNT] frames stored. *)
Record Sampled (d : num) (w h : nat) (blank : bool) (st : Preview) : Prop := {
  frames_ok : forall j f, nth_error (framesRef st) j = Some f ->
      fwidth f = w /\ fheight f = h /\
      (still f = Some ((d / $FRAME_COUNT) * $j)
       \/ (blank = true /\ still f = None));
  progress_ok :
      loadingProgress st =
      map (fun i => Math_floor (($i / $FRAME_COUNT) * $100))
          (seq 0 (length (framesRef st)));
  bounded : (length (framesRef st) <= FRAME_COUNT)%nat;
  task_ok :
      match task st with
      | AwaitMetadata => False
      | AwaitSeeked i d' w' h' =>
          d' = d /\ w' = w /\ h' = h /\ length (framesRef st) = i
          /\ (i < FRAME_COUNT)%nat
          /\ isReady st = false /\ currentTime st = (d / $FRAME_COUNT) * $i
      | Stalled => isReady st = false
      | Returned => isReady st = true -> length (framesRef st) = FRAME_COUNT
      end
}.

End ExtractFrames.

(** The component right after mounting, [extractFrames()] called. *)
Definition mount (window : Window) (container : Container num) : Preview :=
  {| window := window;
     containerRef := Some container;
     canvasRef := Some {| width := 300; height := 150; has2d := true; paint := [] |};
     framesRef := [];
     loadingProgress := [];
     isReady := false;
     isActive := true;
     currentTime := $0;
     console := [];
     task := AwaitMetadata |}.

(** Before the metadata has arrived nothing has been sampled. *)
Definition Fresh (st : Preview) : Prop :=
  task st = AwaitMetadata /\ framesRef st = [] /\ loadingProgress st = []
  /\ isReady st = false /\ console st = [].

Definition FRAME_COUNT : nat := 100.

End WithNumbers.

Arguments Placement : clear implicits.
Arguments Preview : clear implicits.

End ScrollPreview.

(* ================================================================== *)
(** ** components/VideoResult.tsx *)

Module VideoResult.

Module HtmlKit.

Section WithNumbers.

Context {num : Type} `{JSNumber num}.
Local Open Scope js_scope.

(* ------------------------------------------------------------------ *)
(** *** The HTML kit of [handleDownloadHtmlKit]

    The inline script of the exported page, with its one-letter names:
    [S] the frames, [c] the canvas, [x] its context, [n] the countdown
    element, [v] the video, [F] the frame count. *)

(** [D = p => { ... }].  [None] is the [TypeError] of calling [clearRect]
    on a null [x]. *)
Definition D (S : list (Frame num)) (c : Canvas num) (p : num) : option (Canvas num) :=
  let i := Math_floor (p * ($(length S) - $1)) in
  match array_get S i with
  | None => Some c
  | Some m =>
      let a := $(fwidth m) / $(fheight m) in
      let b := $(width c) / $(height c) in
      let '(w, h, X, Y) :=
        if b > a then
          let w := $(width c) in
          let h := w / a in
          (w, h, $0, ($(height c) - h) / $2)
        else
          let h := $(height c) in
          let w := h * a in
          (w, h, ($(width c) - w) / $2, $0) in
      if has2d c then
        Some (draw c [clearRect $0 $0 $(width c) $(height c);
                      drawImage m X Y w h])
      else None
  end.

(** [R = () => { c.width = innerWidth, c.height = innerHeight, D(0) }]:
    the canvas it leaves, and whether [D] threw. *)
Definition R (S : list (Frame num)) (c : Canvas num) (window : Window) : Canvas num * bool :=
  let c := fit_window c window in
  match D S c $0 with
  | Some c' => (c', false)
  | None => (c, true)
  end.

(** The text of the countdown element [n]. *)
Inductive Countdown : Type :=
| Count (value : num)
| READY
| ERROR.

Record Kit : Type := {
  kit_window : Window;
  documentElement : Container num;
  c : Canvas num;
  S : list (Frame num);
  n : Countdown;
  v_currentTime : num;
  kit_task : Task num
}.

Definition kit_set_task (t : Task num) (st : Kit) : Kit :=
  {| kit_window := kit_window st; documentElement := documentElement st;
     c := c st; S := S st; n := n st; v_currentTime := v_currentTime st;
     kit_task := t |}.

Definition kit_set_canvas (c' : Canvas num) (st : Kit) : Kit :=
  {| kit_window := kit_window st; documentElement := documentElement st;
     c := c'; S := S st; n := n st; v_currentTime := v_currentTime st;
     kit_task := kit_task st |}.

Definition kit_set_layout (w : Window) (d : Container num) (st : Kit) : Kit :=
  {| kit_window := w; documentElement := d;
     c := c st; S := S st; n := n st; v_currentTime := v_currentTime st;
     kit_task := kit_task st |}.

Definition kit_seek (t : num) (i : nat) (d : num) (w h : nat) (st : Kit) : Kit :=
  {| kit_window := kit_window st; documentElement := documentElement st;
     c := c st; S := S st; n := n st; v_currentTime := t;
     kit_task := AwaitSeeked i d w h |}.

(** The [catch] clause: [n.innerText = "ERROR"]. *)
Definition kit_caught (st : Kit) : Kit :=
  {| kit_window := kit_window st; documentElement := documentElement st;
     c := c st; S := S st; n := ERROR; v_currentTime := v_currentTime st;
     kit_task := Returned |}.

(** After the loop: [n.innerText = "READY"], the overlay is faded out by
    timers (not modelled), and [R()] runs, still inside the [try]. *)
Definition kit_finish (st : Kit) : Kit :=
  let '(c', threw) := R (S st) (c st) (kit_window st) in
  let st' :=
    {| kit_window := kit_window st; documentElement := documentElement st;
       c := c'; S := S st; n := READY; v_currentTime := v_currentTime st;
       kit_task := Returned |} in
  if threw then kit_caught st' else st'.

(** A call of [D] from an event listener: an exception ends the listener
    and leaves the canvas as it is. *)
Definition kit_draw (p : num) (st : Kit) : Kit :=
  match D (S st) (c st) p with
  | Some c' => kit_set_canvas c' st
  | None => st
  end.

Section KitSampling.

Variable F : nat.

(** The head of [for(let i=0;i<F;i++) v.currentTime=d/F*i, await ...]
    at counter [i]. *)
Definition kit_iteration (i : nat) (d : num) (w h : nat) (st : Kit) : Kit :=
  if (i <? F)%nat then
    let t := (d / $F) * $i in
    if isFinite t then kit_seek t i d w h st
    else kit_caught st
  else kit_finish st.

(** The listener [s] of one iteration; [None] when it throws. *)
Definition kit_onSeeked (w h : nat) (cap : Capture) (st : Kit) : option Kit :=
  match cap with
  | Drawn =>
      let S' := S st ++ [{| fwidth := w; fheight := h;
                            still := Some (v_currentTime st) |}] in
      let g := $(length S') / $F in
      Some {| kit_window := kit_window st;
              documentElement := documentElement st;
              c := c st; S := S';
              n := Count (Math_max $1 (Math_ceil ($10 - g * $9)));
              v_currentTime := v_currentTime st;
              kit_task := kit_task st |}
  | NoContext => None
  | Throws => None
  end.

(** The page's listeners: [onmessage], [scroll] and [resize] are set as
    soon as the script runs, so they also fire while frames are still
    being sampled; the sampling function has no cancellation. *)
Definition kit_step (st : Kit) (ev : Event num) : Kit :=
  match ev with
  | loadedmetadata d videoWidth videoHeight =>
      match kit_task st with
      | AwaitMetadata => kit_iteration 0 d videoWidth videoHeight st
      | _ => st
      end
  | seeked cap =>
      match kit_task st with
      | AwaitSeeked i d w h =>
          match kit_onSeeked w h cap st with
          | Some st => kit_iteration (Datatypes.S i) d w h st
          | None => kit_set_task Stalled st
          end
      | _ => st
      end
  | error => st
  | cleanup => st
  | message percent => kit_draw percent st
  | scroll d =>
      let st := kit_set_layout (kit_window st) d st in
      let scrollPercent :=
        scrollTop d / ($(scrollHeight d) - $(clientHeight d)) in
      kit_draw scrollPercent st
  | resize w d =>
      let st := kit_set_layout w d st in
      kit_set_canvas (fst (R (S st) (c st) w)) st
  end.

Definition kit_run (st : Kit) (evs : list (Event num)) : Kit :=
  fold_left kit_step evs st.

End KitSampling.

(** The page once its script has run to the first [await]. *)
Definition kit_open (window : Window) (d : Container num) : Kit :=
  {| kit_window := window;
     documentElement := d;
     c := {| width := 300; height := 150; has2d := true; paint := [] |};
     S := [];
     n := Count $10;
     v_currentTime := $0;
     kit_task := AwaitMetadata |}.

Definition F : nat := 100.

End WithNumbers.

Arguments Countdown : clear implicits.
Arguments Kit : clear implicits.

End HtmlKit.

Section WithNumbers.

Context {num : Type} `{JSNumber num}.
Local Open Scope js_scope.

(* ------------------------------------------------------------------ *)
(** *** The capture loop of [handleDownloadGif]

    Every requested seek is taken to complete.  An element of [images]
    stands for the data URL of the picture the video showed at that
    [currentTime]; the fixed output size plays no part. *)

(** [const duration = videoDuration || 8;
     return Math.floor((duration / divisor) * 10)] *)
Definition getFrames (videoDuration : num) (divisor : nat) : num :=
  let duration :=
    if (videoDuration > $0) || ($0 > videoDuration) then videoDuration
    else $8 in
  Math_floor ((duration / $divisor) * $10).

Record GifCapture : Type := {
  gif_currentTime : num;
  images : list num
}.

(** One turn of the [for] body; [None] once the assignment to
    [video.currentTime] has thrown. *)
Definition gif_turn (step : num) (ctx : bool)
    (acc : option GifCapture) (i : nat) : option GifCapture :=
  match acc with
  | None => None
  | Some g =>
      let time := $i * step in
      let sought :=
        if time > $0 then
          (if isFinite time then Some time else None)
        else Some (gif_currentTime g) in
      match sought with
      | None => None
      | Some t =>
          Some {| gif_currentTime := t;
                  images := if ctx then images g ++ [t] else images g |}
      end
  end.

(** The pictures handed to the encoder by [handleDownloadGif(frames)] on
    a video of the given duration. *)
Definition gif_images (frames : nat) (duration : num) (ctx : bool)
  : option (list num) :=
  let step := duration / $frames in
  option_map images
    (fold_left (gif_turn step ctx) (seq 0 frames)
       (Some {| gif_currentTime := $0; images := [] |})).

End WithNumbers.

Arguments GifCapture : clear implicits.

End VideoResult.

(* ================================================================== *)
(** ** components/ScrollPreview.tsx: the first effect run again

    The first effect depends on [videoUrl].  When [videoUrl] changes
    React runs the cleanup of the effect and then the effect once more:
    a new [isActive], a new video element, a new call of
    [extractFrames].  The refs and the state of the component are not
    touched by either: [framesRef.current], [loadingProgress] and
    [isReady] are what the previous run left, and the listeners of the
    second effect stay as they are.  [rerun] is this transition for a
    previous run that has returned (no seek of the old video is in
    flight). *)

Module ScrollPreviewRerun.

Section WithNumbers.

Context {num : Type} `{JSNumber num}.

Definition rerun (st : ScrollPreview.Preview num) : ScrollPreview.Preview num :=
  {| ScrollPreview.window := ScrollPreview.window st;
     ScrollPreview.containerRef := ScrollPreview.containerRef st;
     ScrollPreview.canvasRef := ScrollPreview.canvasRef st;
     ScrollPreview.framesRef := ScrollPreview.framesRef st;
     ScrollPreview.loadingProgress := ScrollPreview.loadingProgress st;
     ScrollPreview.isReady := ScrollPreview.isReady st;
     ScrollPreview.isActive := true;
     ScrollPreview.currentTime := of_nat 0;
     ScrollPreview.console := ScrollPreview.console st;
     ScrollPreview.task := AwaitMetadata |}.

End WithNumbers.

End ScrollPreviewRerun.

(* ================================================================== *)
(** ** The generation service

    The module that exports [enhancePrompt] and [generateVideo] (its text
    follows [VideoResult] in the sources).  [generateVideo] is embedded:
    the request it builds from its parameters, the polling loop and the
    reading of the finished operation.  The remote API is the environment:
    [Server] gives what [generateVideos] answers to the request, the
    successive answers to [getVideosOperation], and the answer to the
    final [fetch]; each of them is a value or a rejection, which the
    function passes on, having no [catch].  What is written to
    [console.log] is left out.

    The declarations of [types.ts] and of the SDK are not among the
    sources; records carry the fields this function reads or writes. *)

Module Service.

(** The members of [GenerationMode] that [generateVideo] tests;
    [OTHER_MODE] stands for every other member. *)
Inductive GenerationMode : Type :=
| FRAMES_TO_VIDEO
| REFERENCES_TO_VIDEO
| EXTEND_VIDEO
| OTHER_MODE.

Record File : Type := {
  name : string;
  type : string
}.

Record ImageFile : Type := {
  file : File;
  base64 : string
}.

Record Video : Type := {
  uri : option string
}.

Module Params.
Record t : Type := {
  prompt : string;
  model : string;
  resolution : string;
  aspectRatio : string;
  mode : GenerationMode;
  startFrame : option ImageFile;
  endFrame : option ImageFile;
  isLooping : bool;
  referenceImages : option (list ImageFile);
  styleImage : option ImageFile;
  inputVideoObject : option Video
}.
End Params.

Record Image : Type := {
  imageBytes : string;
  mimeType : string
}.

Inductive VideoGenerationReferenceType : Type :=
| ASSET
| STYLE.

Record VideoGenerationReferenceImage : Type := {
  image : Image;
  referenceType : VideoGenerationReferenceType
}.

Module Config.
Record t : Type := {
  numberOfVideos : nat;
  resolution : string;
  aspectRatio : option string;
  lastFrame : option Image;
  referenceImages : option (list VideoGenerationReferenceImage)
}.
End Config.

Module Payload.
Record t : Type := {
  model : string;
  config : Config.t;
  prompt : option string;
  image : option Image;
  video : option Video
}.
End Payload.

(** [{imageBytes: f.base64, mimeType: f.file.type}] *)
Definition image_of (f : ImageFile) : Image :=
  {| imageBytes := base64 f; mimeType := type (file f) |}.

Definition with_image (i : Image) (p : Payload.t) : Payload.t :=
  {| Payload.model := Payload.model p; Payload.config := Payload.config p;
     Payload.prompt := Payload.prompt p; Payload.image := Some i;
     Payload.video := Payload.video p |}.

Definition with_video (v : Video) (p : Payload.t) : Payload.t :=
  {| Payload.model := Payload.model p; Payload.config := Payload.config p;
     Payload.prompt := Payload.prompt p; Payload.image := Payload.image p;
     Payload.video := Some v |}.

Definition with_lastFrame (i : Image) (p : Payload.t) : Payload.t :=
  let c := Payload.config p in
  {| Payload.model := Payload.model p;
     Payload.config :=
       {| Config.numberOfVideos := Config.numberOfVideos c;
          Config.resolution := Config.resolution c;
          Config.aspectRatio := Config.aspectRatio c;
          Config.lastFrame := Some i;
          Config.referenceImages := Config.referenceImages c |};
     Payload.prompt := Payload.prompt p; Payload.image := Payload.image p;
     Payload.video := Payload.video p |}.

Definition with_referenceImages (r : list VideoGenerationReferenceImage)
    (p : Payload.t) : Payload.t :=
  let c := Payload.config p in
  {| Payload.model := Payload.model p;
     Payload.config :=
       {| Config.numberOfVideos := Config.numberOfVideos c;
          Config.resolution := Config.resolution c;
          Config.aspectRatio := Config.aspectRatio c;
          Config.lastFrame := Config.lastFrame c;
          Config.referenceImages := Some r |};
     Payload.prompt := Payload.prompt p; Payload.image := Payload.image p;
     Payload.video := Payload.video p |}.

Definition is_extend (m : GenerationMode) : bool :=
  match m with
  | EXTEND_VIDEO => true
  | _ => false
  end.

Definition nonempty (s : string) : bool :=
  match s with
  | EmptyString => false
  | _ => true
  end.

(** What [generateVideo] throws: an [Error] with a fixed message; the one
    whose message is built from the status of the failed fetch,
    [`Failed to fetch video: ${res.status} ${res.statusText}`]; or what an
    awaited call or a callee threw, passed on unchanged. *)
Inductive Thrown : Type :=
| Error (message : string)
| FetchFailed (status : nat) (statusText : string)
| Upstream (reason : string).

(** [generateVideo] up to the request: the payload it submits, or the
    error it throws before submitting anything. *)
Definition generateVideoPayload (params : Params.t) : Payload.t + Thrown :=
  let config :=
    {| Config.numberOfVideos := 1;
       Config.resolution := Params.resolution params;
       Config.aspectRatio :=
         if is_extend (Params.mode params) then None
         else Some (Params.aspectRatio params);
       Config.lastFrame := None;
       Config.referenceImages := None |} in
  let payload :=
    {| Payload.model := Params.model params;
       Payload.config := config;
       Payload.prompt :=
         if nonempty (Params.prompt params) then Some (Params.prompt params)
         else None;
       Payload.image := None;
       Payload.video := None |} in
  match Params.mode params with
  | FRAMES_TO_VIDEO =>
      let payload :=
        match Params.startFrame params with
        | Some startFrame => with_image (image_of startFrame) payload
        | None => payload
        end in
      let finalEndFrame :=
        if Params.isLooping params then Params.startFrame params
        else Params.endFrame params in
      match finalEndFrame with
      | Some finalEndFrame => inl (with_lastFrame (image_of finalEndFrame) payload)
      | None => inl payload
      end
  | REFERENCES_TO_VIDEO =>
      let assets :=
        match Params.referenceImages params with
        | Some imgs =>
            map (fun img => {| image := image_of img; referenceType := ASSET |}) imgs
        | None => []
        end in
      let referenceImagesPayload :=
        match Params.styleImage params with
        | Some styleImage =>
            assets ++ [{| image := image_of styleImage; referenceType := STYLE |}]
        | None => assets
        end in
      if (0 <? length referenceImagesPayload)%nat
      then inl (with_referenceImages referenceImagesPayload payload)
      else inl payload
  | EXTEND_VIDEO =>
      match Params.inputVideoObject params with
      | Some v => inl (with_video v payload)
      | None =>
          inr (Error "An input video object is required to extend a video.")
      end
  | OTHER_MODE => inl payload
  end.

Record GeneratedVideo : Type := {
  video : option Video
}.

Record Response : Type := {
  generatedVideos : option (list (option GeneratedVideo))
}.

Record Operation : Type := {
  done : bool;
  response : option Response
}.

Record FetchResponse : Type := {
  ok : bool;
  status : nat;
  statusText : string;
  blob : string + string                       (* res.blob(), or its rejection *)
}.

Record Server : Type := {
  generateVideos : Payload.t -> Operation + string;
  getVideosOperation : list (Operation + string);   (* the answers, in the order given *)
  fetch : string -> FetchResponse + string
}.

(** How a call ends, as far as the answers of the server tell:
    [Polling] is the loop still waiting when the answers are used up. *)
Inductive Outcome : Type :=
| Resolved (objectUrl blob uri : string) (video : Video)
| Rejected (e : Thrown)
| Polling.

(** A call as seen from outside: the request submitted, the number of
    ten-second waits (one before each poll), the URL fetched. *)
Record Call : Type := {
  submitted : option Payload.t;
  waits : nat;
  fetched : option string;
  outcome : Outcome
}.

(** [while (!operation.done) { await wait(10000); operation = await
    getVideosOperation({operation}) }]: the operation that ends the loop,
    or the rejection of a poll, and the number of polls made, if the
    answers reach one. *)
Fixpoint poll (operation : Operation) (answers : list (Operation + string))
    (polls : nat) : option ((Operation + string) * nat) :=
  if done operation then Some (inl operation, polls)
  else
    match answers with
    | [] => None
    | inl next :: answers => poll next answers (S polls)
    | inr reason :: _ => Some (inr reason, S polls)
    end.

Section GenerateVideo.

Variable API_KEY : string.                     (* process.env.API_KEY *)
Variable decodeURIComponent : string -> string + string.   (* or its URIError *)
Variable createObjectURL : string -> string.   (* URL.createObjectURL *)

(** The part after the loop: the video object and the URL to fetch, or
    the error thrown before fetching. *)
Definition generatedVideo (operation : Operation) : Video * string + Thrown :=
  match response operation with
  | Some response =>
      match generatedVideos response with
      | None | Some [] => inr (Error "No videos were generated.")
      | Some (firstVideo :: _) =>
          let missing := inr (Error "Generated video is missing a URI.") in
          match firstVideo with
          | Some firstVideo =>
              match video firstVideo with
              | Some videoObject =>
                  match uri videoObject with
                  | Some u =>
                      if nonempty u then
                        match decodeURIComponent u with
                        | inl url => inl (videoObject, url)
                        | inr reason => inr (Upstream reason)
                        end
                      else missing
                  | None => missing
                  end
              | None => missing
              end
          | None => missing
          end
      end
  | None => inr (Error "No videos generated.")
  end.

Definition generateVideo (params : Params.t) (server : Server) : Call :=
  match generateVideoPayload params with
  | inr e =>
      {| submitted := None; waits := 0; fetched := None; outcome := Rejected e |}
  | inl payload =>
      match generateVideos server payload with
      | inr reason =>
          {| submitted := Some payload; waits := 0; fetched := None;
             outcome := Rejected (Upstream reason) |}
      | inl operation =>
          match poll operation (getVideosOperation server) 0 with
          | None =>
              {| submitted := Some payload;
                 waits := length (getVideosOperation server);
                 fetched := None; outcome := Polling |}
          | Some (inr reason, polls) =>
              {| submitted := Some payload; waits := polls; fetched := None;
                 outcome := Rejected (Upstream reason) |}
          | Some (inl operation, polls) =>
              match generatedVideo operation with
              | inr e =>
                  {| submitted := Some payload; waits := polls; fetched := None;
                     outcome := Rejected e |}
              | inl (videoObject, url) =>
                  let target := (url ++ "&key=" ++ API_KEY)%string in
                  {| submitted := Some payload; waits := polls;
                     fetched := Some target;
                     outcome :=
                       match fetch server target with
                       | inr reason => Rejected (Upstream reason)
                       | inl res =>
                           if ok res then
                             match blob res with
                             | inl videoBlob =>
                                 Resolved (createObjectURL videoBlob) videoBlob
                                          url videoObject
                             | inr reason => Rejected (Upstream reason)
                             end
                           else Rejected (FetchFailed (status res) (statusText res))
                       end |}
              end
          end
      end
  end.

End GenerateVideo.

End Service.

(* ================================================================== *)
(** ** Properties that hold under every interpretation of numbers *)

Import ScrollPreview.
Import VideoResult.

Section AnyNumbers.

Context {num : Type} `{JSNumber num}.
Local Open Scope js_scope.

(** *** Arrays and the two draw routines *)

Lemma array_get_nil (A : Type) (k : num) : array_get (@nil A) k = None.
Proof.
  unfold array_get. destruct (array_index k) as [[|n]|]; reflexivity.
Qed.

Lemma array_get_beyond (A : Type) (a : list A) (k : num) (pos : nat) :
  array_index k = Some pos -> (length a <= pos)%nat -> array_get a k = None.
Proof.
  intros Hk Hlen. unfold array_get. rewrite Hk.
  now apply nth_error_None.
Qed.

Lemma array_get_no_index (A : Type) (a : list A) (k : num) :
  array_index k = None -> array_get a k = None.
Proof.
  intros Hk. unfold array_get. now rewrite Hk.
Qed.

(** The kit's [D] computes the placement that the app's cover block
    computes, at the index the app's expression gives for the same
    percentage. *)
Lemma D_unfold (S : list (Frame num)) (c : Canvas num) (p : num) :
  HtmlKit.D S c p =
  match array_get S (frameIndex S p) with
  | None => Some c
  | Some m =>
      if has2d c then
        Some (draw c [clearRect $0 $0 $(width c) $(height c);
                      drawImage m (offsetX (cover m c)) (offsetY (cover m c))
                                (drawWidth (cover m c)) (drawHeight (cover m c))])
      else None
  end.
Proof.
  unfold HtmlKit.D, frameIndex, cover.
  destruct (array_get S _) as [m|]; [|reflexivity].
  destruct (_ > _); reflexivity.
Qed.

(** *** Runs of the sampler *)

Section Sampler.

Variable N : nat.

Lemma run_app (st : Preview num) (xs ys : list (Event num)) :
  run N st (xs ++ ys) = run N (run N st xs) ys.
Proof. apply fold_left_app. Qed.

Lemma run_cons (st : Preview num) (ev : Event num) (evs : list (Event num)) :
  run N st (ev :: evs) = run N (step N st ev) evs.
Proof. reflexivity. Qed.

Variables (d : num) (w h : nat).

Local Abbreviation sampled blank st := (Sampled N d w h blank st).

Lemma Sampled_ext (blank : bool) (st st' : Preview num) :
  framesRef st' = framesRef st ->
  loadingProgress st' = loadingProgress st ->
  task st' = task st ->
  isReady st' = isReady st ->
  currentTime st' = currentTime st ->
  sampled blank st -> sampled blank st'.
Proof.
  intros Ef Ep Et Er Ec [Hf Hp Hb Ht].
  constructor; rewrite ?Ef, ?Ep, ?Et, ?Er, ?Ec; assumption.
Qed.

Lemma iteration_sampled (blank : bool) (i : nat) (st : Preview num) :
  (forall j f, nth_error (framesRef st) j = Some f ->
      fwidth f = w /\ fheight f = h /\
      (still f = Some ((d / $N) * $j) \/ (blank = true /\ still f = None))) ->
  loadingProgress st =
    map (fun i => Math_floor (($i / $N) * $100)) (seq 0 (length (framesRef st))) ->
  length (framesRef st) = i -> (i <= N)%nat -> isReady st = false ->
  sampled blank (iteration N i d w h st).
Proof.
  intros Hf Hp Hlen Hle Hr. unfold iteration.
  destruct (Nat.ltb_spec i N) as [Hlt|Hge].
  - destruct (isActive st); cbn [negb].
    + destruct (isFinite _) eqn:Fin.
      * constructor; cbn; auto. lia. repeat split; auto.
      * constructor; cbn; auto. lia. congruence.
    + constructor; cbn; auto. lia. congruence.
  - constructor; cbn; auto. lia. intros _. lia.
Qed.

Lemma step_sampled (blank : bool) (st : Preview num) (ev : Event num) :
  (blank = true \/ ev <> seeked NoContext) ->
  sampled blank st -> sampled blank (step N st ev).
Proof.
  intros Hev HS.
  destruct ev as [d' vw vh|c| | |container|window container|p]; cbn [step].
  - destruct (task st) eqn:T; try exact HS.
    destruct HS as [_ _ _ Ht]. rewrite T in Ht. contradiction.
  - destruct (task st) as [|i d' w' h'| |] eqn:T; try exact HS.
    destruct HS as [Hf Hp Hb Ht]. rewrite T in Ht.
    destruct Ht as (-> & -> & -> & Hlen & Hlt & Hr & Hct).
    assert (Hpush : forall f,
               fwidth f = w -> fheight f = h ->
               (still f = Some ((d / $N) * $i) \/ (blank = true /\ still f = None)) ->
               sampled blank
                 (iteration N (S i) d w h
                    (captured f (Math_floor (($i / $N) * $100)) st))).
    { intros f Fw Fh Fs. apply iteration_sampled; cbn [framesRef loadingProgress isReady captured].
      - intros j g Hj.
        destruct (Nat.lt_ge_cases j (length (framesRef st))) as [L|L].
        + rewrite nth_error_app1 in Hj by exact L. now apply Hf.
        + rewrite nth_error_app2 in Hj by exact L.
          destruct (j - length (framesRef st))%nat as [|k] eqn:K.
          * cbn in Hj. injection Hj as <-. replace j with i by lia. auto.
          * cbn in Hj. destruct k; discriminate.
      - rewrite length_app. cbn [length]. rewrite Nat.add_1_r, seq_S, map_app.
        cbn [map]. rewrite Hp, Hlen. reflexivity.
      - rewrite length_app. cbn. lia.
      - lia.
      - exact Hr. }
    unfold onSeeked. destruct c.
    + apply Hpush; cbn; auto. left. now rewrite Hct.
    + apply Hpush; cbn; auto. right. split; [|reflexivity].
      destruct Hev as [E|E]; [exact E|congruence].
    + constructor; cbn; auto.
  - exact HS.
  - apply (Sampled_ext (st := st)); auto.
  - apply (Sampled_ext (st := st)); auto;
      cbn [isReady set_layout]; destruct (isReady st) eqn:R; cbn; rewrite ?R; reflexivity.
  - apply (Sampled_ext (st := st)); auto;
      cbn [isReady set_layout]; destruct (isReady st) eqn:R; cbn; rewrite ?R; reflexivity.
  - exact HS.
Qed.

Lemma run_sampled (blank : bool) (evs : list (Event num)) (st : Preview num) :
  (blank = true \/ ~ In (seeked NoContext) evs) ->
  sampled blank st -> sampled blank (run N st evs).
Proof.
  revert st. induction evs as [|ev evs IH]; intros st Hev HS; [exact HS|].
  rewrite run_cons. apply IH.
  - destruct Hev as [E|E]; [now left|right]. intros I. apply E. now right.
  - apply step_sampled; [|exact HS].
    destruct Hev as [E|E]; [now left|right]. intros ->. apply E. now left.
Qed.

Lemma start_sampled (blank : bool) (st : Preview num) :
  Fresh st -> sampled blank (step N st (loadedmetadata d w h)).
Proof.
  intros (T & F & P & R & _). cbn [step]. rewrite T.
  apply iteration_sampled; cbn [framesRef loadingProgress isReady set_canvas];
    rewrite ?F, ?P; cbn; auto; try lia.
  intros [|j] f Hj; discriminate Hj.
Qed.

Lemma sampled_frames (st : Preview num) :
  sampled false st -> isReady st = true ->
  framesRef st =
    map (fun i => {| fwidth := w; fheight := h; still := Some ((d / $N) * $i) |})
        (seq 0 N).
Proof.
  intros [Hf _ _ Ht] R.
  assert (Hlen : length (framesRef st) = N).
  { destruct (task st) as [|i d' w' h'| |].
    - contradiction.
    - destruct Ht as (_ & _ & _ & _ & _ & R' & _). congruence.
    - congruence.
    - now apply Ht. }
  apply nth_error_ext. intros j.
  destruct (nth_error (framesRef st) j) as [f|] eqn:E.
  - assert (Hj : (j < N)%nat) by (rewrite <- Hlen; apply nth_error_Some; congruence).
    destruct (Hf j f E) as (Fw & Fh & [Fs|[C _]]); [|discriminate C].
    symmetry. rewrite nth_error_map, nth_error_seq.
    destruct (Nat.ltb_spec j N); [|lia]. cbn.
    destruct f; cbn in *; subst; reflexivity.
  - apply nth_error_None in E. symmetry. apply nth_error_None.
    rewrite length_map, length_seq. lia.
Qed.

(** A run in which every seek completes and every picture is drawn. *)
Hypothesis finite_times : forall i, (i < N)%nat -> isFinite ((d / $N) * $i) = true.

Lemma completes_from (m : nat) : forall (i : nat) (st : Preview num),
  task st = AwaitSeeked i d w h -> isActive st = true -> (i + S m = N)%nat ->
  isReady (run N st (repeat (seeked Drawn) (S m))) = true.
Proof.
  induction m as [|m IH]; intros i st T A E.
  - cbn [repeat run fold_left step]. rewrite T. cbn [onSeeked].
    unfold iteration. destruct (Nat.ltb_spec (S i) N); [lia|]. reflexivity.
  - change (repeat (seeked Drawn) (S (S m)))
      with (@seeked num Drawn :: repeat (seeked Drawn) (S m)).
    rewrite run_cons. apply (IH (S i)); [| |lia].
    + cbn [step]. rewrite T. cbn [onSeeked]. unfold iteration.
      destruct (Nat.ltb_spec (S i) N); [|lia].
      cbn [isActive captured]. rewrite A. cbn [negb].
      rewrite finite_times by lia. reflexivity.
    + cbn [step]. rewrite T. cbn [onSeeked]. unfold iteration.
      destruct (Nat.ltb_spec (S i) N); [|lia].
      cbn [isActive captured]. rewrite A. cbn [negb].
      rewrite finite_times by lia. cbn. exact A.
Qed.

Lemma completes (st : Preview num) :
  Fresh st -> isActive st = true -> (1 <= N)%nat ->
  isReady (run N st (loadedmetadata d w h :: repeat (seeked Drawn) N)) = true.
Proof.
  intros (T & _) A HN. rewrite run_cons.
  assert (E0 : step N st (loadedmetadata d w h)
               = seek ((d / $N) * $0) 0 d w h
                   (set_canvas
                      match canvasRef st with
                      | Some canvas => Some (fit_window canvas (window st))
                      | None => None
                      end st)).
  { cbn [step]. rewrite T. unfold iteration.
    destruct (Nat.ltb_spec 0 N); [|lia].
    cbn [isActive set_canvas]. rewrite A. cbn [negb].
    rewrite finite_times by lia. reflexivity. }
  rewrite E0.
  replace (repeat (@seeked num Drawn) N)
    with (repeat (@seeked num Drawn) (S (N - 1))) by (f_equal; lia).
  apply (@completes_from (N - 1) 0); [reflexivity|exact A|lia].
Qed.

End Sampler.

(** *** Cancellation, the kit's sampler, failures *)

Section Cancellation.

Variable N : nat.

(** One capture is still to come exactly when a seek is in flight. *)
Local Abbreviation pending st :=
  (match task st with AwaitSeeked _ _ _ _ => 1%nat | _ => 0%nat end).

(** The loop counter equals the number of frames stored. *)
Local Abbreviation positioned st :=
  (match task st with
   | AwaitSeeked i _ _ _ => length (framesRef st) = i
   | AwaitMetadata => framesRef st = []
   | _ => True
   end).

Lemma iteration_cases (i : nat) (d : num) (w h : nat) (st : Preview num) :
  (task (iteration N i d w h st) = Returned
   \/ (task (iteration N i d w h st) = AwaitSeeked i d w h
       /\ isActive st = true /\ (i < N)%nat))
  /\ framesRef (iteration N i d w h st) = framesRef st
  /\ loadingProgress (iteration N i d w h st) = loadingProgress st
  /\ isActive (iteration N i d w h st) = isActive st
  /\ (isReady (iteration N i d w h st) = isReady st
      \/ (isReady (iteration N i d w h st) = true /\ (N <= i)%nat)).
Proof.
  unfold iteration. destruct (Nat.ltb_spec i N).
  - destruct (isActive st) eqn:A; cbn [negb].
    + destruct (isFinite _); cbn; auto 10.
    + cbn. auto 10.
  - cbn. auto 10.
Qed.

Lemma positioned_step (st : Preview num) (ev : Event num) :
  positioned st -> positioned (step N st ev).
Proof.
  intros P.
  destruct ev as [d vw vh|c| | |container|window container|p]; cbn [step].
  - destruct (task st) eqn:T; rewrite ?T; try exact P.
    match goal with |- context [iteration N 0 d vw vh ?s] =>
      destruct (iteration_cases 0 d vw vh s) as ([E|(E & _)] & F & _) end;
      rewrite E; auto. rewrite F. cbn. now rewrite P.
  - destruct (task st) as [|i d w h| |] eqn:T; rewrite ?T; try exact P.
    destruct c; cbn [onSeeked]; [| |cbn; exact I];
    match goal with |- context [iteration N (S i) d w h ?s] =>
      destruct (iteration_cases (S i) d w h s) as ([E|(E & _)] & F & _) end;
      rewrite E; auto; rewrite F; cbn; rewrite length_app; cbn; lia.
  - exact P.
  - exact P.
  - cbn [isReady set_layout]. destruct (isReady st); exact P.
  - cbn [isReady set_layout]. destruct (isReady st); exact P.
  - exact P.
Qed.

Lemma positioned_run (evs : list (Event num)) (st : Preview num) :
  positioned st -> positioned (run N st evs).
Proof.
  revert st. induction evs as [|ev evs IH]; intros st P; [exact P|].
  cbn [run fold_left]. apply IH. now apply positioned_step.
Qed.

Lemma inactive_step (st : Preview num) (ev : Event num) :
  isActive st = false ->
  isActive (step N st ev) = false
  /\ (length (framesRef (step N st ev)) + pending (step N st ev)
      <= length (framesRef st) + pending st)%nat.
Proof.
  intros A.
  destruct ev as [d vw vh|c| | |container|window container|p]; cbn [step].
  - destruct (task st) eqn:T; rewrite ?T; try (split; [exact A|lia]).
    match goal with |- context [iteration N 0 d vw vh ?s] =>
      destruct (iteration_cases 0 d vw vh s) as ([E|(E & A' & _)] & F & _ & A2 & _) end.
    + rewrite E, F, A2. cbn. auto.
    + cbn in A'. congruence.
  - destruct (task st) as [|i d w h| |] eqn:T; rewrite ?T; try (split; [exact A|lia]).
    destruct c; cbn [onSeeked]; [| |cbn; split; [exact A|lia]];
    match goal with |- context [iteration N (S i) d w h ?s] =>
      destruct (iteration_cases (S i) d w h s) as ([E|(E & A' & _)] & F & _ & A2 & _) end;
      try (cbn in A'; congruence);
      rewrite E, F, A2; cbn; rewrite length_app; cbn; (split; [exact A|lia]).
  - split; [exact A|lia].
  - cbn. split; [reflexivity|lia].
  - cbn [isReady set_layout]. destruct (isReady st); cbn; split; (exact A || lia).
  - cbn [isReady set_layout]. destruct (isReady st); cbn; split; (exact A || lia).
  - split; [exact A|lia].
Qed.

Lemma inactive_run (evs : list (Event num)) (st : Preview num) :
  isActive st = false ->
  (length (framesRef (run N st evs)) <= length (framesRef st) + pending st)%nat.
Proof.
  revert st. induction evs as [|ev evs IH]; intros st A; cbn [run fold_left].
  - lia.
  - destruct (@inactive_step st ev A) as [A' L].
    specialize (IH _ A'). unfold run in IH. lia.
Qed.

Lemma inactive_never_ready_step (st : Preview num) (ev : Event num) :
  isActive st = false -> isReady st = false -> positioned st ->
  (length (framesRef st) + pending st < N)%nat ->
  isReady (step N st ev) = false.
Proof.
  intros A R P L.
  destruct ev as [d vw vh|c| | |container|window container|p]; cbn [step]; auto.
  - destruct (task st) eqn:T; auto.
    match goal with |- context [iteration N 0 d vw vh ?s] =>
      destruct (iteration_cases 0 d vw vh s) as (_ & _ & _ & _ & [E|(_ & E)]) end.
    + rewrite E. exact R.
    + lia.
  - destruct (task st) as [|i d w h| |] eqn:T; auto.
    destruct c; cbn [onSeeked]; [| |exact R];
    match goal with |- context [iteration N (S i) d w h ?s] =>
      destruct (iteration_cases (S i) d w h s) as (_ & _ & _ & _ & [E|(_ & E)]) end;
      try (rewrite E; exact R); lia.
  - cbn [isReady set_layout]. rewrite R. exact R.
  - cbn [isReady set_layout]. rewrite R. exact R.
Qed.

Lemma inactive_never_ready (evs : list (Event num)) (st : Preview num) :
  isActive st = false -> isReady st = false -> positioned st ->
  (length (framesRef st) + pending st < N)%nat ->
  isReady (run N st evs) = false.
Proof.
  revert st. induction evs as [|ev evs IH]; intros st A R P L; cbn [run fold_left].
  - exact R.
  - destruct (@inactive_step st ev A) as [A' L'].
    apply IH; auto.
    + now apply inactive_never_ready_step.
    + now apply positioned_step.
    + lia.
Qed.

End Cancellation.

Section KitAgreement.

Variable N : nat.

(** The kit's sampler and the app's sampler are at the same point. *)
Local Abbreviation agree k st :=
  (HtmlKit.S k = framesRef st /\ HtmlKit.kit_task k = task st
   /\ HtmlKit.v_currentTime k = currentTime st /\ isActive st = true).

Lemma iteration_agree (i : nat) (d : num) (w h : nat)
    (k : HtmlKit.Kit num) (st : Preview num) :
  HtmlKit.S k = framesRef st -> HtmlKit.v_currentTime k = currentTime st ->
  isActive st = true ->
  agree (HtmlKit.kit_iteration N i d w h k) (iteration N i d w h st).
Proof.
  intros ES EC A. unfold HtmlKit.kit_iteration, iteration.
  destruct (Nat.ltb_spec i N).
  - rewrite A. cbn [negb]. destruct (isFinite _); cbn; auto.
  - unfold HtmlKit.kit_finish.
    destruct (HtmlKit.R _ _ _) as [c' [|]]; cbn; auto.
Qed.

Lemma agree_step (k : HtmlKit.Kit num) (st : Preview num) (ev : Event num) :
  ev <> cleanup -> ev <> seeked NoContext ->
  agree k st -> agree (HtmlKit.kit_step N k ev) (step N st ev).
Proof.
  intros NC NN (ES & ET & EC & A).
  assert (AG : agree k st) by auto.
  destruct ev as [d vw vh|c| | |container|window container|p];
    cbn [step HtmlKit.kit_step].
  - rewrite ET. destruct (task st) eqn:T; try (repeat split; congruence).
    apply iteration_agree; cbn; auto.
  - rewrite ET. destruct (task st) as [|i d w h| |] eqn:T; try (repeat split; congruence).
    destruct c; cbn [onSeeked HtmlKit.kit_onSeeked].
    + apply iteration_agree; cbn; auto. now rewrite ES, EC.
    + congruence.
    + cbn. auto.
  - exact AG.
  - congruence.
  - unfold HtmlKit.kit_draw. cbn [isReady set_layout].
    destruct (HtmlKit.D _ _ _); destruct (isReady st); cbn; auto.
  - cbn [isReady set_layout]. destruct (isReady st); cbn; auto.
  - unfold HtmlKit.kit_draw. destruct (HtmlKit.D _ _ _); cbn; auto.
Qed.

Lemma agree_run (evs : list (Event num)) (k : HtmlKit.Kit num) (st : Preview num) :
  ~ In cleanup evs -> ~ In (seeked NoContext) evs ->
  agree k st -> agree (HtmlKit.kit_run N k evs) (run N st evs).
Proof.
  revert k st. induction evs as [|ev evs IH]; intros k st NC NN AG; [exact AG|].
  cbn [run HtmlKit.kit_run fold_left]. apply IH.
  - intros I. apply NC. now right.
  - intros I. apply NN. now right.
  - apply agree_step; auto.
    + intros ->. apply NC. now left.
    + intros ->. apply NN. now left.
Qed.

End KitAgreement.

Section Failures.

Variable N : nat.

(** Without a [loadedmetadata] event the sampler stays where it started. *)
Lemma fresh_step (st : Preview num) (ev : Event num) :
  (forall d w h, ev <> loadedmetadata d w h) ->
  Fresh st -> Fresh (step N st ev).
Proof.
  intros NM (T & F & P & R & C).
  destruct ev as [d vw vh|c| | |container|window container|p]; cbn [step].
  - now destruct (NM d vw vh).
  - rewrite T. repeat split; assumption.
  - repeat split; assumption.
  - repeat split; assumption.
  - cbn [isReady set_layout]. rewrite R. repeat split; assumption.
  - cbn [isReady set_layout]. rewrite R. repeat split; assumption.
  - repeat split; assumption.
Qed.

Lemma fresh_run (evs : list (Event num)) (st : Preview num) :
  (forall d w h, ~ In (loadedmetadata d w h) evs) ->
  Fresh st -> Fresh (run N st evs).
Proof.
  revert st. induction evs as [|ev evs IH]; intros st NM F; [exact F|].
  cbn [run fold_left]. apply IH.
  - intros d w h I. apply (NM d w h). now right.
  - apply fresh_step; [|exact F]. intros d w h ->. apply (NM d w h). now left.
Qed.

End Failures.

Lemma mount_fresh (window : Window) (container : Container num) :
  Fresh (mount window container).
Proof. repeat split. Qed.

Lemma stalled_run (N : nat) (evs : list (Event num)) (st : Preview num) :
  task st = Stalled ->
  task (run N st evs) = Stalled
  /\ console (run N st evs) = console st
  /\ framesRef (run N st evs) = framesRef st
  /\ isReady (run N st evs) = isReady st.
Proof.
  revert st. induction evs as [|ev evs IH]; intros st T; [auto|].
  cbn [run fold_left].
  assert (E : task (step N st ev) = Stalled
              /\ console (step N st ev) = console st
              /\ framesRef (step N st ev) = framesRef st
              /\ isReady (step N st ev) = isReady st).
  { destruct ev; cbn [step]; rewrite ?T; auto;
      cbn [isReady set_layout]; destruct (isReady st) eqn:R; cbn; auto. }
  destruct E as (T' & C & F & R).
  destruct (IH _ T') as (T2 & C2 & F2 & R2). unfold run in *.
  rewrite T2, C2, F2, R2. auto.
Qed.

(** *** Claims *)

(** C10.  When the frame looked up for a draw request is [undefined]
    (empty frame set, index out of range, or an index that is no array
    index at all, as for the fraction 0/0), drawing does nothing: both
    [handleScroll] in the app and [D] in the exported kit return the canvas
    exactly as it was, no [clearRect] and no [drawImage] added. *)
Theorem draw_without_bitmap_is_noop
    (frames : list (Frame num)) (container : Container num)
    (canvas : Canvas num) (p : num) :
  array_get frames (frameIndex frames (scrollPercent container)) = None ->
  array_get frames (frameIndex frames p) = None ->
  handleScroll frames (Some container) (Some canvas) = Some canvas
  /\ HtmlKit.D frames canvas p = Some canvas.
Proof.
  intros Happ Hkit. split.
  - unfold handleScroll. now rewrite Happ.
  - rewrite D_unfold. now rewrite Hkit.
Qed.


(** C4 (amended).  The [isActive] flag is read in one place, at the head
    of each loop iteration, where a cleared flag makes the function return
    without seeking.  Hence, once [cleanup] has cleared the flag in a state
    with [k] frames stored, whatever happens next adds at most one frame
    (the capture of a seek that was in flight) and none when no seek was in
    flight; and when [k + 1] is below the frame count, [isReady] is never
    set. *)
Theorem cancelled_run_appends_at_most_one_frame
    (N : nat) (window : Window) (container : Container num)
    (pre post : list (Event num)) :
  let st := run N (mount window container) pre in
  let st' := run N (step N st cleanup) post in
  (forall i d w h s, isActive s = false -> (i < N)%nat ->
     iteration N i d w h s = set_task Returned s)
  /\ (length (framesRef st') <= length (framesRef st) + 1)%nat
  /\ ((forall i d w h, task st <> AwaitSeeked i d w h) ->
      (length (framesRef st') <= length (framesRef st))%nat)
  /\ (isReady st = false -> (length (framesRef st) + 1 < N)%nat ->
      isReady st' = false).
Proof.
  intros st st'.
  assert (A : isActive (step N st cleanup) = false) by reflexivity.
  pose proof (@inactive_run N post _ A) as L.
  change (framesRef (step N st cleanup)) with (framesRef st) in L.
  change (task (step N st cleanup)) with (task st) in L.
  fold st' in L.
  split.
  { intros i d w h s As Hi. unfold iteration.
    destruct (Nat.ltb_spec i N); [|lia]. now rewrite As. }
  split.
  { destruct (task st); lia. }
  split.
  { intros NS. destruct (task st) as [|i d w h| |] eqn:T; try lia.
    now destruct (NS i d w h). }
  intros R Hk. apply inactive_never_ready; auto.
  - change (task (step N st cleanup)) with (task st).
    change (framesRef (step N st cleanup)) with (framesRef st).
    apply (@positioned_run N pre (mount window container)). reflexivity.
  - change (task (step N st cleanup)) with (task st).
    change (framesRef (step N st cleanup)) with (framesRef st).
    destruct (task st); lia.
Qed.

(** C6 (the code at the failing input).  A video that fails to load fires
    [error] and never [loadedmetadata]: whatever else happens afterwards,
    [extractFrames] is still waiting for the metadata, nothing has been
    passed to [console.error], and [isReady] is false. *)
Theorem load_failure_is_never_logged
    (N : nat) (window : Window) (container : Container num)
    (post : list (Event num)) :
  (forall d w h, ~ In (loadedmetadata d w h) post) ->
  let st := run N (mount window container) (error :: post) in
  task st = AwaitMetadata /\ console st = [] /\ isReady st = false
  /\ framesRef st = [].
Proof.
  intros NM st.
  assert (F : Fresh st).
  { unfold st. rewrite run_cons. apply fresh_run; [exact NM|].
    apply mount_fresh. }
  destruct F as (T & F & _ & R & C). auto.
Qed.

(** An exception thrown by [drawImage] inside the [seeked] listener leaves
    the promise unresolved: the run is stuck, and the [catch] clause, hence
    [console.error], is never reached. *)
Lemma capture_exception_stalls_unlogged
    (N : nat) (st : Preview num) (i : nat) (d : num) (w h : nat)
    (post : list (Event num)) :
  task st = AwaitSeeked i d w h ->
  let st' := run N (step N st (seeked Throws)) post in
  task st' = Stalled /\ console st' = console st
  /\ framesRef st' = framesRef st /\ isReady st' = isReady st.
Proof.
  intros T st'.
  assert (E : step N st (seeked Throws) = set_task Stalled st).
  { cbn [step]. now rewrite T. }
  unfold st'. rewrite E. apply (@stalled_run N post (set_task Stalled st)).
  reflexivity.
Qed.

End AnyNumbers.

(* ================================================================== *)
(** ** The claims on sampling, under every interpretation of numbers *)

Section SamplingClaims.

Context {num : Type} `{JSNumber num}.
Local Open Scope js_scope.

(** A check made for every position below a bound. *)
Lemma forallb_below (f : nat -> bool) (n : nat) :
  forallb f (seq 0 n) = true -> forall i, (i < n)%nat -> f i = true.
Proof.
  intros F i Hi. rewrite forallb_forall in F. apply F, in_seq. lia.
Qed.

(** C1 (amended).  For a frame count [N >= 1] and a video of duration [d]
    such that every time sought, [(d / N) * i] with [i < N], is a finite
    number: the run in which the metadata arrives and every seek completes
    with its picture drawn sets [isReady], and then [framesRef.current]
    holds exactly [N] canvases of the video's size, the one at position
    [i] holding the picture at the time the loop sought for it, which is
    the value of [(duration / FRAME_COUNT) * i] in the arithmetic of the
    program; in every run whose captures all had a context, [isReady] is
    set only with exactly these frames stored; and the kit's [S] holds the
    same frames after the same run. *)
Theorem sampling_completes
    (N : nat) (d : num) (w h : nat) (window : Window) (container : Container num)
    (rest : list (Event num)) :
  (1 <= N)%nat ->
  (forall i, (i < N)%nat -> isFinite ((d / $N) * $i) = true) ->
  ~ In (seeked NoContext) rest ->
  let expected :=
    map (fun i => {| fwidth := w; fheight := h;
                     still := Some ((d / $N) * $i) |}) (seq 0 N) in
  let complete :=
    run N (mount window container)
        (loadedmetadata d w h :: repeat (seeked Drawn) N) in
  let st := run N (mount window container) (loadedmetadata d w h :: rest) in
  let kit :=
    HtmlKit.kit_run N (HtmlKit.kit_open window container)
        (loadedmetadata d w h :: repeat (seeked Drawn) N) in
  isReady complete = true /\ framesRef complete = expected
  /\ length expected = N
  /\ (isReady st = true -> framesRef st = expected)
  /\ HtmlKit.S kit = expected.
Proof.
  intros HN Hfin Hrest expected complete st kit.
  assert (Hexp : forall evs,
             ~ In (seeked NoContext) evs ->
             isReady (run N (mount window container)
                          (loadedmetadata d w h :: evs)) = true ->
             framesRef (run N (mount window container)
                            (loadedmetadata d w h :: evs)) = expected).
  { intros evs NI R. rewrite run_cons in *.
    apply (@sampled_frames _ _ N d w h _); [|exact R].
    apply run_sampled; [now right|]. apply start_sampled, mount_fresh. }
  assert (Hready : isReady complete = true).
  { apply completes; [exact Hfin|apply mount_fresh|reflexivity|exact HN]. }
  split; [exact Hready|].
  assert (Hframes : framesRef complete = expected).
  { apply Hexp; [|exact Hready]. intros I. apply repeat_spec in I. discriminate. }
  split; [exact Hframes|].
  split.
  { unfold expected. now rewrite length_map, length_seq. }
  split; [intros R; now apply Hexp|].
  assert (AG : HtmlKit.S kit = framesRef complete
               /\ HtmlKit.kit_task kit = task complete).
  { destruct (@agree_run _ _ N
                (loadedmetadata d w h :: repeat (seeked Drawn) N)
                (HtmlKit.kit_open window container) (mount window container))
      as (ES & ET & _).
    - intros [E|I]; [discriminate E|]. apply repeat_spec in I. discriminate I.
    - intros [E|I]; [discriminate E|]. apply repeat_spec in I. discriminate I.
    - repeat split.
    - split; assumption. }
  destruct AG as [ES ET]. now rewrite ES.
Qed.

(** What every run has emitted: one value per stored frame, computed from
    the position of the frame. *)
Lemma progress_of_run
    (N : nat) (d : num) (w h : nat) (window : Window) (container : Container num)
    (rest : list (Event num)) :
  let st := run N (mount window container) (loadedmetadata d w h :: rest) in
  loadingProgress st =
    map (fun i => Math_floor (($i / $N) * $100)) (seq 0 (length (framesRef st)))
  /\ length (loadingProgress st) = length (framesRef st)
  /\ (length (framesRef st) <= N)%nat.
Proof.
  intros st.
  assert (HS : Sampled N d w h true st).
  { unfold st. rewrite run_cons. apply run_sampled; [now left|].
    apply start_sampled, mount_fresh. }
  destruct HS as [_ Hp Hb _].
  split; [exact Hp|]. split; [|exact Hb].
  rewrite Hp. now rewrite length_map, length_seq.
Qed.

(** The kit's [D] and the preview's [handleScroll] on the same frames and
    the same canvas, for a fraction that the preview's clamp returns as it
    is. *)
Lemma same_draw (frames : list (Frame num)) (canvas : Canvas num)
    (container : Container num) :
  scrollPercent container
  = scrollTop container / ($(scrollHeight container) - $(clientHeight container)) ->
  has2d canvas = true
  \/ array_get frames (frameIndex frames (scrollPercent container)) = None ->
  HtmlKit.D frames canvas
    (scrollTop container / ($(scrollHeight container) - $(clientHeight container)))
  = handleScroll frames (Some container) (Some canvas).
Proof.
  intros E C. rewrite D_unfold, <- E. unfold handleScroll.
  destruct (array_get frames _) as [frame|]; [|reflexivity].
  destruct C as [C|C]; [|discriminate C]. now rewrite C.
Qed.

(** C5 (amended).  In every run without cancellation and without a
    missing capture context, the kit has stored the same frames as the
    preview (same count, same sizes, same capture times).  The kit's [D]
    and the preview's [handleScroll], given the same frames, the same
    canvas with a 2d context and a scroll fraction that the preview's
    clamp returns unchanged, produce the same canvas: the same frame
    chosen, the same clear and the same cover placement.  Hence, from a
    state in which the preview is ready and the two pages hold the same
    frames and canvases of the same size, each with a 2d context, a
    scroll event with such a fraction makes both pages perform the same
    drawing operations, so that canvases that were equal before are
    equal after.  (The runs need not lead to equal canvases: when
    sampling ends the preview draws the frame at the current scroll
    position and the kit the first frame.) *)
Theorem kit_agrees_with_preview
    (N : nat) (window : Window) (container : Container num)
    (evs : list (Event num))
    (st : Preview num) (k : HtmlKit.Kit num) (canvas : Canvas num)
    (c0 scrolled : Container num) :
  ~ In cleanup evs -> ~ In (seeked NoContext) evs ->
  isReady st = true -> containerRef st = Some c0 ->
  canvasRef st = Some canvas -> HtmlKit.S k = framesRef st ->
  width (HtmlKit.c k) = width canvas -> height (HtmlKit.c k) = height canvas ->
  has2d canvas = true -> has2d (HtmlKit.c k) = true ->
  scrollPercent scrolled
  = scrollTop scrolled / ($(scrollHeight scrolled) - $(clientHeight scrolled)) ->
  HtmlKit.S (HtmlKit.kit_run N (HtmlKit.kit_open window container) evs)
    = framesRef (run N (mount window container) evs)
  /\ (forall (frames : list (Frame num)) (cv : Canvas num),
        has2d cv = true ->
        HtmlKit.D frames cv
          (scrollTop scrolled
           / ($(scrollHeight scrolled) - $(clientHeight scrolled)))
        = handleScroll frames (Some scrolled) (Some cv))
  /\ (exists ops : list (Paint num),
        canvasRef (step N st (scroll scrolled)) = Some (draw canvas ops)
        /\ HtmlKit.c (HtmlKit.kit_step N k (scroll scrolled))
           = draw (HtmlKit.c k) ops)
  /\ (HtmlKit.c k = canvas ->
      canvasRef (step N st (scroll scrolled))
      = Some (HtmlKit.c (HtmlKit.kit_step N k (scroll scrolled)))).
Proof.
  intros NC NN R Hc0 Hcanvas HkS HW HH Cp Ck Hclamp. split.
  { apply (@agree_run _ _ N evs (HtmlKit.kit_open window container)
             (mount window container)); auto; repeat split. }
  split.
  { intros frames cv C. apply same_draw; [exact Hclamp|now left]. }
  assert (Hdraw : forall cv : Canvas num, draw cv [] = cv).
  { intros [cw chh c2 cp]. unfold draw. cbn. now rewrite app_nil_r. }
  assert (Hops : exists ops : list (Paint num),
             canvasRef (step N st (scroll scrolled)) = Some (draw canvas ops)
             /\ HtmlKit.c (HtmlKit.kit_step N k (scroll scrolled))
                = draw (HtmlKit.c k) ops).
  { cbn [step HtmlKit.kit_step]. cbn [isReady set_layout]. rewrite R.
    cbn [canvasRef set_canvas framesRef containerRef set_layout].
    rewrite Hc0, Hcanvas.
    unfold HtmlKit.kit_draw.
    cbn [HtmlKit.S HtmlKit.c HtmlKit.kit_set_layout].
    rewrite HkS, D_unfold. unfold handleScroll. rewrite Hclamp.
    destruct (array_get (framesRef st) _) as [frame|].
    - rewrite Cp, Ck. cbn [HtmlKit.c HtmlKit.kit_set_canvas].
      assert (EC : cover frame (HtmlKit.c k) = cover frame canvas).
      { unfold cover. now rewrite HW, HH. }
      rewrite EC, HW, HH. eexists. split; reflexivity.
    - cbn [HtmlKit.c HtmlKit.kit_set_canvas HtmlKit.kit_set_layout].
      exists []. now rewrite !Hdraw. }
  split; [exact Hops|].
  intros E. destruct Hops as (ops & Ep & Ek). now rewrite Ep, Ek, E.
Qed.



End SamplingClaims.

(* ================================================================== *)
(** ** The claims on numbers, in the arithmetic of the program *)

(** The scrolled element in a window 900 pixels high, in the preview as
    in the kit: its content is [500vh] tall, five windows; it is scrolled
    by a whole number of pixels. *)
Local Abbreviation reference_page t :=
  ({| scrollTop := of_nat t; scrollHeight := 4500; clientHeight := 900 |}
   : Container Binary64.num).

(** The values emitted for a hundred frames, as natural numbers. *)
Local Abbreviation emitted100 i :=
  (if (i =? 29) || (i =? 57) || (i =? 58) then i - 1 else i)%nat.

(** C7 (amended).  In every run, one progress value has been emitted per
    stored frame, the one emitted with frame [i] being the value of
    [Math.floor((i / FRAME_COUNT) * 100)] in the arithmetic of the program,
    and no more than [FRAME_COUNT] frames are stored.  With binary64
    numbers and the frame count 100 of the preview, the hundred values are
    the integers [i], except 28, 56 and 57 for [i] = 29, 57 and 58, where
    [(i / 100) * 100] is rounded to a number below [i]; so they lie
    between 0 and 99 and never decrease, and 28 and 56 are emitted
    twice. *)
Theorem progress_emitted :
  (forall (num : Type) (J : JSNumber num) (N : nat) (d : num) (w h : nat)
          (window : Window) (container : Container num)
          (rest : list (Event num)),
     let st := run N (mount window container) (loadedmetadata d w h :: rest) in
     loadingProgress st =
       map (fun i => Math_floor (nmul (ndiv (of_nat i) (of_nat N)) (of_nat 100)))
           (seq 0 (length (framesRef st)))
     /\ length (loadingProgress st) = length (framesRef st)
     /\ (length (framesRef st) <= N)%nat)
  /\ map (fun i => Math_floor (nmul (ndiv (of_nat i) (of_nat 100)) (of_nat 100))
                   : Binary64.num) (seq 0 100)
     = map (fun i => of_nat (emitted100 i)) (seq 0 100)
  /\ (forall i j, (i <= j)%nat -> (j < 100)%nat ->
        (emitted100 i <= emitted100 j)%nat /\ (emitted100 j <= 99)%nat)
  /\ emitted100 28 = emitted100 29 /\ emitted100 56 = emitted100 57.
Proof.
  split.
  { intros num J N d w h window container rest.
    apply (@progress_of_run num J N d w h window container rest). }
  split; [vm_compute; reflexivity|].
  split; [|split; reflexivity].
  intros i j Hij Hj.
  destruct (Nat.eqb_spec i 29), (Nat.eqb_spec i 57), (Nat.eqb_spec i 58),
    (Nat.eqb_spec j 29), (Nat.eqb_spec j 57), (Nat.eqb_spec j 58);
    cbn [orb]; lia.
Qed.


(* ================================================================== *)
(** ** The formulas over the rationals

    What the expressions of the program are worth when nothing is
    rounded.  Of the program itself these lemmas describe the runs in
    which binary64 computes the same values. *)

Section ExactArithmetic.

Import Exact.
Local Open Scope Q_scope.

Local Abbreviation clamp x := (Qmax 0 (Qmin 1 x)).

(** *** Arithmetic *)

Lemma natQ_pos (n : nat) : (0 < n)%nat -> 0 < natQ n.
Proof. intros Hn. unfold natQ, Qlt. simpl. lia. Qed.

Lemma natQ_sub (a b : nat) : (b <= a)%nat -> natQ a - natQ b == natQ (a - b).
Proof.
  intros L. unfold natQ. rewrite Nat2Z.inj_sub by exact L.
  unfold Qeq, Qminus, Qplus, Qopp, inject_Z. simpl. lia.
Qed.

Lemma natQ_le (a b : nat) : (a <= b)%nat -> natQ a <= natQ b.
Proof. intros L. unfold natQ, Qle. simpl. lia. Qed.

Lemma fin_eq (x y : Q) : x == y -> fin x = fin y.
Proof. intros E. unfold fin. f_equal. now apply Qred_complete. Qed.

Lemma Qeq_bool_false (x y : Q) : ~ x == y -> Qeq_bool x y = false.
Proof.
  intros E. destruct (Qeq_bool x y) eqn:B; [|reflexivity].
  apply Qeq_bool_eq in B. contradiction.
Qed.

Lemma div_fin (x y : Q) : ~ y == 0 -> div (Fin x) (Fin y) = fin (x / y).
Proof. intros Hy. unfold div. now rewrite Qeq_bool_false. Qed.

Lemma Qgtb_true (x y : Q) : Qgtb x y = true <-> y < x.
Proof.
  unfold Qgtb. rewrite negb_true_iff. split.
  - intros B. apply Qnot_le_lt. intros L. apply Qle_bool_iff in L. congruence.
  - intros L. destruct (Qle_bool x y) eqn:B; [|reflexivity].
    apply Qle_bool_iff in B. exfalso. apply (Qlt_not_le _ _ L B).
Qed.

Lemma Qgtb_false (x y : Q) : Qgtb x y = false <-> x <= y.
Proof.
  unfold Qgtb. rewrite negb_false_iff. apply Qle_bool_iff.
Qed.

Lemma clamp_cases (x : Q) :
  (x <= 0 /\ clamp x == 0) \/ (0 <= x <= 1 /\ clamp x == x)
  \/ (1 <= x /\ clamp x == 1).
Proof.
  destruct (Q.min_spec 1 x) as [[L E]|[L E]];
  destruct (Q.max_spec 0 (Qmin 1 x)) as [[L' E']|[L' E']];
  rewrite E in *; rewrite E'; lra.
Qed.

Lemma clamp_inside (x y : Q) : x == y -> 0 <= y <= 1 -> clamp x == y.
Proof.
  intros E B. destruct (clamp_cases x) as [[? Ea]|[[? Ea]|[? Ea]]]; rewrite Ea; lra.
Qed.

Lemma index_of_Z (z : Z) :
  (0 <= z)%Z -> Exact.index (of_Z z) = Some (Z.to_nat z).
Proof.
  intros Hz. unfold Exact.index, of_Z. rewrite Qfloor_Z.
  replace (Qle_bool 0 (inject_Z z)) with true.
  - rewrite (proj2 (Qeq_bool_iff _ _) (Qeq_refl _)). reflexivity.
  - symmetry. apply Qle_bool_iff. unfold Qle. simpl. lia.
Qed.

(** The time sought for frame [i] is [d * i / N]. *)
Lemma timestamp_exact (N i : nat) (d : Q) :
  (1 <= N)%nat ->
  nmul (ndiv (Fin d) (of_nat N)) (of_nat i) = fin (d * natQ i / natQ N).
Proof.
  intros HN. pose proof (natQ_pos HN) as PN.
  cbn [of_nat ndiv nmul number]. rewrite div_fin by lra.
  unfold fin at 1. cbn [mul]. apply fin_eq.
  rewrite Qred_correct. field. lra.
Qed.

(** The progress emitted with frame [i] is [floor (i / N * 100)]. *)
Lemma progress_exact (N i : nat) :
  (1 <= N)%nat ->
  Math_floor (nmul (ndiv (of_nat i) (of_nat N)) (@of_nat num _ 100))
  = of_Z (Qfloor (natQ i / natQ N * 100)).
Proof.
  intros HN. pose proof (natQ_pos HN) as PN.
  cbn [of_nat ndiv nmul Math_floor number]. rewrite div_fin by lra.
  unfold fin. cbn [mul]. unfold fin. cbn [floor]. f_equal.
  apply Qfloor_comp. rewrite !Qred_correct. reflexivity.
Qed.

(** *** The scrubber *)

Lemma scrollPercent_exact (t : Q) (sh ch : nat) :
  (ch < sh)%nat ->
  exists q, scrollPercent {| scrollTop := Fin t; scrollHeight := sh; clientHeight := ch |} = Fin q
            /\ q == clamp (t / (natQ sh - natQ ch)).
Proof.
  intros Hlt.
  assert (Hr : 0 < natQ sh - natQ ch).
  { rewrite natQ_sub by lia. unfold natQ, Qlt. simpl. lia. }
  unfold scrollPercent. cbn [scrollTop scrollHeight clientHeight].
  cbn [of_nat ndiv nsub Math_max Math_min number]. cbn [sub]. unfold fin.
  assert (Er : Qred (natQ sh - natQ ch) == natQ sh - natQ ch) by apply Qred_correct.
  set (r := Qred (natQ sh - natQ ch)) in *. clearbody r.
  rewrite div_fin by lra. unfold fin.
  assert (Ex : Qred (t / r) == t / (natQ sh - natQ ch)) by (rewrite Qred_correct, Er; reflexivity).
  set (x := Qred (t / r)) in *. clearbody x.
  set (f := t / (natQ sh - natQ ch)) in *. clearbody f.
  change (natQ 0) with 0. change (natQ 1) with 1.
  unfold min, max.
  destruct (clamp_cases f) as [[L E]|[[L E]|[L E]]];
    destruct (Qle_bool 1 x) eqn:B1;
    try (apply Qle_bool_iff in B1);
    try (apply not_true_iff_false in B1; rewrite Qle_bool_iff in B1);
    match goal with
    | |- context [Qle_bool ?a ?b] =>
        destruct (Qle_bool a b) eqn:B0;
        try (apply Qle_bool_iff in B0);
        try (apply not_true_iff_false in B0; rewrite Qle_bool_iff in B0)
    end;
    eexists; (split; [reflexivity|]); rewrite E; lra.
Qed.

Lemma frameIndex_exact (frames : list (Frame num)) (q : Q) :
  frameIndex frames (Fin q) = of_Z (Qfloor (q * (natQ (length frames) - 1))).
Proof.
  unfold frameIndex. cbn [of_nat nsub nmul Math_floor number].
  change (natQ 1) with 1.
  cbn [sub mul]. unfold fin. cbn [floor]. unfold of_Z. do 2 f_equal.
  apply Qfloor_comp. rewrite Qred_correct, Qred_correct. reflexivity.
Qed.


(** Between the ends of the scroll range the app's clamp changes nothing:
    [scrollPercent] is the plain quotient, which is what the kit's scroll
    listener passes to [D]. *)
Lemma scrollPercent_inside (t : Q) (sh ch : nat) :
  (ch < sh)%nat -> 0 <= t <= natQ sh - natQ ch ->
  scrollPercent {| scrollTop := Fin t; scrollHeight := sh; clientHeight := ch |}
  = ndiv (Fin t) (nsub (of_nat sh) (of_nat ch)).
Proof.
  intros Hlt [T0 T1].
  assert (Hr : 0 < natQ sh - natQ ch).
  { rewrite natQ_sub by lia. apply natQ_pos. lia. }
  unfold scrollPercent. cbn [scrollTop scrollHeight clientHeight].
  cbn [of_nat ndiv nsub Math_max Math_min number]. cbn [sub]. unfold fin.
  assert (Er : Qred (natQ sh - natQ ch) == natQ sh - natQ ch) by apply Qred_correct.
  set (r := Qred (natQ sh - natQ ch)) in *. clearbody r.
  rewrite div_fin by lra. unfold fin.
  assert (Ex : Qred (t / r) == t / r) by apply Qred_correct.
  assert (X0 : 0 <= t / r) by (apply Qle_shift_div_l; lra).
  assert (X1 : t / r <= 1) by (apply Qle_shift_div_r; lra).
  change (natQ 0) with 0. change (natQ 1) with 1. unfold min.
  destruct (Qle_bool 1 (Qred (t / r))) eqn:B1.
  - apply Qle_bool_iff in B1.
    assert (E1 : Qred (t / r) = 1).
    { change 1 with (Qred 1). apply Qred_complete. lra. }
    rewrite E1. reflexivity.
  - unfold max. replace (Qle_bool 0 (Qred (t / r))) with true; [reflexivity|].
    symmetry. apply Qle_bool_iff. lra.
Qed.

Lemma cover_exact (fw fh W H : nat) (still : option num) (ctx : bool) (ops : list (Paint num)) :
  (0 < fw)%nat -> (0 < fh)%nat -> (0 < W)%nat -> (0 < H)%nat ->
  let frame := {| fwidth := fw; fheight := fh; still := still |} in
  let canvas := {| width := W; height := H; has2d := ctx; paint := ops |} in
  exists dw dh ox oy : Q,
    cover frame canvas =
      {| drawWidth := Fin dw; drawHeight := Fin dh; offsetX := Fin ox; offsetY := Fin oy |}
    /\ natQ W <= dw /\ natQ H <= dh
    /\ dw / dh == natQ fw / natQ fh
    /\ ox + dw / 2 == natQ W / 2
    /\ oy + dh / 2 == natQ H / 2
    /\ (natQ fw / natQ fh < natQ W / natQ H ->
        dw = natQ W /\ ox = 0 /\ oy == (natQ H - dh) / 2).
Proof.
  intros Hfw Hfh HW HH frame canvas.
  pose proof (natQ_pos Hfw) as Pfw. pose proof (natQ_pos Hfh) as Pfh.
  pose proof (natQ_pos HW) as PW. pose proof (natQ_pos HH) as PH.
  assert (Nfh : ~ natQ fh == 0) by lra.
  assert (NH : ~ natQ H == 0) by lra.
  assert (Pa : 0 < natQ fw / natQ fh) by (apply Qlt_shift_div_l; lra).
  unfold cover. cbn [fwidth fheight width height frame canvas].
  cbn [of_nat ndiv nmul nsub ngt number].
  rewrite (div_fin _ Nfh), (div_fin _ NH).
  unfold fin at 1 2. cbn [gt].
  assert (N2 : ~ natQ 2 == 0) by (intros E; discriminate E).
  assert (Na : ~ Qred (natQ fw / natQ fh) == 0) by (rewrite Qred_correct; lra).
  set (a := natQ fw / natQ fh) in *.
  destruct (Qgtb _ _) eqn:B.
  - apply Qgtb_true in B. rewrite !Qred_correct in B.
    unfold fin. rewrite (div_fin _ Na). unfold fin. cbn [sub]. unfold fin.
    rewrite (div_fin _ N2). unfold fin.
    assert (HaW : a * natQ H < natQ W).
    { apply (Qmult_lt_r _ _ (natQ H)) in B; [|exact PH].
      setoid_replace (natQ W / natQ H * natQ H) with (natQ W) in B by (field; exact NH).
      exact B. }
    assert (Hdh : natQ H <= natQ W / a) by (apply Qle_shift_div_l; lra).
    assert (Edh : Qred (natQ W / Qred a) == natQ W / a)
      by (rewrite Qred_correct, (Qred_correct a); reflexivity).
    set (dh := Qred (natQ W / Qred a)) in *. clearbody dh.
    assert (Eoy : Qred (Qred (natQ H - dh) / natQ 2) == (natQ H - dh) / 2)
      by (rewrite Qred_correct, (Qred_correct (natQ H - dh)); reflexivity).
    set (oy := Qred (Qred (natQ H - dh) / natQ 2)) in *. clearbody oy.
    exists (natQ W), dh, (natQ 0), oy. split; [reflexivity|].
    change (natQ 0) with 0.
    split; [lra|]. split; [lra|].
    split. { rewrite Edh. unfold a. field. split; [|split]; lra. }
    split. { field. }
    split. { rewrite Eoy. field. }
    intros _. split; [reflexivity|]. split; [reflexivity|exact Eoy].
  - apply Qgtb_false in B. rewrite !Qred_correct in B.
    cbn [mul sub]. unfold fin. rewrite (div_fin _ N2). unfold fin.
    assert (HaW : natQ W <= a * natQ H).
    { apply (Qmult_le_r _ _ (natQ H)) in B; [|exact PH].
      setoid_replace (natQ W / natQ H * natQ H) with (natQ W) in B by (field; exact NH).
      exact B. }
    assert (Edw : Qred (natQ H * Qred a) == natQ H * a)
      by (rewrite Qred_correct, (Qred_correct a); reflexivity).
    set (dw := Qred (natQ H * Qred a)) in *. clearbody dw.
    assert (Eox : Qred (Qred (natQ W - dw) / natQ 2) == (natQ W - dw) / 2)
      by (rewrite Qred_correct, (Qred_correct (natQ W - dw)); reflexivity).
    set (ox := Qred (Qred (natQ W - dw) / natQ 2)) in *. clearbody ox.
    exists dw, (natQ H), ox, (natQ 0). split; [reflexivity|].
    change (natQ 0) with 0.
    split; [lra|]. split; [lra|].
    split. { rewrite Edw. field. exact NH. }
    split. { rewrite Eox. field. }
    split. { field. }
    intros C. exfalso. lra.
Qed.
(** *** The selected index

    Over the rationals the index chosen by [handleScroll] for at least one
    frame is [floor (clamp (t / range) * (L - 1))]; it lies in [0, L - 1]
    and names a frame; it does not decrease when the fraction grows; at
    fraction 0 it is 0, at fraction 1 it is [L - 1]; and for 100 frames at
    fraction 1/2 it is 49. *)
Lemma rational_index (frames : list (Frame num)) (t1 t2 : Q) (sh ch : nat) :
  (1 <= length frames)%nat -> (ch < sh)%nat -> t1 <= t2 ->
  let range := natQ sh - natQ ch in
  let index (t : Q) :=
    frameIndex frames
      (scrollPercent {| scrollTop := Fin t; scrollHeight := sh; clientHeight := ch |}) in
  let formula (t : Q) :=
    Qfloor (Qmax 0 (Qmin 1 (t / range)) * (natQ (length frames) - 1)) in
  index t1 = of_Z (formula t1)
  /\ index t2 = of_Z (formula t2)
  /\ (formula t1 <= formula t2)%Z
  /\ (0 <= formula t1 <= Z.of_nat (length frames) - 1)%Z
  /\ index 0 = of_Z 0
  /\ index range = of_Z (Z.of_nat (length frames) - 1)
  /\ (length frames = 100%nat -> t1 / range == 1 # 2 -> index t1 = of_Z 49)
  /\ exists frame, array_get frames (index t1) = Some frame.
Proof.
  intros HL Hlt Ht range index formula.
  assert (Hr : 0 < range).
  { unfold range. rewrite natQ_sub by lia. unfold natQ, Qlt. simpl. lia. }
  assert (Hindex : forall t, index t = of_Z (formula t)).
  { intros t. unfold index.
    destruct (scrollPercent_exact t Hlt) as (q & -> & Eq).
    rewrite frameIndex_exact. unfold formula. f_equal.
    apply Qfloor_comp. rewrite Eq. reflexivity. }
  assert (HL1 : natQ (length frames) - 1 == inject_Z (Z.of_nat (length frames) - 1)).
  { unfold natQ, Qeq, Qminus, Qplus, Qopp, inject_Z. simpl. lia. }
  assert (HL0 : 0 <= natQ (length frames) - 1).
  { rewrite HL1. unfold Qle. simpl. lia. }
  assert (Hmono : forall a b, a <= b -> clamp a <= clamp b).
  { intros a b Hab.
    destruct (clamp_cases a) as [[? Ea]|[[? Ea]|[? Ea]]];
    destruct (clamp_cases b) as [[? Eb]|[[? Eb]|[? Eb]]];
    rewrite Ea, Eb; lra. }
  assert (Hbounds : forall a, 0 <= clamp a <= 1).
  { intros a. destruct (clamp_cases a) as [[? Ea]|[[? Ea]|[? Ea]]]; rewrite Ea; lra. }
  assert (Hdiv : t1 / range <= t2 / range).
  { apply Qmult_le_compat_r; [exact Ht|]. apply Qlt_le_weak, Qinv_lt_0_compat, Hr. }
  assert (Hrange : (0 <= formula t1 <= Z.of_nat (length frames) - 1)%Z).
  { unfold formula.
    destruct (Hbounds (t1 / range)) as [B0 B1].
    set (c := clamp (t1 / range)) in *. clearbody c.
    split.
    - change 0%Z with (Qfloor 0). apply Qfloor_resp_le.
      apply Qmult_le_0_compat; assumption.
    - rewrite <- (Qfloor_Z (Z.of_nat (length frames) - 1)).
      apply Qfloor_resp_le. rewrite <- HL1.
      set (m := natQ (length frames) - 1) in *. clearbody m. nra. }
  split; [apply Hindex|]. split; [apply Hindex|].
  split.
  { apply Qfloor_resp_le. apply Qmult_le_compat_r; [|exact HL0].
    apply Hmono, Hdiv. }
  split; [exact Hrange|].
  split.
  { rewrite Hindex. apply f_equal. unfold formula.
    change 0%Z with (Qfloor 0). apply Qfloor_comp.
    rewrite (@clamp_inside (0 / range) 0); [lra| field; lra | lra]. }
  split.
  { rewrite Hindex. apply f_equal. unfold formula.
    rewrite <- (Qfloor_Z (Z.of_nat (length frames) - 1)).
    apply Qfloor_comp. rewrite <- HL1.
    rewrite (@clamp_inside (range / range) 1); [lra| field; lra | lra]. }
  split.
  { intros H100 Hhalf. rewrite Hindex. apply f_equal. unfold formula.
    unfold natQ. rewrite H100.
    change 49%Z with (Qfloor (99 # 2)). apply Qfloor_comp.
    rewrite (@clamp_inside (t1 / range) (1 # 2)); [reflexivity| exact Hhalf | lra]. }
  rewrite Hindex. unfold array_get. cbn [array_index number].
  rewrite index_of_Z by lia.
  destruct (nth_error frames (Z.to_nat (formula t1))) as [frame|] eqn:N.
  - now exists frame.
  - apply nth_error_None in N. lia.
Qed.

(** *** The progress value and the single frame

    Over the rationals the value emitted with frame [i] is
    [floor (i / N * 100)]; the emitted values are integers between 0 and
    100 and never decrease. *)
Lemma rational_progress
    (N : nat) (d : num) (w h : nat) (window : Window) (container : Container num)
    (rest : list (Event num)) :
  (1 <= N)%nat ->
  let st := run N (mount window container) (loadedmetadata d w h :: rest) in
  loadingProgress st =
    map (fun i => of_Z (Qfloor (natQ i / natQ N * 100)))
        (seq 0 (length (framesRef st)))
  /\ length (loadingProgress st) = length (framesRef st)
  /\ (forall i j p q, (i <= j)%nat ->
        nth_error (loadingProgress st) i = Some p ->
        nth_error (loadingProgress st) j = Some q ->
        exists a b : Z, p = of_Z a /\ q = of_Z b /\ (0 <= a <= b)%Z /\ (b <= 100)%Z).
Proof.
  intros HN st.
  assert (HS : Sampled N d w h true st).
  { unfold st. rewrite run_cons. apply run_sampled; [now left|].
    apply start_sampled, mount_fresh. }
  destruct HS as [_ Hp Hb _].
  assert (E : loadingProgress st =
              map (fun i => of_Z (Qfloor (natQ i / natQ N * 100)))
                  (seq 0 (length (framesRef st)))).
  { rewrite Hp. apply map_ext. intros i. now apply progress_exact. }
  pose proof (natQ_pos HN) as PN.
  assert (Hval : forall i p, nth_error (loadingProgress st) i = Some p ->
             (i < N)%nat /\ p = of_Z (Qfloor (natQ i / natQ N * 100))).
  { intros i p Hi. rewrite E, nth_error_map, nth_error_seq in Hi.
    destruct (Nat.ltb_spec i (length (framesRef st))) as [L|L]; [|discriminate].
    cbn in Hi. injection Hi as <-. split; [lia|reflexivity]. }
  assert (Hmul : forall i j, (i <= j)%nat ->
             natQ i / natQ N * 100 <= natQ j / natQ N * 100).
  { intros i j L. apply Qmult_le_compat_r; [|lra].
    apply Qmult_le_compat_r; [now apply natQ_le|].
    apply Qlt_le_weak, Qinv_lt_0_compat, PN. }
  split; [exact E|]. split.
  { rewrite E. now rewrite length_map, length_seq. }
  intros i j p q Hij Hi Hj.
  destruct (Hval i p Hi) as [Li ->]. destruct (Hval j q Hj) as [Lj ->].
  do 2 eexists. split; [reflexivity|]. split; [reflexivity|].
  split; [split|].
  - change 0%Z with (Qfloor 0). apply Qfloor_resp_le.
    setoid_replace 0 with (natQ 0 / natQ N * 100) by (change (natQ 0) with 0; field; lra).
    apply Hmul. lia.
  - apply Qfloor_resp_le, Hmul, Hij.
  - change 100%Z with (Qfloor 100). apply Qfloor_resp_le.
    apply Qle_trans with (natQ N / natQ N * 100); [apply Hmul; lia|].
    setoid_replace (natQ N / natQ N * 100) with 100 by (field; lra).
    apply Qle_refl.
Qed.

(** C8 (amended).  With frame count 1 sampling takes exactly one capture,
    at time 0, in the preview as in the GIF export; with frame count 0 it
    takes none: the preview sets [isReady] over an empty frame list and
    the GIF loop hands no image to the encoder. *)
Theorem single_frame_sampling
    (d : Q) (w h : nat) (window : Window) (container : Container num) :
  let one :=
    run 1 (mount window container) [loadedmetadata (Fin d) w h; seeked Drawn] in
  let none := run 0 (mount window container) [loadedmetadata (Fin d) w h] in
  (isReady one = true
   /\ framesRef one = [{| fwidth := w; fheight := h; still := Some (Fin 0) |}])
  /\ gif_images 1 (Fin d) true = Some [Fin 0]
  /\ (isReady none = true /\ framesRef none = [])
  /\ gif_images 0 (Fin d) true = Some [].
Proof.
  intros one none.
  assert (Hready : isReady one = true).
  { apply (@completes _ _ 1 (Fin d) w h); [|apply mount_fresh|reflexivity|lia].
    intros i _. now rewrite timestamp_exact. }
  split; [split; [exact Hready|]|].
  { unfold one in *. rewrite run_cons in *.
    rewrite (@sampled_frames _ _ 1 (Fin d) w h _); [| |exact Hready].
    - cbn [seq map]. rewrite timestamp_exact by lia.
      do 3 f_equal. change (Fin 0) with (fin 0). apply fin_eq.
      change (natQ 0) with 0. change (natQ 1) with 1. field.
    - apply run_sampled; [right; intros [E|[]]; discriminate E|].
      apply start_sampled, mount_fresh. }
  split.
  { unfold gif_images. cbn [seq fold_left gif_turn gif_currentTime images].
    cbn [of_nat ndiv nmul ngt isFinite number].
    rewrite div_fin by (change (natQ 1) with 1; lra).
    unfold fin at 1. cbn [mul].
    replace (fin (natQ 0 * Qred (d / natQ 1))) with (Fin 0).
    - reflexivity.
    - change (Fin 0) with (fin 0). apply fin_eq. change (natQ 0) with 0. field. }
  split; [split; reflexivity|reflexivity].
Qed.

End ExactArithmetic.

(* ================================================================== *)
(** ** More on the preview *)

Section PreviewFacts.

Context {num : Type} `{JSNumber num}.
Local Open Scope js_scope.

Variable N : nat.

Lemma isReady_stays (st : Preview num) (ev : Event num) :
  isReady st = true -> isReady (step N st ev) = true.
Proof.
  intros R.
  destruct ev as [d vw vh|c| | |container|window container|p]; cbn [step]; auto.
  - destruct (task st); auto.
    match goal with |- context [iteration N 0 d vw vh ?s] =>
      destruct (iteration_cases N 0 d vw vh s) as (_ & _ & _ & _ & [E|(E & _)]) end;
      rewrite E; auto.
  - destruct (task st) as [|i d w h| |]; auto.
    destruct c; cbn [onSeeked]; auto;
    match goal with |- context [iteration N (S i) d w h ?s] =>
      destruct (iteration_cases N (S i) d w h s) as (_ & _ & _ & _ & [E|(E & _)]) end;
      rewrite E; auto.
  - cbn [isReady set_layout]. rewrite R. exact R.
  - cbn [isReady set_layout]. rewrite R. exact R.
Qed.

(** Once [isReady] is set the function has returned. *)
Lemma ready_returned_step (st : Preview num) (ev : Event num) :
  (isReady st = true -> task st = Returned) ->
  isReady (step N st ev) = true -> task (step N st ev) = Returned.
Proof.
  intros T.
  destruct ev as [d vw vh|c| | |container|window container|p]; cbn [step]; auto.
  - destruct (task st) eqn:E; rewrite ?E; auto; try (intros R; specialize (T R); congruence).
    unfold iteration. destruct (0 <? N)%nat; [|reflexivity].
    cbn [isActive set_canvas]. destruct (isActive st); cbn [negb].
    + destruct (isFinite _); cbn; auto. intros R. specialize (T R). congruence.
    + reflexivity.
  - destruct (task st) as [|i d w h| |] eqn:E; rewrite ?E; auto;
      try (intros R; specialize (T R); congruence).
    destruct c; cbn [onSeeked]; try (cbn; intros R; specialize (T R); congruence);
      unfold iteration; (destruct (S i <? N)%nat; [|reflexivity]);
      cbn [isActive captured]; (destruct (isActive st); cbn [negb]; [|reflexivity]);
      destruct (isFinite _); cbn; auto; intros R; specialize (T R); congruence.
  - cbn [isReady set_layout]. destruct (isReady st) eqn:R; cbn; rewrite ?R; auto;
      discriminate.
  - cbn [isReady set_layout]. destruct (isReady st) eqn:R; cbn; rewrite ?R; auto;
      discriminate.
Qed.

Lemma ready_returned_run (evs : list (Event num)) (st : Preview num) :
  (isReady st = true -> task st = Returned) ->
  isReady (run N st evs) = true -> task (run N st evs) = Returned.
Proof.
  revert st. induction evs as [|ev evs IH]; intros st T; [exact T|].
  cbn [run fold_left]. apply IH. now apply ready_returned_step.
Qed.

(** An event adds at most one frame, and only a [seeked] event does. *)
Lemma step_appends (st : Preview num) (ev : Event num) :
  exists added,
    framesRef (step N st ev) = framesRef st ++ added
    /\ (length added <= 1)%nat
    /\ ((forall c, ev <> seeked c) -> added = [])
    /\ (task st = Returned -> added = []).
Proof.
  destruct ev as [d vw vh|c| | |container|window container|p]; cbn [step].
  - exists []. rewrite app_nil_r. repeat split; auto.
    destruct (task st); auto.
    match goal with |- context [iteration N 0 d vw vh ?s] =>
      destruct (iteration_cases N 0 d vw vh s) as (_ & F & _) end.
    now rewrite F.
  - destruct (task st) as [|i d w h| |] eqn:T;
      try (exists []; rewrite app_nil_r; repeat split; auto; fail).
    destruct c as [| |]; cbn [onSeeked].
    + match goal with |- context [iteration N (S i) d w h (captured ?f ?p st)] =>
        destruct (iteration_cases N (S i) d w h (captured f p st)) as (_ & F & _);
        exists [f]; rewrite F end.
      repeat split; auto.
      * intros C. exfalso. exact (C Drawn eq_refl).
      * intros R. congruence.
    + match goal with |- context [iteration N (S i) d w h (captured ?f ?p st)] =>
        destruct (iteration_cases N (S i) d w h (captured f p st)) as (_ & F & _);
        exists [f]; rewrite F end.
      repeat split; auto.
      * intros C. exfalso. exact (C NoContext eq_refl).
      * intros R. congruence.
    + exists []. rewrite app_nil_r. repeat split; auto.
  - exists []. rewrite app_nil_r. repeat split; auto.
  - exists []. rewrite app_nil_r. repeat split; auto.
  - exists []. rewrite app_nil_r. repeat split; auto.
    cbn [isReady set_layout]. destruct (isReady st); reflexivity.
  - exists []. rewrite app_nil_r. repeat split; auto.
    cbn [isReady set_layout]. destruct (isReady st); reflexivity.
  - exists []. rewrite app_nil_r. repeat split; auto.
Qed.

Lemma run_appends (evs : list (Event num)) :
  forall st : Preview num,
  (isReady st = true -> task st = Returned) ->
  exists added,
    framesRef (run N st evs) = framesRef st ++ added
    /\ (length added <= length evs)%nat
    /\ (isReady st = true -> added = [] /\ isReady (run N st evs) = true).
Proof.
  induction evs as [|ev evs IH]; intros st T.
  - exists []. rewrite app_nil_r. auto.
  - cbn [run fold_left].
    destruct (step_appends st ev) as (a1 & E1 & L1 & _ & R1).
    destruct (IH (step N st ev) (ready_returned_step st ev T)) as (a2 & E2 & L2 & R2).
    exists (a1 ++ a2). unfold run in *. rewrite E2, E1, app_assoc.
    split; [reflexivity|]. split; [rewrite length_app; cbn; lia|].
    intros R. rewrite (R1 (T R)).
    destruct (R2 (isReady_stays st ev R)) as [-> R3]. auto.
Qed.

(** The visible canvas keeps its 2d context and both references stay
    set. *)
Lemma handleScroll_keeps (frames : list (Frame num)) (c : option (Container num))
    (cv : Canvas num) :
  exists cv', handleScroll frames c (Some cv) = Some cv'
              /\ has2d cv' = has2d cv /\ width cv' = width cv
              /\ height cv' = height cv.
Proof.
  unfold handleScroll. destruct c as [c|]; [|now exists cv].
  destruct (array_get frames _); [|now exists cv].
  destruct (has2d cv) eqn:E; [|now exists cv].
  eexists. split; [reflexivity|]. cbn. auto.
Qed.

Lemma refs_present_step (st : Preview num) (ev : Event num) :
  (exists cv, canvasRef st = Some cv /\ has2d cv = true) ->
  (exists c, containerRef st = Some c) ->
  (exists cv, canvasRef (step N st ev) = Some cv /\ has2d cv = true)
  /\ (exists c, containerRef (step N st ev) = Some c).
Proof.
  intros (cv & Ecv & H2) (c & Ec).
  assert (Hit : forall i d w h s,
             (exists cv, canvasRef s = Some cv /\ has2d cv = true) ->
             (exists c, containerRef s = Some c) ->
             (exists cv, canvasRef (iteration N i d w h s) = Some cv /\ has2d cv = true)
             /\ (exists c, containerRef (iteration N i d w h s) = Some c)).
  { intros i d w h s (cv0 & E0 & H0) (c1 & E1). unfold iteration.
    destruct (i <? N)%nat.
    - destruct (negb (isActive s)); [cbn; eauto|].
      destruct (isFinite _); cbn; eauto.
    - cbn. rewrite E0, E1.
      destruct (handleScroll_keeps (framesRef s) (Some c1) cv0) as (cv' & -> & K & _).
      split; [|eauto]. exists cv'. rewrite K. auto. }
  destruct ev as [d vw vh|cap| | |container|window container|p]; cbn [step]; eauto.
  - destruct (task st); eauto. apply Hit; cbn; rewrite ?Ecv; eauto.
  - destruct (task st) as [|i d w h| |]; eauto.
    destruct cap; cbn [onSeeked]; try apply Hit; cbn; eauto.
  - cbn [isReady set_layout]. destruct (isReady st).
    + cbn. rewrite Ecv, Ec.
      destruct (handleScroll_keeps (framesRef st) (Some container) cv)
        as (cv' & -> & K & _).
      split; [|eauto]. exists cv'. rewrite K. auto.
    + cbn. rewrite Ec. eauto.
  - cbn [isReady set_layout]. destruct (isReady st).
    + cbn. rewrite Ecv, Ec. unfold handleResize.
      destruct (handleScroll_keeps (framesRef st) (Some container)
                  (fit_window cv window)) as (cv' & -> & K & _).
      split; [|eauto]. exists cv'. rewrite K. auto.
    + cbn. rewrite Ec. eauto.
Qed.

Lemma refs_present_run (evs : list (Event num)) :
  forall st : Preview num,
  (exists cv, canvasRef st = Some cv /\ has2d cv = true) ->
  (exists c, containerRef st = Some c) ->
  (exists cv, canvasRef (run N st evs) = Some cv /\ has2d cv = true)
  /\ (exists c, containerRef (run N st evs) = Some c).
Proof.
  induction evs as [|ev evs IH]; intros st Hc Hk; [auto|].
  cbn [run fold_left].
  destruct (@refs_present_step st ev Hc Hk) as [Hc2 Hk2]. now apply IH.
Qed.

(** Until [isReady] is set nothing listens to scroll and resize: the
    canvas stays as the arrival of the metadata left it. *)
Lemma unready_canvas_step (cv : Canvas num) (st : Preview num) (ev : Event num) :
  (isReady st = false -> canvasRef st = Some cv /\ task st <> AwaitMetadata) ->
  isReady (step N st ev) = false ->
  canvasRef (step N st ev) = Some cv /\ task (step N st ev) <> AwaitMetadata.
Proof.
  intros I R'.
  assert (R : isReady st = false).
  { destruct (isReady st) eqn:R; [|reflexivity].
    rewrite (isReady_stays st ev R) in R'. discriminate. }
  destruct (I R) as [Ecv T]. clear I.
  assert (Hit : forall i d w h s,
             canvasRef s = Some cv ->
             isReady (iteration N i d w h s) = false ->
             canvasRef (iteration N i d w h s) = Some cv
             /\ task (iteration N i d w h s) <> AwaitMetadata).
  { intros i d w h s E. unfold iteration. destruct (i <? N)%nat.
    - destruct (negb (isActive s)); [cbn; split; [auto|discriminate]|].
      destruct (isFinite _); cbn; (split; [auto|discriminate]).
    - cbn. discriminate. }
  destruct ev as [d vw vh|cap| | |container|window container|p];
    cbn [step] in *; auto.
  - destruct (task st) eqn:E; try (split; [exact Ecv|congruence]).
    now destruct T.
  - destruct (task st) as [|i d w h| |] eqn:E; try (split; [exact Ecv|congruence]).
    destruct cap; cbn [onSeeked] in *; try (apply Hit; auto; fail).
    cbn. split; [auto|discriminate].
  - cbn [isReady set_layout] in *. rewrite R in *. cbn. auto.
  - cbn [isReady set_layout] in *. rewrite R in *. cbn. auto.
Qed.

Lemma unready_canvas_run (cv : Canvas num) (evs : list (Event num)) :
  forall st : Preview num,
  (isReady st = false -> canvasRef st = Some cv /\ task st <> AwaitMetadata) ->
  isReady (run N st evs) = false ->
  canvasRef (run N st evs) = Some cv /\ task (run N st evs) <> AwaitMetadata.
Proof.
  induction evs as [|ev evs IH]; intros st I; [exact I|].
  cbn [run fold_left]. apply IH. now apply unready_canvas_step.
Qed.

Lemma fresh_canvas_run (evs : list (Event num)) :
  forall st : Preview num,
  (forall d w h, ~ In (loadedmetadata d w h) evs) ->
  Fresh st ->
  Fresh (run N st evs) /\ canvasRef (run N st evs) = canvasRef st.
Proof.
  induction evs as [|ev evs IH]; intros st NM F; [auto|].
  cbn [run fold_left].
  assert (NM' : forall d w h, ~ In (loadedmetadata d w h) evs).
  { intros d w h I. apply (NM d w h). now right. }
  assert (Nev : forall d w h, ev <> loadedmetadata d w h).
  { intros d w h ->. apply (NM d w h). now left. }
  destruct (IH (step N st ev) NM' (@fresh_step _ _ N st ev Nev F)) as [F' E].
  split; [exact F'|]. unfold run in *. rewrite E.
  destruct F as (T & _ & _ & R & _).
  destruct ev as [d vw vh|c| | |container|window container|p]; cbn [step]; auto.
  - now destruct (Nev d vw vh).
  - now rewrite T.
  - cbn [isReady set_layout]. now rewrite R.
  - cbn [isReady set_layout]. now rewrite R.
Qed.

(** After the function has returned, events reach only the scroll and
    resize listeners. *)
Lemma returned_step (st : Preview num) (ev : Event num) :
  task st = Returned ->
  task (step N st ev) = Returned
  /\ console (step N st ev) = console st
  /\ framesRef (step N st ev) = framesRef st
  /\ loadingProgress (step N st ev) = loadingProgress st
  /\ isReady (step N st ev) = isReady st.
Proof.
  intros T.
  destruct ev as [d vw vh|c| | |container|window container|p];
    cbn [step]; rewrite ?T; try (cbn; now auto).
  - cbn [set_layout isReady]. destruct (isReady st) eqn:R; cbn; rewrite ?R; auto.
  - cbn [set_layout isReady]. destruct (isReady st) eqn:R; cbn; rewrite ?R; auto.
Qed.

Lemma returned_run (evs : list (Event num)) :
  forall st : Preview num,
  task st = Returned ->
  task (run N st evs) = Returned
  /\ console (run N st evs) = console st
  /\ framesRef (run N st evs) = framesRef st
  /\ loadingProgress (run N st evs) = loadingProgress st
  /\ isReady (run N st evs) = isReady st.
Proof.
  induction evs as [|ev evs IH]; intros st T; [auto|].
  cbn [run fold_left].
  destruct (returned_step st ev T) as (T1 & C1 & F1 & P1 & R1).
  destruct (IH _ T1) as (T2 & C2 & F2 & P2 & R2). unfold run in *.
  rewrite T2, C2, F2, P2, R2. auto.
Qed.

Lemma active_step (st : Preview num) (ev : Event num) :
  ev <> cleanup -> isActive (step N st ev) = isActive st.
Proof.
  intros NC.
  destruct ev as [d vw vh|c| | |container|window container|p];
    cbn [step]; auto.
  - destruct (task st); auto.
    match goal with |- context [iteration N 0 d vw vh ?s] =>
      destruct (iteration_cases N 0 d vw vh s) as (_ & _ & _ & E & _) end.
    rewrite E. reflexivity.
  - destruct (task st) as [|i d w h| |]; auto.
    destruct c; cbn [onSeeked]; auto;
    match goal with |- context [iteration N ?j d w h ?s] =>
      destruct (iteration_cases N j d w h s) as (_ & _ & _ & E & _) end;
    rewrite E; reflexivity.
  - now destruct NC.
  - cbn [set_layout isReady]. destruct (isReady st); reflexivity.
  - cbn [set_layout isReady]. destruct (isReady st); reflexivity.
Qed.

Lemma active_run (evs : list (Event num)) :
  forall st : Preview num,
  ~ In cleanup evs -> isActive (run N st evs) = isActive st.
Proof.
  induction evs as [|ev evs IH]; intros st NC; [reflexivity|].
  cbn [run fold_left]. unfold run in IH. rewrite IH.
  - apply active_step. intros ->. apply NC. now left.
  - intros I. apply NC. now right.
Qed.

(** A duration for which the first seek target is not a finite number. *)
Lemma unplayable_run (st : Preview num) (d : num) (w h : nat)
    (post : list (Event num)) :
  Fresh st -> isActive st = true -> (1 <= N)%nat ->
  isFinite ((d / $N) * $0) = false ->
  let st' := run N st (loadedmetadata d w h :: post) in
  task st' = Returned
  /\ console st' = ["Frame extraction failed"%string]
  /\ framesRef st' = []
  /\ loadingProgress st' = []
  /\ isReady st' = false.
Proof.
  intros (T & F & P & R & C) A HN NF st'.
  assert (E : step N st (loadedmetadata d w h)
              = caught (set_canvas
                          match canvasRef st with
                          | Some canvas => Some (fit_window canvas (window st))
                          | None => None
                          end st)).
  { cbn [step]. rewrite T. unfold iteration.
    destruct (Nat.ltb_spec 0 N); [|lia].
    cbn [isActive set_canvas]. rewrite A. cbn [negb]. now rewrite NF. }
  unfold st'. cbn [run fold_left]. rewrite E.
  match goal with |- context [fold_left _ post ?s] =>
    destruct (@returned_run post s eq_refl) as (T2 & C2 & F2 & P2 & R2) end.
  unfold run in *. rewrite T2, C2, F2, P2, R2. cbn. rewrite C, F, P, R. auto.
Qed.


(** The placement depends on the canvas through its size alone. *)
Lemma cover_size (f : Frame num) (c1 c2 : Canvas num) :
  width c1 = width c2 -> height c1 = height c2 -> cover f c1 = cover f c2.
Proof. intros W Hh. unfold cover. now rewrite W, Hh. Qed.

Section Sampling.

Variables (window0 : Window) (container0 : Container num).
Variables (d : num) (vw vh : nat).
Hypothesis finite_times : forall i, (i < N)%nat -> isFinite ((d / $N) * $i) = true.

(** The component after the metadata and [k] captures, while more are to
    come. *)
Lemma preview_sampling (k : nat) :
  (k < N)%nat ->
  run N (mount window0 container0)
    (loadedmetadata d vw vh :: repeat (seeked Drawn) k)
  = {| window := window0;
       containerRef := Some container0;
       canvasRef := Some {| width := innerWidth window0; height := innerHeight window0;
                            has2d := true; paint := [] |};
       framesRef :=
         map (fun i => {| fwidth := vw; fheight := vh;
                          still := Some ((d / $N) * $i) |}) (seq 0 k);
       loadingProgress :=
         map (fun i => Math_floor (($i / $N) * $100)) (seq 0 k);
       isReady := false;
       isActive := true;
       currentTime := (d / $N) * $k;
       console := [];
       task := AwaitSeeked k d vw vh |}.
Proof.
  induction k as [|k IH]; intros Hk.
  - cbn [repeat run fold_left step task mount].
    unfold iteration. destruct (Nat.ltb_spec 0 N); [|lia].
    cbn [isActive set_canvas negb canvasRef window fit_window].
    rewrite finite_times by lia. reflexivity.
  - replace (loadedmetadata d vw vh :: repeat (@seeked num Drawn) (S k))
      with ((loadedmetadata d vw vh :: repeat (@seeked num Drawn) k)
              ++ [seeked Drawn]).
    2:{ cbn [app]. f_equal. symmetry. apply (repeat_cons k (@seeked num Drawn)). }
    rewrite run_app, IH by lia.
    cbn [run fold_left step task onSeeked currentTime].
    unfold iteration. destruct (Nat.ltb_spec (S k) N); [|lia].
    cbn [isActive captured negb]. rewrite finite_times by lia.
    unfold seek. cbn [window containerRef canvasRef framesRef loadingProgress
                      isReady isActive console].
    rewrite !seq_S, !map_app. reflexivity.
Qed.

(** ... and after the last capture, when the second effect has drawn the
    frame for the scroll position of that moment. *)
Lemma preview_complete :
  (1 <= N)%nat ->
  let frames :=
    map (fun i => {| fwidth := vw; fheight := vh;
                     still := Some ((d / $N) * $i) |}) (seq 0 N) in
  run N (mount window0 container0)
    (loadedmetadata d vw vh :: repeat (seeked Drawn) N)
  = {| window := window0;
       containerRef := Some container0;
       canvasRef :=
         handleScroll frames (Some container0)
           (Some {| width := innerWidth window0; height := innerHeight window0;
                    has2d := true; paint := [] |});
       framesRef := frames;
       loadingProgress :=
         map (fun i => Math_floor (($i / $N) * $100)) (seq 0 N);
       isReady := true;
       isActive := true;
       currentTime := (d / $N) * $(N - 1);
       console := [];
       task := Returned |}.
Proof.
  intros HN frames. unfold frames.
  assert (ER : repeat (@seeked num Drawn) N
               = repeat (@seeked num Drawn) (N - 1) ++ [seeked Drawn]).
  { rewrite <- (repeat_cons (N - 1) (@seeked num Drawn)).
    change (@seeked num Drawn :: repeat (seeked Drawn) (N - 1))
      with (repeat (@seeked num Drawn) (S (N - 1))).
    f_equal. lia. }
  assert (ES : seq 0 N = seq 0 (N - 1) ++ [(N - 1)%nat]).
  { change ([(N - 1)%nat]) with ([(0 + (N - 1))%nat]).
    rewrite <- (seq_S (N - 1) 0). f_equal. lia. }
  rewrite ER, app_comm_cons, run_app, preview_sampling by lia.
  cbn [run fold_left step task onSeeked currentTime].
  unfold iteration. destruct (Nat.ltb_spec (S (N - 1)) N); [lia|].
  unfold ready.
  cbn [captured window containerRef canvasRef framesRef loadingProgress
       isReady isActive console currentTime].
  rewrite ES, !map_app. reflexivity.
Qed.

End Sampling.

(** X1.  While [isReady] is false the visible canvas is never drawn on and
    never resized by an event: before the metadata arrives it is the
    untouched default canvas, and from then on it is blank with the size
    the window had at that moment, whatever scroll, resize or other events
    follow. *)
Theorem canvas_untouched_until_ready
    (window0 : Window) (container0 : Container num)
    (pre post : list (Event num)) (d : num) (vw vh : nat) :
  (forall d' w h, ~ In (loadedmetadata d' w h) pre) ->
  let waiting := run N (mount window0 container0) pre in
  let st := run N waiting (loadedmetadata d vw vh :: post) in
  canvasRef waiting = canvasRef (mount window0 container0)
  /\ (isReady st = false ->
      canvasRef st =
        Some {| width := innerWidth (window waiting);
                height := innerHeight (window waiting);
                has2d := true; paint := [] |}).
Proof.
  intros NM waiting st.
  destruct (@fresh_canvas_run pre (mount window0 container0) NM
              (mount_fresh window0 container0)) as [F E].
  fold waiting in F, E. split; [exact E|].
  intros R. unfold st in *. rewrite run_cons in *.
  refine (proj1 (@unready_canvas_run _ post _ _ R)).
  intros R0. destruct F as (T & _). cbn [step] in *. rewrite T in *.
  rewrite E in *. cbn [canvasRef mount] in *.
  unfold iteration in *. destruct (0 <? N)%nat.
  - cbn [isActive set_canvas] in *. destruct (negb (isActive waiting)).
    + cbn. split; [reflexivity|discriminate].
    + destruct (isFinite _); cbn; (split; [reflexivity|discriminate]).
  - cbn in R0. discriminate.
Qed.

(** X2.  Frames are only ever appended: a later state holds the frames of
    an earlier one followed by at most one new frame per event; and once
    [isReady] is set no frame is added any more and [isReady] stays
    set. *)
Theorem frames_only_grow
    (window0 : Window) (container0 : Container num)
    (pre post : list (Event num)) :
  let before := run N (mount window0 container0) pre in
  let after := run N (mount window0 container0) (pre ++ post) in
  exists added,
    framesRef after = framesRef before ++ added
    /\ (length added <= length post)%nat
    /\ (isReady before = true -> added = [] /\ isReady after = true).
Proof.
  intros before after. unfold after. rewrite run_app. fold before.
  apply run_appends.
  apply (@ready_returned_run pre (mount window0 container0)).
  discriminate.
Qed.

End PreviewFacts.

Section PreviewDrawing.

Context {num : Type} `{JSNumber num}.
Local Open Scope js_scope.

(** The last of a list of drawing operations that ends with two given
    ones. *)
Lemma last_of_two (A : Type) (l : list A) (a b d : A) :
  last (l ++ [a; b]) d = b.
Proof.
  change [a; b] with ([a] ++ [b]). rewrite app_assoc. apply last_last.
Qed.

(** X9.  End to end: after a complete sampling of a video of duration
    [d], a scroll event makes [handleScroll] compute its index over the
    [N] frames and, where that index names frame [i], paint as the last
    thing on the window-sized canvas the picture sought for position [i],
    the one at time [(d / N) * i]. *)
Theorem scroll_shows_sampled_instant
    (N i : nat) (d : num) (vw vh : nat) (window0 : Window)
    (container0 scrolled : Container num) :
  (1 <= N)%nat ->
  (forall i, (i < N)%nat -> isFinite ((d / $N) * $i) = true) ->
  array_index (Math_floor (scrollPercent scrolled * ($N - $1))) = Some i ->
  (i < N)%nat ->
  let st :=
    run N (mount window0 container0)
      (loadedmetadata d vw vh :: repeat (seeked Drawn) N ++ [scroll scrolled]) in
  let shown := {| fwidth := vw; fheight := vh; still := Some ((d / $N) * $i) |} in
  let canvas := {| width := innerWidth window0; height := innerHeight window0;
                   has2d := true; paint := [] |} in
  exists earlier,
    canvasRef st =
      Some (draw canvas
              (earlier ++
               [clearRect $0 $0 $(innerWidth window0) $(innerHeight window0);
                drawImage shown
                  (offsetX (cover shown canvas)) (offsetY (cover shown canvas))
                  (drawWidth (cover shown canvas)) (drawHeight (cover shown canvas))])).
Proof.
  intros HN Hfin Hi IN st shown canvas.
  set (frames :=
    map (fun i => {| fwidth := vw; fheight := vh; still := Some ((d / $N) * $i) |})
        (seq 0 N)).
  destruct (handleScroll_keeps frames (Some container0) canvas)
    as (cv & Ecv & C2 & CW & CH).
  assert (Ecv' : cv = draw canvas (paint cv)).
  { destruct cv as [cw chh c2 cp]. cbn in *. subst. reflexivity. }
  exists (paint cv).
  unfold st. rewrite app_comm_cons, run_app.
  rewrite (@preview_complete _ _ N window0 container0 d vw vh Hfin HN).
  fold frames. fold canvas. rewrite Ecv.
  cbn [run fold_left step set_layout isReady containerRef framesRef canvasRef
       set_canvas window].
  unfold handleScroll, frameIndex, array_get.
  assert (EL : length frames = N).
  { unfold frames. now rewrite length_map, length_seq. }
  rewrite EL, Hi. unfold frames at 1. rewrite nth_error_map, nth_error_seq.
  destruct (Nat.ltb_spec i N); [|lia]. cbn [option_map Nat.add]. fold shown.
  rewrite C2. rewrite (cover_size shown cv canvas CW CH), CW, CH.
  rewrite Ecv' at 1. unfold draw. cbn [width height has2d paint].
  rewrite app_nil_l. reflexivity.
Qed.

End PreviewDrawing.

(* ================================================================== *)
(** ** More on the kit *)

Section KitFacts.

Context {num : Type} `{JSNumber num}.
Local Open Scope js_scope.

Variable N : nat.

(** The countdown text after [k] captures. *)
Local Abbreviation countdown k :=
  (match k%nat with
   | O => HtmlKit.Count $10
   | _ => HtmlKit.Count (Math_max $1 (Math_ceil ($10 - ($k / $N) * $9)))
   end).

Lemma kit_run_app (st : HtmlKit.Kit num) (xs ys : list (Event num)) :
  HtmlKit.kit_run N st (xs ++ ys) = HtmlKit.kit_run N (HtmlKit.kit_run N st xs) ys.
Proof. apply fold_left_app. Qed.

(** Once the sampling function has returned or is stuck, events only
    reach the draw routines. *)
Lemma kit_settled_step (st : HtmlKit.Kit num) (ev : Event num) :
  HtmlKit.kit_task st = Returned \/ HtmlKit.kit_task st = Stalled ->
  HtmlKit.kit_task (HtmlKit.kit_step N st ev) = HtmlKit.kit_task st
  /\ HtmlKit.S (HtmlKit.kit_step N st ev) = HtmlKit.S st
  /\ HtmlKit.n (HtmlKit.kit_step N st ev) = HtmlKit.n st.
Proof.
  intros T.
  destruct ev as [d vw vh|cap| | |container|window container|p];
    cbn [HtmlKit.kit_step]; auto.
  - destruct T as [T|T]; rewrite T; auto.
  - destruct T as [T|T]; rewrite T; auto.
  - unfold HtmlKit.kit_draw. destruct (HtmlKit.D _ _ _); cbn; auto.
  - unfold HtmlKit.kit_draw. destruct (HtmlKit.D _ _ _); cbn; auto.
Qed.

Lemma kit_settled_run (evs : list (Event num)) :
  forall st : HtmlKit.Kit num,
  HtmlKit.kit_task st = Returned \/ HtmlKit.kit_task st = Stalled ->
  HtmlKit.kit_task (HtmlKit.kit_run N st evs) = HtmlKit.kit_task st
  /\ HtmlKit.S (HtmlKit.kit_run N st evs) = HtmlKit.S st
  /\ HtmlKit.n (HtmlKit.kit_run N st evs) = HtmlKit.n st.
Proof.
  induction evs as [|ev evs IH]; intros st T; [auto|].
  cbn [HtmlKit.kit_run fold_left].
  destruct (kit_settled_step st ev T) as (T1 & S1 & N1).
  destruct (IH (HtmlKit.kit_step N st ev)) as (T2 & S2 & N2).
  { rewrite T1. exact T. }
  unfold HtmlKit.kit_run in *. rewrite T2, S2, N2. auto.
Qed.

(** The countdown shows the number of frames captured. *)
Local Abbreviation counting st :=
  (match HtmlKit.kit_task st with
   | AwaitMetadata => HtmlKit.S st = [] /\ HtmlKit.n st = HtmlKit.Count $10
   | AwaitSeeked i _ _ _ =>
       length (HtmlKit.S st) = i /\ (i < N)%nat /\ HtmlKit.n st = countdown i
   | Stalled =>
       exists k, length (HtmlKit.S st) = k /\ (k < N)%nat
                 /\ HtmlKit.n st = countdown k
   | Returned => HtmlKit.n st = HtmlKit.READY \/ HtmlKit.n st = HtmlKit.ERROR
   end).

Lemma kit_iteration_counting (i : nat) (d : num) (w h : nat) (st : HtmlKit.Kit num) :
  length (HtmlKit.S st) = i -> HtmlKit.n st = countdown i ->
  counting (HtmlKit.kit_iteration N i d w h st).
Proof.
  intros L C. unfold HtmlKit.kit_iteration.
  destruct (Nat.ltb_spec i N).
  - destruct (isFinite _); cbn; auto.
  - unfold HtmlKit.kit_finish. destruct (HtmlKit.R _ _ _) as [c' [|]]; cbn; auto.
Qed.

Lemma kit_counting_step (st : HtmlKit.Kit num) (ev : Event num) :
  counting st -> counting (HtmlKit.kit_step N st ev).
Proof.
  intros I.
  destruct ev as [d vw vh|cap| | |container|window container|p];
    cbn [HtmlKit.kit_step]; auto.
  - destruct (HtmlKit.kit_task st) eqn:T; rewrite ?T; auto.
    destruct I as [S0 N0]. apply kit_iteration_counting.
    + now rewrite S0.
    + exact N0.
  - destruct (HtmlKit.kit_task st) as [|i d w h| |] eqn:T; rewrite ?T; auto.
    destruct I as (L & Lt & C).
    destruct cap; cbn [HtmlKit.kit_onSeeked].
    + apply kit_iteration_counting; cbn [HtmlKit.S HtmlKit.n].
      * rewrite length_app. cbn. lia.
      * rewrite length_app. cbn [length]. rewrite L, Nat.add_1_r. reflexivity.
    + cbn. exists i. auto.
    + cbn. exists i. auto.
  - unfold HtmlKit.kit_draw. destruct (HtmlKit.D _ _ _); cbn; auto.
  - unfold HtmlKit.kit_draw. destruct (HtmlKit.D _ _ _); cbn; auto.
Qed.

Lemma kit_counting_run (evs : list (Event num)) :
  forall st : HtmlKit.Kit num, counting st -> counting (HtmlKit.kit_run N st evs).
Proof.
  induction evs as [|ev evs IH]; intros st I; [exact I|].
  cbn [HtmlKit.kit_run fold_left]. apply IH. now apply kit_counting_step.
Qed.

(** Before the metadata has arrived nothing is sampled. *)
Lemma kit_waiting_step (st : HtmlKit.Kit num) (ev : Event num) :
  (forall d w h, ev <> loadedmetadata d w h) ->
  HtmlKit.kit_task st = AwaitMetadata ->
  HtmlKit.kit_task (HtmlKit.kit_step N st ev) = AwaitMetadata
  /\ HtmlKit.S (HtmlKit.kit_step N st ev) = HtmlKit.S st
  /\ HtmlKit.n (HtmlKit.kit_step N st ev) = HtmlKit.n st.
Proof.
  intros NM T.
  destruct ev as [d vw vh|cap| | |container|window container|p];
    cbn [HtmlKit.kit_step]; auto.
  - now destruct (NM d vw vh).
  - rewrite T. auto.
  - unfold HtmlKit.kit_draw. destruct (HtmlKit.D _ _ _); cbn; auto.
  - unfold HtmlKit.kit_draw. destruct (HtmlKit.D _ _ _); cbn; auto.
Qed.

Lemma kit_waiting_run (evs : list (Event num)) :
  forall st : HtmlKit.Kit num,
  (forall d w h, ~ In (loadedmetadata d w h) evs) ->
  HtmlKit.kit_task st = AwaitMetadata ->
  HtmlKit.kit_task (HtmlKit.kit_run N st evs) = AwaitMetadata
  /\ HtmlKit.S (HtmlKit.kit_run N st evs) = HtmlKit.S st
  /\ HtmlKit.n (HtmlKit.kit_run N st evs) = HtmlKit.n st.
Proof.
  induction evs as [|ev evs IH]; intros st NM T; [auto|].
  cbn [HtmlKit.kit_run fold_left].
  destruct (@kit_waiting_step st ev) as (T1 & S1 & N1); [|exact T|].
  { intros d w h ->. apply (NM d w h). now left. }
  destruct (IH (HtmlKit.kit_step N st ev)) as (T2 & S2 & N2); [|exact T1|].
  { intros d w h I. apply (NM d w h). now right. }
  unfold HtmlKit.kit_run in *. rewrite T2, S2, N2. auto.
Qed.

(** A duration for which the first seek target is not a finite number. *)
Lemma kit_unplayable_run (st : HtmlKit.Kit num) (d : num) (w h : nat)
    (post : list (Event num)) :
  HtmlKit.kit_task st = AwaitMetadata -> (1 <= N)%nat ->
  isFinite ((d / $N) * $0) = false ->
  let st' := HtmlKit.kit_run N st (loadedmetadata d w h :: post) in
  HtmlKit.kit_task st' = Returned
  /\ HtmlKit.n st' = HtmlKit.ERROR
  /\ HtmlKit.S st' = HtmlKit.S st.
Proof.
  intros T HN NF st'.
  assert (E : HtmlKit.kit_step N st (loadedmetadata d w h) = HtmlKit.kit_caught st).
  { cbn [HtmlKit.kit_step]. rewrite T. unfold HtmlKit.kit_iteration.
    destruct (Nat.ltb_spec 0 N); [|lia]. now rewrite NF. }
  unfold st'. cbn [HtmlKit.kit_run fold_left]. rewrite E.
  destruct (@kit_settled_run post (HtmlKit.kit_caught st)) as (T2 & S2 & N2);
    [now left|].
  unfold HtmlKit.kit_run in *. rewrite T2, S2, N2. cbn. auto.
Qed.

(** X3.  An exception in the kit's [seeked] listener (no 2d context for
    the new canvas, or [drawImage] throwing) is outside the [try]: the
    sampling stops where it is, with the frames and the countdown it had,
    and the page shows neither READY nor ERROR, whatever happens later. *)
Theorem kit_listener_exception_stalls
    (window0 : Window) (container0 : Container num)
    (pre post : list (Event num)) (cap : Capture)
    (i : nat) (d : num) (w h : nat) :
  let st := HtmlKit.kit_run N (HtmlKit.kit_open window0 container0) pre in
  let st' := HtmlKit.kit_run N st (seeked cap :: post) in
  HtmlKit.kit_task st = AwaitSeeked i d w h -> cap <> Drawn ->
  HtmlKit.kit_task st' = Stalled
  /\ HtmlKit.S st' = HtmlKit.S st
  /\ HtmlKit.n st' = HtmlKit.n st
  /\ HtmlKit.n st' <> HtmlKit.READY /\ HtmlKit.n st' <> HtmlKit.ERROR.
Proof.
  intros st st' T NC.
  assert (E : HtmlKit.kit_step N st (seeked cap) = HtmlKit.kit_set_task Stalled st).
  { cbn [HtmlKit.kit_step]. rewrite T.
    destruct cap; [now destruct NC|reflexivity|reflexivity]. }
  destruct (@kit_settled_run post (HtmlKit.kit_set_task Stalled st))
    as (T' & S' & N'); [now right|].
  unfold st'. cbn [HtmlKit.kit_run fold_left]. rewrite E.
  unfold HtmlKit.kit_run in *. rewrite T', S', N'. cbn.
  repeat split; auto.
  - assert (I : counting st) by (apply kit_counting_run; cbn; auto).
    rewrite T in I. destruct I as (_ & _ & C).
    rewrite C. destruct i; discriminate.
  - assert (I : counting st) by (apply kit_counting_run; cbn; auto).
    rewrite T in I. destruct I as (_ & _ & C).
    rewrite C. destruct i; discriminate.
Qed.

Lemma kit_counting (window0 : Window) (container0 : Container num)
    (evs : list (Event num)) :
  counting (HtmlKit.kit_run N (HtmlKit.kit_open window0 container0) evs).
Proof. apply kit_counting_run. cbn. auto. Qed.

(** The state of the kit after the metadata and [k] captures, while more
    are to come. *)
Variables (window0 : Window) (container0 : Container num).
Variables (d : num) (vw vh : nat).
Hypothesis finite_times : forall i, (i < N)%nat -> isFinite ((d / $N) * $i) = true.

Local Abbreviation frame_at i :=
  ({| fwidth := vw; fheight := vh; still := Some ((d / $N) * $i) |}).

Lemma kit_sampling (k : nat) :
  (k < N)%nat ->
  HtmlKit.kit_run N (HtmlKit.kit_open window0 container0)
    (loadedmetadata d vw vh :: repeat (seeked Drawn) k)
  = {| HtmlKit.kit_window := window0;
       HtmlKit.documentElement := container0;
       HtmlKit.c := HtmlKit.c (HtmlKit.kit_open window0 container0);
       HtmlKit.S := map (fun i => frame_at i) (seq 0 k);
       HtmlKit.n := countdown k;
       HtmlKit.v_currentTime := (d / $N) * $k;
       HtmlKit.kit_task := AwaitSeeked k d vw vh |}.
Proof.
  induction k as [|k IH]; intros Hk.
  - cbn [repeat HtmlKit.kit_run fold_left HtmlKit.kit_step HtmlKit.kit_task
         HtmlKit.kit_open].
    unfold HtmlKit.kit_iteration. destruct (Nat.ltb_spec 0 N); [|lia].
    rewrite finite_times by lia. reflexivity.
  - change (loadedmetadata d vw vh :: repeat (seeked Drawn) (S k))
      with ((loadedmetadata d vw vh :: repeat (@seeked num Drawn) k)
              ++ [seeked Drawn]) at 1 || idtac.
    replace (loadedmetadata d vw vh :: repeat (@seeked num Drawn) (S k))
      with ((loadedmetadata d vw vh :: repeat (@seeked num Drawn) k)
              ++ [seeked Drawn]).
    2:{ cbn [app]. f_equal. symmetry. apply (repeat_cons k (@seeked num Drawn)). }
    rewrite kit_run_app, IH by lia.
    cbn [HtmlKit.kit_run fold_left HtmlKit.kit_step HtmlKit.kit_task
         HtmlKit.kit_onSeeked HtmlKit.S HtmlKit.v_currentTime HtmlKit.c
         HtmlKit.kit_window HtmlKit.documentElement].
    unfold HtmlKit.kit_iteration. destruct (Nat.ltb_spec (S k) N); [|lia].
    rewrite finite_times by lia.
    unfold HtmlKit.kit_seek.
    cbn [HtmlKit.S HtmlKit.v_currentTime HtmlKit.c HtmlKit.n
         HtmlKit.kit_window HtmlKit.documentElement].
    rewrite length_app, length_map, length_seq. cbn [length].
    rewrite Nat.add_1_r, seq_S, map_app. reflexivity.
Qed.

End KitFacts.

Section KitDrawing.

Context {num : Type} `{JSNumber num}.
Local Open Scope js_scope.

(** X6.  The kit's listeners are installed before the frames are sampled
    and [D] has no readiness check: while sampling is in progress, with
    [k] of the [N] frames stored, a scroll message with percentage [p]
    makes [D] compute the index [Math.floor(p * (k - 1))] over the partial
    set and, where that index names one of the [k] frames, draw that
    frame on the canvas, which still has its initial size; the sampling
    goes on as before. *)
Theorem kit_draws_while_sampling
    (N k j : nat) (d p : num) (vw vh : nat) (window0 : Window)
    (container0 : Container num) :
  (k < N)%nat ->
  (forall i, (i < N)%nat -> isFinite ((d / $N) * $i) = true) ->
  array_index (Math_floor (p * ($k - $1))) = Some j -> (j < k)%nat ->
  let kit :=
    HtmlKit.kit_run N (HtmlKit.kit_open window0 container0)
      (loadedmetadata d vw vh :: repeat (seeked Drawn) k ++ [message p]) in
  let shown := {| fwidth := vw; fheight := vh; still := Some ((d / $N) * $j) |} in
  let canvas := {| width := 300; height := 150; has2d := true; paint := [] |} in
  length (HtmlKit.S kit) = k
  /\ HtmlKit.kit_task kit = AwaitSeeked k d vw vh
  /\ HtmlKit.c kit =
       draw canvas
         [clearRect $0 $0 $300 $150;
          drawImage shown (offsetX (cover shown canvas)) (offsetY (cover shown canvas))
                    (drawWidth (cover shown canvas)) (drawHeight (cover shown canvas))].
Proof.
  intros KN Hfin Hj Jk kit shown canvas.
  set (frames :=
    map (fun i => {| fwidth := vw; fheight := vh; still := Some ((d / $N) * $i) |})
        (seq 0 k)).
  assert (E : kit =
    HtmlKit.kit_draw p
      {| HtmlKit.kit_window := window0;
         HtmlKit.documentElement := container0;
         HtmlKit.c := canvas;
         HtmlKit.S := frames;
         HtmlKit.n :=
           match k with
           | O => HtmlKit.Count $10
           | _ => HtmlKit.Count (Math_max $1 (Math_ceil ($10 - ($k / $N) * $9)))
           end;
         HtmlKit.v_currentTime := (d / $N) * $k;
         HtmlKit.kit_task := AwaitSeeked k d vw vh |}).
  { unfold kit. rewrite app_comm_cons, kit_run_app.
    rewrite (@kit_sampling _ _ N window0 container0 d vw vh Hfin k KN).
    reflexivity. }
  assert (EL : length frames = k).
  { unfold frames. now rewrite length_map, length_seq. }
  assert (ED : HtmlKit.D frames canvas p
          = Some (draw canvas
               [clearRect $0 $0 $300 $150;
                drawImage shown (offsetX (cover shown canvas)) (offsetY (cover shown canvas))
                  (drawWidth (cover shown canvas)) (drawHeight (cover shown canvas))])).
  { rewrite D_unfold. unfold frameIndex, array_get. rewrite EL, Hj.
    unfold frames. rewrite nth_error_map, nth_error_seq.
    destruct (Nat.ltb_spec j k); [|lia]. reflexivity. }
  rewrite E. unfold HtmlKit.kit_draw.
  cbn [HtmlKit.S HtmlKit.c]. rewrite ED.
  cbn [HtmlKit.kit_set_canvas HtmlKit.S HtmlKit.c HtmlKit.kit_task].
  auto.
Qed.

End KitDrawing.

(* ================================================================== *)
(** ** More on the kit: computations without rounding *)

Section KitExact.

Import Exact.
Local Open Scope Q_scope.

Lemma finite_times_exact (N : nat) (d : Q) :
  (1 <= N)%nat ->
  forall i, (i < N)%nat -> isFinite (nmul (ndiv (Fin d) (of_nat N)) (of_nat i)) = true.
Proof. intros HN i _. now rewrite timestamp_exact. Qed.

Lemma first_timestamp (N : nat) (d : Q) :
  (1 <= N)%nat -> nmul (ndiv (Fin d) (of_nat N)) (of_nat 0) = Fin 0.
Proof.
  intros HN. rewrite timestamp_exact by exact HN.
  change (Fin 0) with (fin 0). apply fin_eq.
  pose proof (natQ_pos HN). change (natQ 0) with 0. field. lra.
Qed.

(** The first frame is the one drawn for percentage 0. *)
Lemma first_frame_index (frames : list (Frame num)) (f : Frame num) (rest : list (Frame num)) :
  frames = f :: rest -> array_get frames (frameIndex frames (Fin 0)) = Some f.
Proof.
  intros ->. rewrite frameIndex_exact.
  assert (E : Qfloor (0 * (natQ (length (f :: rest)) - 1)) = 0%Z).
  { rewrite (Qfloor_comp _ 0) by ring. reflexivity. }
  rewrite E. unfold array_get. cbn [array_index number].
  rewrite index_of_Z by lia. reflexivity.
Qed.

(** The countdown after [k] of [N] captures, [0 < k <= N]. *)
Lemma countdown_exact (N k : nat) :
  (1 <= k <= N)%nat ->
  exists a : Z,
    Math_max (of_nat 1) (Math_ceil (nsub (@of_nat num _ 10)
                (nmul (ndiv (of_nat k) (of_nat N)) (of_nat 9)))) = of_Z a
    /\ a = Qceiling (10 - natQ k / natQ N * 9)
    /\ (1 <= a <= 10)%Z
    /\ ((k < N)%nat -> (2 <= a)%Z).
Proof.
  intros [K1 KN].
  assert (PN : 0 < natQ N) by (apply natQ_pos; lia).
  assert (PK : 0 < natQ k) by (apply natQ_pos; lia).
  assert (LK : natQ k <= natQ N) by now apply natQ_le.
  cbn [of_nat ndiv nmul nsub Math_ceil Math_max number].
  rewrite div_fin by lra. unfold fin. cbn [mul]. unfold fin. cbn [sub]. unfold fin.
  cbn [ceil].
  change (natQ 10) with 10. change (natQ 9) with 9. change (natQ 1) with 1.
  assert (E1 : Qred (natQ k / natQ N) == natQ k / natQ N) by apply Qred_correct.
  set (g := Qred (natQ k / natQ N)) in *.
  assert (E2 : Qred (g * 9) == g * 9) by apply Qred_correct.
  set (g9 := Qred (g * 9)) in *.
  assert (E3 : Qred (10 - g9) == 10 - g9) by apply Qred_correct.
  set (x := Qred (10 - g9)) in *.
  assert (EX : x == 10 - natQ k / natQ N * 9).
  { rewrite E3, E2, E1. reflexivity. }
  assert (G0 : 0 < natQ k / natQ N).
  { apply Qlt_shift_div_l; lra. }
  assert (G1 : natQ k / natQ N <= 1).
  { apply Qle_shift_div_r; lra. }
  assert (G2 : (k < N)%nat -> natQ k / natQ N < 1).
  { intros Lt. apply Qlt_shift_div_r; [lra|].
    unfold natQ. rewrite Qmult_1_l, <- Zlt_Qlt. lia. }
  clearbody x. clear E1 E2 E3. clearbody g9. clearbody g.
  set (q := natQ k / natQ N) in *. clearbody q.
  pose proof (Qle_ceiling x) as C1.
  pose proof (Qceiling_lt x) as C2.
  replace (Qceiling x - 1)%Z with (Qceiling x + -1)%Z in C2 by lia.
  rewrite inject_Z_plus in C2. change (inject_Z (-1)) with (-(1)) in C2.
  assert (B1 : (1 <= Qceiling x)%Z).
  { rewrite Zle_Qle. change (inject_Z 1) with 1. lra. }
  assert (B2 : (Qceiling x <= 10)%Z).
  { assert (L : (Qceiling x < 11)%Z); [|lia].
    rewrite Zlt_Qlt. change (inject_Z 11) with 11. lra. }
  exists (Qceiling x). split; [|split; [|split]].
  - unfold max, of_Z.
    replace (Qle_bool 1 (inject_Z (Qceiling x))) with true; [reflexivity|].
    symmetry. apply Qle_bool_iff. change 1 with (inject_Z 1).
    rewrite <- Zle_Qle. exact B1.
  - apply Qceiling_comp. exact EX.
  - lia.
  - intros Lt. specialize (G2 Lt).
    assert (L : (1 < Qceiling x)%Z); [|lia].
    rewrite Zlt_Qlt. change (inject_Z 1) with 1. lra.
Qed.



(** X4.  When every capture succeeds the kit ends with the text READY and
    with the first frame, the picture at time 0, drawn on a canvas of the
    window's size, wherever the page is scrolled to; later events do not
    change the text. *)
Theorem kit_completes
    (N : nat) (d : Q) (vw vh : nat) (window0 : Window)
    (container0 : Container num) (post : list (Event num)) :
  (1 <= N)%nat ->
  let kit :=
    HtmlKit.kit_run N (HtmlKit.kit_open window0 container0)
      (loadedmetadata (Fin d) vw vh :: repeat (seeked Drawn) N) in
  let first := {| fwidth := vw; fheight := vh; still := Some (Fin 0) |} in
  let canvas := {| width := innerWidth window0; height := innerHeight window0;
                   has2d := true; paint := [] |} in
  HtmlKit.n kit = HtmlKit.READY
  /\ HtmlKit.kit_task kit = Returned
  /\ HtmlKit.c kit =
       draw canvas
         [clearRect (Fin 0) (Fin 0)
            (of_nat (innerWidth window0)) (of_nat (innerHeight window0));
          drawImage first (offsetX (cover first canvas)) (offsetY (cover first canvas))
                    (drawWidth (cover first canvas)) (drawHeight (cover first canvas))]
  /\ HtmlKit.n (HtmlKit.kit_run N kit post) = HtmlKit.READY.
Proof.
  intros HN kit first canvas.
  destruct N as [|m]; [lia|].
  assert (E : kit =
    HtmlKit.kit_finish
      {| HtmlKit.kit_window := window0;
         HtmlKit.documentElement := container0;
         HtmlKit.c := HtmlKit.c (HtmlKit.kit_open window0 container0);
         HtmlKit.S :=
           map (fun i => {| fwidth := vw; fheight := vh;
                            still := Some (nmul (ndiv (Fin d) (of_nat (S m))) (of_nat i)) |})
               (seq 0 (S m));
         HtmlKit.n :=
           HtmlKit.Count
             (Math_max (of_nat 1)
                (Math_ceil (nsub (@of_nat num _ 10)
                   (nmul (ndiv (of_nat (S m)) (of_nat (S m))) (of_nat 9)))));
         HtmlKit.v_currentTime := nmul (ndiv (Fin d) (of_nat (S m))) (of_nat m);
         HtmlKit.kit_task := AwaitSeeked m (Fin d) vw vh |}).
  { unfold kit.
    replace (loadedmetadata (Fin d) vw vh :: repeat (@seeked num Drawn) (S m))
      with ((loadedmetadata (Fin d) vw vh :: repeat (@seeked num Drawn) m)
              ++ [seeked Drawn]).
    2:{ cbn [app]. f_equal. symmetry. apply (repeat_cons m (@seeked num Drawn)). }
    rewrite kit_run_app.
    rewrite (@kit_sampling _ _ (S m) window0 container0 (Fin d) vw vh
               (finite_times_exact d HN) m) by lia.
    cbn [HtmlKit.kit_run fold_left HtmlKit.kit_step HtmlKit.kit_task
         HtmlKit.kit_onSeeked HtmlKit.S HtmlKit.v_currentTime HtmlKit.c
         HtmlKit.kit_window HtmlKit.documentElement].
    unfold HtmlKit.kit_iteration. rewrite Nat.ltb_irrefl.
    rewrite length_app, length_map, length_seq. cbn [length].
    rewrite Nat.add_1_r, (seq_S m 0), map_app. reflexivity. }
  assert (Efin : kit =
    {| HtmlKit.kit_window := window0;
       HtmlKit.documentElement := container0;
       HtmlKit.c :=
         draw canvas
           [clearRect (Fin 0) (Fin 0)
              (of_nat (innerWidth window0)) (of_nat (innerHeight window0));
            drawImage first (offsetX (cover first canvas)) (offsetY (cover first canvas))
                      (drawWidth (cover first canvas)) (drawHeight (cover first canvas))];
       HtmlKit.S :=
         map (fun i => {| fwidth := vw; fheight := vh;
                          still := Some (nmul (ndiv (Fin d) (of_nat (S m))) (of_nat i)) |})
             (seq 0 (S m));
       HtmlKit.n := HtmlKit.READY;
       HtmlKit.v_currentTime := nmul (ndiv (Fin d) (of_nat (S m))) (of_nat m);
       HtmlKit.kit_task := Returned |}).
  { rewrite E. unfold HtmlKit.kit_finish, HtmlKit.R.
    cbn [HtmlKit.S HtmlKit.c HtmlKit.kit_window HtmlKit.kit_open].
    rewrite D_unfold.
    change (@of_nat num _ 0) with (Fin 0).
    rewrite (@first_frame_index _ first
               (map (fun i => {| fwidth := vw; fheight := vh;
                                 still := Some (nmul (ndiv (Fin d) (of_nat (S m))) (of_nat i)) |})
                    (seq 1 m))).
    - reflexivity.
    - cbn [seq map]. rewrite first_timestamp by exact HN. reflexivity. }
  split; [|split; [|split]].
  - rewrite Efin. reflexivity.
  - rewrite Efin. reflexivity.
  - rewrite Efin. reflexivity.
  - destruct (@kit_settled_run _ _ (S m) post kit) as (_ & _ & N2).
    + left. rewrite Efin. reflexivity.
    + rewrite N2, Efin. reflexivity.
Qed.


(** X5.  The countdown of the kit at any moment of any history: as long as
    it shows a number the sampling has not returned, fewer than [N] frames
    are stored, and the number is 10 before the first capture and
    [ceil (10 - 9 k / N)], between 2 and 10, with [k] frames stored; the
    texts READY and ERROR appear only once the sampling has returned. *)
Theorem kit_countdown
    (N : nat) (window0 : Window) (container0 : Container num)
    (evs : list (Event num)) :
  (1 <= N)%nat ->
  let kit := HtmlKit.kit_run N (HtmlKit.kit_open window0 container0) evs in
  let k := length (HtmlKit.S kit) in
  match HtmlKit.n kit with
  | HtmlKit.Count v =>
      HtmlKit.kit_task kit <> Returned /\ (k < N)%nat
      /\ exists a : Z,
           v = of_Z a /\ (2 <= a <= 10)%Z
           /\ (k = 0%nat -> a = 10%Z)
           /\ ((1 <= k)%nat -> a = Qceiling (10 - natQ k / natQ N * 9))
  | HtmlKit.READY | HtmlKit.ERROR => HtmlKit.kit_task kit = Returned
  end.
Proof.
  intros HN kit k.
  pose proof (kit_counting N window0 container0 evs) as I.
  fold kit in I.
  assert (C : forall i, (i < N)%nat ->
            HtmlKit.n kit =
              match i with
              | O => HtmlKit.Count (of_nat 10)
              | _ => HtmlKit.Count
                       (Math_max (of_nat 1)
                          (Math_ceil (nsub (@of_nat num _ 10)
                             (nmul (ndiv (of_nat i) (of_nat N)) (of_nat 9)))))
              end ->
            length (HtmlKit.S kit) = i ->
            HtmlKit.kit_task kit <> Returned ->
            match HtmlKit.n kit with
            | HtmlKit.Count v =>
                HtmlKit.kit_task kit <> Returned /\ (k < N)%nat
                /\ exists a : Z,
                     v = of_Z a /\ (2 <= a <= 10)%Z
                     /\ (k = 0%nat -> a = 10%Z)
                     /\ ((1 <= k)%nat -> a = Qceiling (10 - natQ k / natQ N * 9))
            | HtmlKit.READY | HtmlKit.ERROR => HtmlKit.kit_task kit = Returned
            end).
  { intros i Lt En L NR. unfold k. rewrite En, L.
    destruct i as [|i].
    - split; [exact NR|]. split; [exact Lt|].
      exists 10%Z. split; [reflexivity|]. split; [lia|]. split; [reflexivity|lia].
    - destruct (@countdown_exact N (S i)) as (a & Ea & Fa & Ba & Ta); [lia|].
      split; [exact NR|]. split; [exact Lt|].
      exists a. split; [exact Ea|]. split; [specialize (Ta Lt); lia|].
      split; [discriminate|]. intros _. exact Fa. }
  destruct (HtmlKit.kit_task kit) as [|i d w h| |] eqn:T.
  - destruct I as [S0 N0]. apply (C 0%nat); [lia|exact N0|now rewrite S0|discriminate].
  - destruct I as (L & Lt & Cn). apply (C i); [exact Lt|exact Cn|exact L|discriminate].
  - destruct I as (k0 & L & Lt & Cn).
    apply (C k0); [exact Lt|exact Cn|exact L|discriminate].
  - destruct I as [R|R]; rewrite R; reflexivity.
Qed.

End KitExact.

(* ================================================================== *)
(** ** More on the preview: durations that are not numbers *)

Section PreviewExact.

Import Exact.
Local Open Scope Q_scope.

(** With a duration that is NaN or infinite the first seek target is NaN. *)
Lemma non_finite_first (N : nat) (d : num) :
  finite d = false ->
  isFinite (nmul (ndiv d (of_nat N)) (of_nat 0)) = false.
Proof.
  intros NF. cbn [of_nat ndiv nmul isFinite number].
  destruct d as [| | |q]; [reflexivity| | |discriminate].
  - unfold div, by_sign. destruct (natQ N ?= 0); reflexivity.
  - unfold div, by_sign. destruct (natQ N ?= 0); reflexivity.
Qed.

(** X7.  A video whose duration is NaN or infinite makes the first
    assignment to [currentTime] throw: the error is caught and logged
    once, no frame and no progress value is ever stored, and the
    component never becomes ready. *)
Theorem unplayable_duration_is_reported
    (N : nat) (d : num) (w h : nat) (window0 : Window)
    (container0 : Container num) (pre post : list (Event num)) :
  (1 <= N)%nat -> finite d = false ->
  (forall d' w' h', ~ In (loadedmetadata d' w' h') pre) -> ~ In cleanup pre ->
  let st := run N (mount window0 container0) (pre ++ loadedmetadata d w h :: post) in
  console st = ["Frame extraction failed"%string]
  /\ framesRef st = []
  /\ loadingProgress st = []
  /\ isReady st = false.
Proof.
  intros HN NF NM NC st. unfold st. rewrite run_app.
  destruct (@unplayable_run _ _ N (run N (mount window0 container0) pre) d w h post)
    as (_ & C & F & P & R).
  - apply fresh_run; [exact NM|apply mount_fresh].
  - rewrite active_run by exact NC. reflexivity.
  - exact HN.
  - now apply non_finite_first.
  - auto.
Qed.

(** X8.  On such a video the kit shows ERROR and stores no frame. *)
Theorem kit_unplayable_duration_shows_error
    (N : nat) (d : num) (w h : nat) (window0 : Window)
    (container0 : Container num) (pre post : list (Event num)) :
  (1 <= N)%nat -> finite d = false ->
  (forall d' w' h', ~ In (loadedmetadata d' w' h') pre) ->
  let kit :=
    HtmlKit.kit_run N (HtmlKit.kit_open window0 container0)
      (pre ++ loadedmetadata d w h :: post) in
  HtmlKit.n kit = HtmlKit.ERROR /\ HtmlKit.S kit = [].
Proof.
  intros HN NF NM kit. unfold kit. rewrite kit_run_app.
  destruct (@kit_waiting_run _ _ N pre (HtmlKit.kit_open window0 container0) NM eq_refl)
    as (T & S0 & _).
  destruct (@kit_unplayable_run _ _ N
              (HtmlKit.kit_run N (HtmlKit.kit_open window0 container0) pre)
              d w h post T HN (non_finite_first N d NF)) as (_ & E & S1).
  split; [exact E|]. rewrite S1, S0. reflexivity.
Qed.

End PreviewExact.

(* ================================================================== *)
(** ** A second video in the same preview *)

Section RerunFacts.

Context {num : Type} `{JSNumber num}.
Local Open Scope js_scope.

Variable N : nat.
Variables (d : num) (vw vh : nat).
Hypothesis finite_times : forall i, (i < N)%nat -> isFinite ((d / $N) * $i) = true.

(** A sampling in progress, from any state that waits for the metadata:
    what was stored before stays in front. *)
Lemma sampling_from (st : Preview num) (k : nat) :
  task st = AwaitMetadata -> isActive st = true -> (k < N)%nat ->
  run N st (loadedmetadata d vw vh :: repeat (seeked Drawn) k)
  = {| window := window st;
       containerRef := containerRef st;
       canvasRef :=
         match canvasRef st with
         | Some canvas => Some (fit_window canvas (window st))
         | None => None
         end;
       framesRef :=
         framesRef st ++
         map (fun i => {| fwidth := vw; fheight := vh;
                          still := Some ((d / $N) * $i) |}) (seq 0 k);
       loadingProgress :=
         loadingProgress st ++
         map (fun i => Math_floor (($i / $N) * $100)) (seq 0 k);
       isReady := isReady st;
       isActive := true;
       currentTime := (d / $N) * $k;
       console := console st;
       task := AwaitSeeked k d vw vh |}.
Proof.
  intros T A. induction k as [|k IH]; intros Hk.
  - cbn [repeat run fold_left step]. rewrite T.
    unfold iteration. destruct (Nat.ltb_spec 0 N); [|lia].
    cbn [isActive set_canvas]. rewrite A. cbn [negb].
    rewrite finite_times by lia.
    unfold seek, set_canvas.
    cbn [window containerRef canvasRef framesRef loadingProgress
         isReady isActive console seq map].
    rewrite A, !app_nil_r. reflexivity.
  - replace (loadedmetadata d vw vh :: repeat (@seeked num Drawn) (S k))
      with ((loadedmetadata d vw vh :: repeat (@seeked num Drawn) k)
              ++ [seeked Drawn]).
    2:{ cbn [app]. f_equal. symmetry. apply (repeat_cons k (@seeked num Drawn)). }
    rewrite run_app, IH by lia.
    cbn [run fold_left step task onSeeked currentTime].
    unfold iteration. destruct (Nat.ltb_spec (S k) N); [|lia].
    cbn [isActive captured negb]. rewrite finite_times by lia.
    unfold seek, captured.
    cbn [window containerRef canvasRef framesRef loadingProgress
         isReady isActive console].
    rewrite !seq_S, !map_app, !app_assoc. reflexivity.
Qed.

End RerunFacts.

Section RerunDrawing.

Context {num : Type} `{JSNumber num}.
Local Open Scope js_scope.

Import ScrollPreviewRerun.

(** X10.  [framesRef] is never emptied.  When a second video is sampled
    in a preview that has completed a first one, the frames of the first
    video stay at the front of the list and the new frames are appended
    behind them; [isReady] is still set, so the scroll listener is live
    during the second sampling and draws from the mixed list: where the
    index it computes is 0, it paints the first frame of the first
    video. *)
Theorem rerun_keeps_previous_frames
    (N k : nat) (d1 d2 : num) (w1 h1 w2 h2 : nat) (window0 : Window)
    (container0 scrolled : Container num) :
  (1 <= N)%nat -> (k < N)%nat ->
  (forall i, (i < N)%nat -> isFinite ((d1 / $N) * $i) = true) ->
  (forall i, (i < N)%nat -> isFinite ((d2 / $N) * $i) = true) ->
  array_index (Math_floor (scrollPercent scrolled * ($(N + k) - $1))) = Some 0%nat ->
  let first :=
    run N (mount window0 container0)
      (loadedmetadata d1 w1 h1 :: repeat (seeked Drawn) N) in
  let second :=
    run N (rerun first)
      (loadedmetadata d2 w2 h2 :: repeat (seeked Drawn) k) in
  let old_first := {| fwidth := w1; fheight := h1; still := Some ((d1 / $N) * $0) |} in
  let canvas := {| width := innerWidth window0; height := innerHeight window0;
                   has2d := true; paint := [] |} in
  task first = Returned
  /\ isReady second = true
  /\ framesRef second =
       map (fun i => {| fwidth := w1; fheight := h1;
                        still := Some ((d1 / $N) * $i) |}) (seq 0 N)
       ++ map (fun i => {| fwidth := w2; fheight := h2;
                           still := Some ((d2 / $N) * $i) |}) (seq 0 k)
  /\ canvasRef (step N second (scroll scrolled)) =
       Some (draw canvas
               [clearRect $0 $0 $(innerWidth window0) $(innerHeight window0);
                drawImage old_first
                  (offsetX (cover old_first canvas)) (offsetY (cover old_first canvas))
                  (drawWidth (cover old_first canvas))
                  (drawHeight (cover old_first canvas))]).
Proof.
  intros HN Hk Hfin1 Hfin2 Htop first second old_first canvas.
  set (frames1 :=
    map (fun i => {| fwidth := w1; fheight := h1; still := Some ((d1 / $N) * $i) |})
        (seq 0 N)).
  set (frames2 :=
    map (fun i => {| fwidth := w2; fheight := h2; still := Some ((d2 / $N) * $i) |})
        (seq 0 k)).
  destruct (handleScroll_keeps frames1 (Some container0) canvas)
    as (cv & Ecv & C2 & CW & CH).
  assert (E1 : first =
    {| window := window0;
       containerRef := Some container0;
       canvasRef := Some cv;
       framesRef := frames1;
       loadingProgress :=
         map (fun i => Math_floor (($i / $N) * $100)) (seq 0 N);
       isReady := true;
       isActive := true;
       currentTime := (d1 / $N) * $(N - 1);
       console := [];
       task := Returned |}).
  { unfold first.
    rewrite (@preview_complete _ _ N window0 container0 d1 w1 h1 Hfin1 HN).
    fold frames1. fold canvas. rewrite Ecv. reflexivity. }
  assert (E2 : second =
    {| window := window0;
       containerRef := Some container0;
       canvasRef := Some canvas;
       framesRef := frames1 ++ frames2;
       loadingProgress :=
         map (fun i => Math_floor (($i / $N) * $100)) (seq 0 N)
         ++ map (fun i => Math_floor (($i / $N) * $100)) (seq 0 k);
       isReady := true;
       isActive := true;
       currentTime := (d2 / $N) * $k;
       console := [];
       task := AwaitSeeked k d2 w2 h2 |}).
  { unfold second.
    rewrite (@sampling_from _ _ N d2 w2 h2 Hfin2 (rerun first) k eq_refl eq_refl Hk).
    rewrite E1. unfold rerun.
    cbn [window containerRef canvasRef framesRef loadingProgress isReady console].
    unfold fit_window. rewrite C2. reflexivity. }
  split; [rewrite E1; reflexivity|].
  split; [rewrite E2; reflexivity|].
  split; [rewrite E2; reflexivity|].
  rewrite E2.
  cbn [step set_layout isReady containerRef framesRef canvasRef set_canvas window].
  unfold handleScroll, frameIndex, array_get.
  assert (EL : length (frames1 ++ frames2) = (N + k)%nat).
  { unfold frames1, frames2. now rewrite length_app, !length_map, !length_seq. }
  rewrite EL, Htop.
  assert (E0 : nth_error (frames1 ++ frames2) 0 = Some old_first).
  { unfold frames1.
    assert (ES : seq 0 N = 0%nat :: seq 1 (N - 1)).
    { destruct N; [lia|]. cbn [seq]. do 2 f_equal. lia. }
    rewrite ES. reflexivity. }
  rewrite E0. reflexivity.
Qed.

End RerunDrawing.

(* ================================================================== *)
(** ** The GIF capture *)

Section GifFacts.

Context {num : Type} `{JSNumber num}.
Local Open Scope js_scope.

Lemma gif_turn_failed (step : num) (ctx : bool) (l : list nat) :
  fold_left (gif_turn step ctx) l None = None.
Proof. induction l as [|i l IH]; [reflexivity|exact IH]. Qed.

Lemma gif_fold_images (step : num) (ctx : bool) (l : list nat) :
  forall g g' : GifCapture num,
  fold_left (gif_turn step ctx) l (Some g) = Some g' ->
  exists added,
    images g' = images g ++ added
    /\ length added = (if ctx then length l else 0%nat).
Proof.
  induction l as [|i l IH]; intros g g' E.
  - injection E as <-. exists []. rewrite app_nil_r. now destruct ctx.
  - cbn [fold_left] in E. unfold gif_turn at 2 in E.
    destruct (if _ > _ then _ else _) as [t|]; [|now rewrite gif_turn_failed in E].
    destruct (IH _ _ E) as (added & Ea & La). cbn [images] in Ea.
    destruct ctx.
    + exists (t :: added). rewrite Ea, <- app_assoc. split; [reflexivity|].
      cbn [length]. now rewrite La.
    + exists added. auto.
Qed.

(** X11.  When the capture loop ends without an exception it hands the
    encoder one picture per requested frame, or none at all when the
    canvas has no 2d context: the seeks are made all the same and the
    encoder is called with an empty list. *)
Theorem gif_picture_count
    (frames : nat) (duration : num) (ctx : bool) (pictures : list num) :
  gif_images frames duration ctx = Some pictures ->
  length pictures = (if ctx then frames else 0%nat).
Proof.
  unfold gif_images. intros E.
  destruct (fold_left _ _ _) as [g'|] eqn:EF; [|discriminate].
  injection E as <-.
  apply gif_fold_images in EF as (added & Ea & La).
  cbn [images app] in Ea. rewrite Ea, La, length_seq. reflexivity.
Qed.

End GifFacts.

Section GifSpacing.

Context {num : Type} `{JSNumber num}.
Local Open Scope js_scope.

(** The capture loop while every later seek target is a finite number
    above 0 and the first is not above 0. *)
Lemma gif_sampling (n : nat) (step : num) :
  ($0 * step > $0) = false ->
  (forall i, (1 <= i)%nat -> (i < n)%nat ->
     ($i * step > $0) = true /\ isFinite ($i * step) = true) ->
  forall k, (k < n)%nat ->
  fold_left (gif_turn step true) (seq 0 (S k))
    (Some {| gif_currentTime := $0; images := [] |})
  = Some {| gif_currentTime := match k with O => $0 | _ => $k * step end;
            images := $0 :: map (fun i => $i * step) (seq 1 k) |}.
Proof.
  intros H0 Hi. induction k as [|k IH]; intros Hk.
  - cbn [seq fold_left gif_turn gif_currentTime images map app]. rewrite H0.
    reflexivity.
  - rewrite seq_S, fold_left_app, IH by lia. cbn [Nat.add fold_left].
    unfold gif_turn. cbn [gif_currentTime images].
    destruct (Hi (S k)) as [G F]; [lia|lia|]. rewrite G, F.
    rewrite seq_S, map_app. reflexivity.
Qed.

(** X12.  For a duration [d] and [n >= 1] requested frames such that the
    first time computed, [0 * (d / n)], is not above 0 and every later
    one, [i * (d / n)], is a finite number above 0 (as for a finite
    duration above 0), the pictures handed to the encoder are, in this
    order, the one the video shows at the start, taken without a seek,
    and those at the times [i * (d / n)] for [i = 1 .. n - 1], each
    computed in the arithmetic of the program. *)
Theorem gif_images_evenly_spaced (n : nat) (d : num) :
  (1 <= n)%nat ->
  ($0 * (d / $n) > $0) = false ->
  (forall i, (1 <= i)%nat -> (i < n)%nat ->
     ($i * (d / $n) > $0) = true /\ isFinite ($i * (d / $n)) = true) ->
  gif_images n d true
  = Some ($0 :: map (fun i => $i * (d / $n)) (seq 1 (n - 1))).
Proof.
  intros Hn H0 Hi. unfold gif_images.
  replace n with (S (n - 1)) at 2 by lia.
  rewrite (@gif_sampling n (d / $n) H0 Hi (n - 1)%nat) by lia.
  destruct (n - 1)%nat; reflexivity.
Qed.


End GifSpacing.

Section GifExact.

Import Exact.
Local Open Scope Q_scope.

Lemma gif_nan_sampling (n : nat) (ctx : bool) (l : list nat) :
  forall acc,
  fold_left (gif_turn (ndiv NaN (of_nat n)) ctx) l
    (Some {| gif_currentTime := Fin 0; images := acc |})
  = Some {| gif_currentTime := Fin 0;
            images := if ctx then acc ++ repeat (Fin 0) (length l) else acc |}.
Proof.
  induction l as [|i l IH]; intros acc.
  - cbn [fold_left length repeat]. rewrite app_nil_r. now destruct ctx.
  - cbn [fold_left]. unfold gif_turn at 2. cbn [gif_currentTime images].
    change (ngt (nmul (of_nat i) (ndiv NaN (of_nat n))) (of_nat 0)) with false.
    cbn iota. rewrite IH. destruct ctx; [|reflexivity].
    rewrite <- app_assoc. reflexivity.
Qed.

(** X13.  Durations that are not finite numbers.  With duration NaN no seek
    is ever made and every picture is the one at time 0.  With an infinite
    duration (a stream) and at least two frames the second seek target is
    [Infinity], the assignment to [currentTime] throws, and the capture
    ends in the [catch] clause without calling the encoder. *)
Theorem gif_of_unusable_duration (n : nat) (ctx : bool) :
  gif_images n NaN true = Some (repeat (Fin 0) n)
  /\ ((2 <= n)%nat -> gif_images n PInf ctx = None).
Proof.
  split.
  - unfold gif_images. change (@of_nat num _ 0) with (Fin 0).
    rewrite gif_nan_sampling, length_seq. reflexivity.
  - intros Hn. unfold gif_images.
    assert (PN : 0 < natQ n) by (apply natQ_pos; lia).
    assert (ES : ndiv PInf (@of_nat num _ n) = PInf).
    { cbn [of_nat ndiv number]. unfold div, by_sign.
      destruct (natQ n ?= 0) eqn:C; [reflexivity| |reflexivity].
      apply Qlt_alt in C. lra. }
    rewrite ES.
    destruct n as [|[|m]]; [lia|lia|].
    cbn [seq fold_left]. unfold option_map.
    change (gif_turn PInf ctx
              (gif_turn PInf ctx
                 (Some {| gif_currentTime := of_nat 0; images := [] |}) 0) 1)
      with (@None (GifCapture num)).
    now rewrite gif_turn_failed.
Qed.

(** X15.  Before the metadata of the displayed video has arrived
    ([videoDuration] is 0), or when its duration is NaN, [getFrames] falls
    back to 8 seconds: [floor (80 / divisor)] frames, 80, 40 and 20 for
    the three buttons.  An infinite duration is passed on as the frame
    count [Infinity]. *)
Theorem getFrames_fallback (divisor : nat) :
  (1 <= divisor)%nat ->
  getFrames (Fin 0) divisor = of_Z (80 / Z.of_nat divisor)
  /\ getFrames NaN divisor = of_Z (80 / Z.of_nat divisor)
  /\ getFrames PInf divisor = PInf.
Proof.
  intros Hk. pose proof (natQ_pos Hk) as PK.
  assert (EP : Z.pos (Pos.of_nat divisor) = Z.of_nat divisor).
  { rewrite <- positive_nat_Z, Nat2Pos.id by lia. reflexivity. }
  assert (E : Math_floor (nmul (ndiv (@of_nat num _ 8) (of_nat divisor)) (of_nat 10))
              = of_Z (80 / Z.of_nat divisor)).
  { cbn [of_nat ndiv nmul Math_floor number]. rewrite div_fin by lra.
    unfold fin. cbn [mul]. unfold fin. cbn [floor]. f_equal.
    change (natQ 8) with 8. change (natQ 10) with 10.
    assert (EQ : Qred (Qred (8 / natQ divisor) * 10)
                 == 80 # Pos.of_nat divisor).
    { assert (E1 : Qred (8 / natQ divisor) == 8 / natQ divisor)
        by apply Qred_correct.
      set (a := Qred (8 / natQ divisor)) in *. clearbody a.
      assert (E2 : Qred (a * 10) == a * 10) by apply Qred_correct.
      set (b := Qred (a * 10)) in *. clearbody b.
      rewrite E2, E1, (Qmake_Qdiv 80 (Pos.of_nat divisor)), EP. fold (natQ divisor).
      change (inject_Z 80) with 80. field. lra. }
    rewrite (Qfloor_comp _ _ EQ). unfold Qfloor. now rewrite EP. }
  split; [|split].
  - exact E.
  - exact E.
  - unfold getFrames. cbn [ngt of_nat number gt orb].
    cbn [ndiv nmul Math_floor number]. unfold div, by_sign.
    destruct (natQ divisor ?= 0) eqn:C.
    + apply Qeq_alt in C. lra.
    + apply Qlt_alt in C. lra.
    + reflexivity.
Qed.

End GifExact.

(* ================================================================== *)
(** ** The generation service *)

Section ServiceFacts.

Import Service.

Variable API_KEY : string.
Variable decode : string -> string + string.
Variable createObjectURL : string -> string.

Local Abbreviation call params server :=
  (generateVideo API_KEY decode createObjectURL params server).

(** An answer that ends the polling: a rejection, or an operation that is
    done. *)
Local Abbreviation settles answer :=
  (match answer with inl operation => done operation | inr _ => true end).

Lemma map_constant (A B : Type) (c : B) (l : list A) :
  map (fun _ => c) l = repeat c (length l).
Proof. induction l as [|a l IH]; cbn; [reflexivity|now rewrite IH]. Qed.

Lemma payload_error (params : Params.t) (e : Thrown) :
  generateVideoPayload params = inr e ->
  Params.mode params = EXTEND_VIDEO /\ Params.inputVideoObject params = None
  /\ e = Error "An input video object is required to extend a video.".
Proof.
  unfold generateVideoPayload. intros P.
  destruct (Params.mode params); try discriminate P.
  - destruct (Params.startFrame params), (Params.isLooping params),
      (Params.endFrame params); discriminate P.
  - destruct (0 <? _)%nat; discriminate P.
  - destruct (Params.inputVideoObject params); [discriminate P|].
    injection P as <-. auto.
Qed.

Lemma submitted_payload (params : Params.t) (server : Server) (p : Payload.t) :
  generateVideoPayload params = inl p -> submitted (call params server) = Some p.
Proof.
  intros P. unfold generateVideo. rewrite P.
  destruct (generateVideos server p) as [operation|reason]; [|reflexivity].
  destruct (poll _ _ _) as [[[op|reason] polls]|]; try reflexivity.
  destruct (generatedVideo decode op) as [[v url]|e]; reflexivity.
Qed.

(** X17.  [generateVideo] rejects before submitting anything in exactly one
    case, an extension without an input video object; in every other case
    the request it builds is submitted, whatever the server answers. *)
Theorem request_withheld_only_without_input_video
    (params : Params.t) (server : Server) :
  (submitted (call params server) = None <->
     Params.mode params = EXTEND_VIDEO /\ Params.inputVideoObject params = None)
  /\ (submitted (call params server) = None ->
      waits (call params server) = 0%nat
      /\ fetched (call params server) = None
      /\ outcome (call params server) =
           Rejected (Error "An input video object is required to extend a video.")).
Proof.
  destruct (generateVideoPayload params) as [p|e] eqn:P.
  - rewrite (@submitted_payload params server p P).
    split; [split; [discriminate|]|discriminate].
    intros [M I]. unfold generateVideoPayload in P. rewrite M, I in P.
    discriminate P.
  - destruct (@payload_error params e P) as (M & I & ->).
    unfold generateVideo. rewrite P. cbn.
    split; [split; auto|intros _; auto].
Qed.

(** X18.  Each optional part of the request belongs to one mode: a first
    image or a last frame is sent only for frames-to-video, reference
    images only for references-to-video, an input video only for an
    extension.  The aspect ratio is left out exactly for an extension and
    the prompt exactly when it is empty; model and resolution are always
    those of the parameters, and one video is asked for. *)
Theorem request_parts_by_mode (params : Params.t) (p : Payload.t) :
  generateVideoPayload params = inl p ->
  (Payload.image p <> None -> Params.mode params = FRAMES_TO_VIDEO)
  /\ (Config.lastFrame (Payload.config p) <> None ->
      Params.mode params = FRAMES_TO_VIDEO)
  /\ (Config.referenceImages (Payload.config p) <> None ->
      Params.mode params = REFERENCES_TO_VIDEO)
  /\ (Payload.video p <> None -> Params.mode params = EXTEND_VIDEO)
  /\ (Config.aspectRatio (Payload.config p) = None <->
      Params.mode params = EXTEND_VIDEO)
  /\ (Params.mode params <> EXTEND_VIDEO ->
      Config.aspectRatio (Payload.config p) = Some (Params.aspectRatio params))
  /\ (Payload.prompt p = None <-> Params.prompt params = EmptyString)
  /\ (Params.prompt params <> EmptyString ->
      Payload.prompt p = Some (Params.prompt params))
  /\ Payload.model p = Params.model params
  /\ Config.resolution (Payload.config p) = Params.resolution params
  /\ Config.numberOfVideos (Payload.config p) = 1%nat.
Proof.
  unfold generateVideoPayload. intros P.
  assert (Prompt : forall s,
             ((if nonempty s then Some s else None) = None <-> s = EmptyString)
             /\ (s <> EmptyString -> (if nonempty s then Some s else None) = Some s)).
  { intros [|a s]; cbn; split; try split; try discriminate; auto.
    intros C. now destruct C. }
  destruct (Prompt (Params.prompt params)) as [P1 P2].
  destruct (Params.mode params) eqn:M.
  - destruct (Params.startFrame params), (Params.isLooping params),
      (Params.endFrame params); injection P as <-; cbn;
      (split; [auto|]); (split; [auto|]);
      (split; [intros C; now destruct C|]);
      (split; [intros C; now destruct C|]);
      (split; [split; discriminate|]); auto 10.
  - destruct (0 <? _)%nat; injection P as <-; cbn;
      (split; [intros C; now destruct C|]);
      (split; [intros C; now destruct C|]);
      (split; [auto|]);
      (split; [intros C; now destruct C|]);
      (split; [split; discriminate|]); auto 10.
  - destruct (Params.inputVideoObject params); [|discriminate P].
    injection P as <-. cbn.
    (split; [intros C; now destruct C|]);
      (split; [intros C; now destruct C|]);
      (split; [intros C; now destruct C|]);
      (split; [auto|]);
      (split; [split; auto|]);
      (split; [intros C; now destruct C|]); auto 10.
  - injection P as <-. cbn.
    (split; [intros C; now destruct C|]);
      (split; [intros C; now destruct C|]);
      (split; [intros C; now destruct C|]);
      (split; [intros C; now destruct C|]);
      (split; [split; discriminate|]); auto 10.
Qed.

(** X19.  Frames-to-video: the first image is the start frame; the last
    frame is the end frame, except when looping, where it is the start
    frame again and the end frame is not looked at. *)
Theorem frames_request (params : Params.t) :
  Params.mode params = FRAMES_TO_VIDEO ->
  exists p,
    generateVideoPayload params = inl p
    /\ Payload.image p = option_map image_of (Params.startFrame params)
    /\ Config.lastFrame (Payload.config p) =
         option_map image_of
           (if Params.isLooping params then Params.startFrame params
            else Params.endFrame params)
    /\ (Params.isLooping params = true ->
        Config.lastFrame (Payload.config p) = Payload.image p)
    /\ Config.referenceImages (Payload.config p) = None
    /\ Payload.video p = None.
Proof.
  intros M. unfold generateVideoPayload. rewrite M.
  destruct (Params.startFrame params), (Params.isLooping params),
    (Params.endFrame params); eexists; (split; [reflexivity|]); cbn;
    repeat split; auto; discriminate.
Qed.

(** X20.  References-to-video: the references sent are the reference images
    in their order, each as an asset, followed by the style image as a
    style reference; with neither, no list is sent (never an empty one). *)
Theorem references_request (params : Params.t) :
  Params.mode params = REFERENCES_TO_VIDEO ->
  let imgs :=
    match Params.referenceImages params with Some l => l | None => [] end in
  let style :=
    match Params.styleImage params with Some s => [s] | None => [] end in
  exists p,
    generateVideoPayload params = inl p
    /\ match Config.referenceImages (Payload.config p) with
       | Some refs =>
           refs <> []
           /\ map image refs = map image_of (imgs ++ style)
           /\ map referenceType refs =
                repeat ASSET (length imgs) ++ repeat STYLE (length style)
       | None => imgs = [] /\ style = []
       end
    /\ Payload.image p = None
    /\ Config.lastFrame (Payload.config p) = None
    /\ Payload.video p = None.
Proof.
  intros M imgs style. unfold generateVideoPayload. rewrite M.
  set (assets := match Params.referenceImages params with
                 | Some l => map (fun img => {| image := image_of img;
                                                referenceType := ASSET |}) l
                 | None => []
                 end).
  assert (EA : assets = map (fun img => {| image := image_of img;
                                           referenceType := ASSET |}) imgs).
  { unfold assets, imgs. now destruct (Params.referenceImages params). }
  set (refs := match Params.styleImage params with
               | Some s => assets ++ [{| image := image_of s; referenceType := STYLE |}]
               | None => assets
               end).
  assert (ER : refs = assets ++ map (fun s => {| image := image_of s;
                                                 referenceType := STYLE |}) style).
  { unfold refs, style. destruct (Params.styleImage params); cbn;
      [reflexivity|now rewrite app_nil_r]. }
  assert (Himg : map image refs = map image_of (imgs ++ style)).
  { rewrite ER, EA, !map_app, !map_map. reflexivity. }
  assert (Htyp : map referenceType refs =
                 repeat ASSET (length imgs) ++ repeat STYLE (length style)).
  { rewrite ER, EA, map_app, !map_map. cbn [referenceType].
    now rewrite !map_constant. }
  destruct (Nat.ltb_spec 0 (length refs)) as [L|L];
    eexists; (split; [reflexivity|]); cbn; repeat split; auto.
  - intros E. rewrite E in L. cbn in L. lia.
  - assert (E : refs = []) by (destruct refs; [reflexivity|cbn in L; lia]).
    rewrite E in Himg. symmetry in Himg. apply map_eq_nil in Himg.
    now apply app_eq_nil in Himg.
  - assert (E : refs = []) by (destruct refs; [reflexivity|cbn in L; lia]).
    rewrite E in Himg. symmetry in Himg. apply map_eq_nil in Himg.
    now apply app_eq_nil in Himg.
Qed.

(** *** Polling and the finished operation *)

Lemma poll_first_settled (answers : list (Operation + string)) :
  forall (operation : Operation) (n : nat),
  match poll operation answers n with
  | Some (a, polls) =>
      exists k, polls = (n + k)%nat
        /\ nth_error (inl operation :: answers) k = Some a
        /\ settles a = true
        /\ forall i o, (i < k)%nat ->
             nth_error (inl operation :: answers) i = Some o -> settles o = false
  | None => forall o, In o (inl operation :: answers) -> settles o = false
  end.
Proof.
  induction answers as [|next answers IH]; intros operation n; cbn [poll].
  - destruct (done operation) eqn:D.
    + exists 0%nat. split; [lia|]. split; [reflexivity|]. split; [exact D|].
      intros i o L. lia.
    + intros o [<-|[]]. exact D.
  - destruct (done operation) eqn:D.
    + exists 0%nat. split; [lia|]. split; [reflexivity|]. split; [exact D|].
      intros i o L. lia.
    + destruct next as [next|reason].
      * specialize (IH next (S n)).
        destruct (poll next answers (S n)) as [[a polls]|].
        -- destruct IH as (k & -> & Hk & Dk & Before).
           exists (S k). split; [lia|]. split; [exact Hk|]. split; [exact Dk|].
           intros [|i] o L E.
           ++ injection E as <-. exact D.
           ++ apply (Before i o); [lia|exact E].
        -- intros o [<-|I]; [exact D|now apply IH].
      * exists 1%nat. split; [lia|]. split; [reflexivity|]. split; [reflexivity|].
        intros [|[|i]] o L E; [|lia|lia].
        injection E as <-. exact D.
Qed.

(** X21.  The loop polls until the first answer that settles it, a done
    operation or a rejection: when the answer at position [k], among the
    one to the request itself and the later answers of the server, is the
    first such, exactly [k] polls (each after a ten-second wait) are made
    and the call does not keep polling, and a rejection is passed on with
    nothing fetched; when no answer settles the loop, every answer has
    been asked for and the call is still polling, nothing fetched. *)
Theorem polling_stops_at_first_settled
    (params : Params.t) (server : Server) (payload : Payload.t) :
  generateVideoPayload params = inl payload ->
  let answers := generateVideos server payload :: getVideosOperation server in
  (forall k a,
      nth_error answers k = Some a -> settles a = true ->
      (forall i o, (i < k)%nat -> nth_error answers i = Some o -> settles o = false) ->
      waits (call params server) = k
      /\ outcome (call params server) <> Polling
      /\ (forall reason, a = inr reason ->
            outcome (call params server) = Rejected (Upstream reason)
            /\ fetched (call params server) = None))
  /\ ((forall o, In o answers -> settles o = false) ->
      waits (call params server) = length (getVideosOperation server)
      /\ outcome (call params server) = Polling
      /\ fetched (call params server) = None).
Proof.
  intros P answers. unfold generateVideo. rewrite P.
  destruct (generateVideos server payload) as [operation|reason] eqn:G.
  - pose proof (poll_first_settled (getVideosOperation server) operation 0) as H.
    fold answers in H.
    destruct (poll _ _ _) as [[a polls]|].
    + destruct H as (k & -> & Hk & Dk & Before). split.
      * intros k' a' Hk' Dk' Before'.
        assert (E : k' = k).
        { destruct (Nat.lt_trichotomy k' k) as [L|[E|L]]; [|exact E|].
          - rewrite (Before k' a' L Hk') in Dk'. discriminate.
          - rewrite (Before' k a L Hk) in Dk. discriminate. }
        subst k'. assert (a' = a) by congruence. subst a'.
        destruct a as [op|reason].
        -- destruct (generatedVideo decode op) as [[v url]|e]; cbn.
           ++ split; [reflexivity|]. split; [|discriminate].
              destruct (fetch server _) as [res|r]; [|discriminate].
              destruct (ok res); [|discriminate].
              destruct (blob res); discriminate.
           ++ split; [reflexivity|]. split; discriminate.
        -- cbn. split; [reflexivity|]. split; [discriminate|].
           intros r E. injection E as <-. auto.
      * intros All. rewrite (All a) in Dk; [discriminate|].
        eapply nth_error_In, Hk.
    + split.
      * intros k a Hk Dk _. rewrite (H a) in Dk; [discriminate|].
        eapply nth_error_In, Hk.
      * intros _. cbn. auto.
  - split.
    + intros k a Hk Dk Before.
      assert (E : k = 0%nat).
      { destruct k as [|k]; [reflexivity|].
        specialize (Before 0%nat (inr reason)). cbn in Before.
        discriminate Before; [lia|reflexivity]. }
      subst k. cbn in Hk. injection Hk as <-. cbn.
      split; [reflexivity|]. split; [discriminate|].
      intros r E. injection E as <-. auto.
    + intros All. specialize (All (inr reason)). cbn in All.
      discriminate All. now left.
Qed.

(** X22.  When the call resolves, the operation that ended the polling has
    a response whose first generated video carries a non-empty uri; the
    uri returned is that uri decoded, the blob is the body fetched from
    the decoded uri followed by [&key=] and the API key, that fetch was
    ok, and the object URL was made from that blob. *)
Theorem resolved_call
    (params : Params.t) (server : Server)
    (objectUrl body url : string) (videoObject : Video) :
  outcome (call params server) = Resolved objectUrl body url videoObject ->
  exists payload first op polls r rest raw res,
    generateVideoPayload params = inl payload
    /\ generateVideos server payload = inl first
    /\ poll first (getVideosOperation server) 0 = Some (inl op, polls)
    /\ done op = true
    /\ response op = Some r
    /\ generatedVideos r = Some (Some {| video := Some videoObject |} :: rest)
    /\ uri videoObject = Some raw /\ raw <> EmptyString
    /\ decode raw = inl url
    /\ fetched (call params server) = Some (url ++ "&key=" ++ API_KEY)%string
    /\ fetch server (url ++ "&key=" ++ API_KEY)%string = inl res
    /\ ok res = true
    /\ blob res = inl body
    /\ objectUrl = createObjectURL body.
Proof.
  unfold generateVideo.
  destruct (generateVideoPayload params) as [payload|e] eqn:P; [|discriminate].
  destruct (generateVideos server payload) as [first|reason] eqn:G; [|discriminate].
  pose proof (poll_first_settled (getVideosOperation server) first 0) as HP.
  destruct (poll _ _ _) as [[[op|reason] polls]|] eqn:Q; try discriminate.
  destruct HP as (_ & _ & _ & D & _).
  unfold generatedVideo.
  destruct (response op) as [r|] eqn:R; [|discriminate].
  destruct (generatedVideos r) as [[|first' rest]|] eqn:GV; try discriminate.
  destruct first' as [[[v|]]|]; try discriminate.
  cbn [video].
  destruct (uri v) as [raw|] eqn:U; [|discriminate].
  destruct (nonempty raw) eqn:NE; [|discriminate].
  destruct (decode raw) as [u|reason] eqn:DE; [|discriminate].
  cbn [outcome fetched].
  destruct (fetch server _) as [res|reason] eqn:FE; [|discriminate].
  destruct (ok res) eqn:OK; [|discriminate].
  destruct (blob res) as [b|reason] eqn:B; [|discriminate].
  intros E. injection E as <- <- <- <-.
  exists payload, first, op, polls, r, rest, raw, res.
  repeat split; auto.
  intros ->. discriminate NE.
Qed.

(** X23.  When the call rejects with one of its own errors: an [Error] is
    one of the four fixed ones and nothing was fetched; the error with
    the status is thrown only when the fetch was made and answered not
    ok, and carries that answer's status and status text. *)
Theorem rejected_call (params : Params.t) (server : Server) (e : Thrown) :
  outcome (call params server) = Rejected e ->
  match e with
  | Error msg =>
      fetched (call params server) = None
      /\ (msg = "An input video object is required to extend a video."%string
          \/ msg = "No videos were generated."%string
          \/ msg = "Generated video is missing a URI."%string
          \/ msg = "No videos generated."%string)
  | FetchFailed s text =>
      exists target res,
        fetched (call params server) = Some target
        /\ fetch server target = inl res
        /\ ok res = false /\ s = status res /\ text = statusText res
  | Upstream _ => True
  end.
Proof.
  unfold generateVideo.
  destruct (generateVideoPayload params) as [payload|e0] eqn:P.
  - destruct (generateVideos server payload) as [first|reason].
    2:{ cbn. intros E. injection E as <-. exact I. }
    destruct (poll _ _ _) as [[[op|reason] polls]|] eqn:Q; [| |discriminate].
    2:{ cbn. intros E. injection E as <-. exact I. }
    destruct (generatedVideo decode op) as [[v url]|e1] eqn:GV; cbn.
    + destruct (fetch server _) as [res|reason] eqn:FE.
      2:{ intros E. injection E as <-. exact I. }
      destruct (ok res) eqn:OK.
      * destruct (blob res); [discriminate|].
        intros E. injection E as <-. exact I.
      * intros E. injection E as <-. eexists. eexists. eauto.
    + intros E. injection E as <-.
      unfold generatedVideo in GV.
      destruct (response op) as [r|]; [|injection GV as <-; auto].
      destruct (generatedVideos r) as [[|first' rest]|];
        try (injection GV as <-; auto; fail).
      destruct first' as [[[v|]]|]; try (injection GV as <-; auto; fail).
      cbn [video] in GV.
      destruct (uri v) as [raw|]; [|injection GV as <-; auto].
      destruct (nonempty raw); [|injection GV as <-; auto].
      destruct (decode raw); [discriminate GV|injection GV as <-; exact I].
  - destruct (@payload_error params e0 P) as (_ & _ & ->). cbn.
    intros E. injection E as <-. auto.
Qed.

End ServiceFacts.

(* ================================================================== *)
(** ** Worked instances

    A 1600 x 900 window over a page five windows tall, a 640 x 480 video. *)

Local Abbreviation window := ({| innerWidth := 1600; innerHeight := 900 |}).

Local Abbreviation page t :=
  ({| scrollTop := Exact.Fin t; scrollHeight := 4500; clientHeight := 900 |}
   : Container Exact.num).

Local Abbreviation sampling d k :=
  (loadedmetadata (Exact.Fin d) 640 480 :: repeat (seeked Drawn) k
   : list (Event Exact.num)).

Local Abbreviation picture t :=
  ({| fwidth := 640; fheight := 480; still := Some (Exact.Fin t) |}
   : Frame Exact.num).

(** *** Instances of the theorems *)

Lemma draw_without_bitmap_is_noop_witness :
  let canvas : Canvas Exact.num :=
    {| width := 1600; height := 900; has2d := true; paint := [] |} in
  let frames : list (Frame Exact.num) :=
    [{| fwidth := 640; fheight := 480; still := Some (Exact.Fin 0) |}] in
  let container : Container Exact.num :=
    {| scrollTop := Exact.Fin 0; scrollHeight := 900; clientHeight := 900 |} in
  handleScroll frames (Some container) (Some canvas) = Some canvas
  /\ HtmlKit.D frames canvas Exact.NaN = Some canvas.
Proof.
  intros canvas frames container.
  apply (draw_without_bitmap_is_noop frames container canvas Exact.NaN);
    reflexivity.
Defined.

Lemma cancelled_run_witness :
  let st := run 100 (mount window (page 0)) (sampling 10 30) in
  let st' := run 100 (step 100 st cleanup)
                 [seeked Drawn; seeked Drawn; scroll (page 40)] in
  (length (framesRef st') <= length (framesRef st) + 1)%nat
  /\ isReady st' = false.
Proof.
  intros st st'.
  destruct (@cancelled_run_appends_at_most_one_frame Exact.num _ 100
              window (page 0) (sampling 10 30)
              [seeked Drawn; seeked Drawn; scroll (page 40)])
    as (_ & L & _ & R).
  split; [exact L|].
  apply R.
  - vm_compute. reflexivity.
  - vm_compute. lia.
Defined.

Lemma load_failure_is_never_logged_witness :
  let st := run 100 (mount window (page 0))
                [error; scroll (page 40); seeked Drawn; cleanup] in
  task st = AwaitMetadata /\ console st = [] /\ isReady st = false
  /\ framesRef st = [].
Proof.
  apply (@load_failure_is_never_logged Exact.num _ 100 window (page 0)
           [scroll (page 40); seeked Drawn; cleanup]).
  intros d w h [E|[E|[E|[]]]]; discriminate E.
Defined.

(** *** Inputs on which the claims as written fail *)

(** C4: with 30 of 100 frames stored and the 31st seek in flight, [cleanup]
    clears the flag; the [seeked] callback that follows still appends its
    capture.  When the flag is cleared during the last seek, the capture
    is appended and [isReady] is set as well. *)
Lemma capture_appended_after_cancellation :
  let st := run 100 (mount window (page 0)) (sampling 10 30 ++ [cleanup]) in
  let st' := step 100 st (seeked Drawn) in
  let late :=
    run 100 (mount window (page 0)) (sampling 10 99 ++ [cleanup; seeked Drawn]) in
  isActive st = false
  /\ length (framesRef st) = 30%nat
  /\ length (framesRef st') = 31%nat
  /\ length (framesRef st') <> length (framesRef st)
  /\ isReady late = true.
Proof.
  vm_compute. repeat split; try reflexivity. discriminate.
Qed.

(** On a resize the kit redraws at fraction 0, the preview at the
    current scroll position: scrolled to the end of a two-frame set, the
    preview shows the last frame after the resize, the kit the first. *)
Example kit_resize_redraws_first_frame :
  let st := run 2 (mount window (page 3600)) (sampling 8 2) in
  let k := HtmlKit.kit_run 2 (HtmlKit.kit_open window (page 3600))
             (sampling 8 2 ++ [scroll (page 3600)]) in
  let smaller := {| innerWidth := 800; innerHeight := 900 |} in
  option_map (fun cv => last (paint cv) (clearRect Exact.NaN Exact.NaN Exact.NaN Exact.NaN))
             (canvasRef (step 2 st (resize smaller (page 3600))))
  = Some (drawImage (picture 4) (Exact.Fin (-200)) (Exact.Fin 0)
                    (Exact.Fin 1200) (Exact.Fin 900))
  /\ last (paint (HtmlKit.c (HtmlKit.kit_step 2 k (resize smaller (page 3600)))))
          (clearRect Exact.NaN Exact.NaN Exact.NaN Exact.NaN)
     = drawImage (picture 0) (Exact.Fin (-200)) (Exact.Fin 0)
                 (Exact.Fin 1200) (Exact.Fin 900).
Proof. vm_compute. split; reflexivity. Qed.

(** C8: with frame count 0 (which [getFrames] yields for a clip of 0.3 s
    at divisor 4) no capture is taken at all, neither by the preview's
    loop nor by the GIF loop. *)
Lemma no_capture_for_zero_frames :
  let st := run 0 (mount window (page 0)) (sampling 8 0) in
  getFrames (Exact.Fin (3 # 10)) 4 = Exact.of_Z 0
  /\ isReady st = true
  /\ framesRef st = []
  /\ length (framesRef st) <> 1%nat
  /\ gif_images 0 (Exact.Fin (3 # 10)) true = Some [].
Proof.
  vm_compute. repeat split; try reflexivity. discriminate.
Qed.

(** C6: an exception in the [seeked] listener of the first frame stalls
    the run with nothing logged. *)
Example capture_exception_instance :
  let st := run 100 (mount window (page 0))
                [loadedmetadata (Exact.Fin 10) 640 480; seeked Throws;
                 seeked Drawn] in
  task st = Stalled /\ console st = [] /\ isReady st = false
  /\ framesRef st = [].
Proof. vm_compute. repeat split. Qed.

(** The [catch] clause is reached when the assignment to
    [video.currentTime] throws, as for a stream of infinite duration. *)
Example infinite_duration_is_logged :
  let st := run 100 (mount window (page 0)) [loadedmetadata Exact.PInf 640 480] in
  task st = Returned /\ console st = ["Frame extraction failed"%string]
  /\ isReady st = false.
Proof. vm_compute. repeat split. Qed.

(* ================================================================== *)
(** ** The program on binary64 numbers

    The definitions evaluated in the arithmetic of the program, for the
    preview as shipped: 100 frames of a 10 s video of 640 x 480 pixels, in
    a window of 1600 x 900 pixels. *)

Local Abbreviation page64 t :=
  ({| scrollTop := t; scrollHeight := 4500; clientHeight := 900 |}
   : Container Binary64.num).

Local Abbreviation sampling64 k :=
  (loadedmetadata 10%float 640 480 :: repeat (seeked Drawn) k
   : list (Event Binary64.num)).

Local Abbreviation sampled64 :=
  (run FRAME_COUNT (mount window (page64 0%float)) (sampling64 FRAME_COUNT)).

Local Abbreviation picture64 t :=
  ({| fwidth := 640; fheight := 480; still := Some t |} : Frame Binary64.num).

Local Abbreviation last_drawn cv :=
  (match last (paint cv) (clearRect 0%float 0%float 0%float 0%float) with
   | drawImage frame _ _ _ _ => still frame
   | clearRect _ _ _ _ => None
   end).

(** *** Instances of the theorems *)

Lemma sampling_completes_witness :
  isReady sampled64 = true
  /\ length (framesRef sampled64) = 100%nat
  /\ nth_error (framesRef sampled64) 3 = Some (picture64 0x1.3333333333334p-2%float).
Proof.
  destruct (@sampling_completes Binary64.num _ FRAME_COUNT 10%float 640 480
              window (page64 0%float) []) as (R & F & L & _).
  - unfold FRAME_COUNT. lia.
  - apply (forallb_below
             (fun i => isFinite (nmul (ndiv 10%float (of_nat FRAME_COUNT)) (of_nat i)))).
    vm_compute. reflexivity.
  - intros [].
  - split; [exact R|].
    split; [exact (eq_trans (f_equal (@length _) F) L)|].
    etransitivity; [exact (f_equal (fun l => nth_error l 3) F)|].
    vm_compute. reflexivity.
Defined.

Lemma kit_agrees_with_preview_witness :
  let st := run FRAME_COUNT (mount window (page64 1800%float))
              (sampling64 FRAME_COUNT) in
  let k := HtmlKit.kit_run FRAME_COUNT (HtmlKit.kit_open window (page64 1800%float))
             (sampling64 FRAME_COUNT) in
  let st' := step FRAME_COUNT st (scroll (page64 720%float)) in
  let k' := HtmlKit.kit_step FRAME_COUNT k (scroll (page64 720%float)) in
  HtmlKit.S k = framesRef st
  /\ option_map (fun cv => last_drawn cv) (canvasRef st)
     = Some (Some 0x1.399999999999ap+2%float)
  /\ last_drawn (HtmlKit.c k) = Some 0%float
  /\ (exists ops,
        canvasRef st' = option_map (fun cv => draw cv ops) (canvasRef st)
        /\ HtmlKit.c k' = draw (HtmlKit.c k) ops)
  /\ option_map (fun cv => last_drawn cv) (canvasRef st')
     = Some (Some 0x1.e666666666667p+0%float)
  /\ last_drawn (HtmlKit.c k') = Some 0x1.e666666666667p+0%float.
Proof.
  intros st k st' k'.
  destruct (@kit_agrees_with_preview Binary64.num _ FRAME_COUNT window
              (page64 1800%float) (sampling64 FRAME_COUNT) st k
              (match canvasRef st with
               | Some cv => cv
               | None => {| width := 0; height := 0; has2d := false; paint := [] |}
               end)
              (page64 1800%float) (page64 720%float))
    as (A & _ & (ops & Ep & Ek) & _).
  - intros [I|I]; [discriminate I|]. apply repeat_spec in I. discriminate I.
  - intros [I|I]; [discriminate I|]. apply repeat_spec in I. discriminate I.
  - vm_compute. reflexivity.
  - vm_compute. reflexivity.
  - vm_compute. reflexivity.
  - vm_compute. reflexivity.
  - vm_compute. reflexivity.
  - vm_compute. reflexivity.
  - vm_compute. reflexivity.
  - vm_compute. reflexivity.
  - vm_compute. reflexivity.
  - split; [exact A|].
    split; [vm_compute; reflexivity|].
    split; [vm_compute; reflexivity|].
    split; [|split; vm_compute; reflexivity].
    exists ops. split; [|exact Ek].
    etransitivity; [exact Ep|].
    destruct (canvasRef st) eqn:C; [reflexivity|].
    vm_compute in C. discriminate C.
Defined.




Lemma progress_emitted_witness :
  loadingProgress sampled64
  = map (fun i => of_nat (emitted100 i)) (seq 0 100).
Proof.
  destruct progress_emitted as (G & V & _).
  destruct (G Binary64.num _ FRAME_COUNT 10%float 640%nat 480%nat window
              (page64 0%float) (repeat (seeked Drawn) FRAME_COUNT)) as (E & _).
  etransitivity; [exact E|].
  etransitivity; [|exact V].
  apply (f_equal (map _)). apply (f_equal (seq 0)). vm_compute. reflexivity.
Defined.

(** Where the browser keeps the scroll offset through the resize, the
    fraction changes with the height of the page and another frame is
    shown: at offset 1800 the window growing from 900 to 1000 pixels moves
    the index from 49 to 44. *)
Example resize_at_kept_offset :
  let grown : Container Binary64.num :=
    {| scrollTop := 1800%float; scrollHeight := 5000; clientHeight := 1000 |} in
  array_index (frameIndex (framesRef sampled64) (scrollPercent (page64 1800%float)))
    = Some 49%nat
  /\ array_index (frameIndex (framesRef sampled64) (scrollPercent grown))
     = Some 44%nat.
Proof. vm_compute. split; reflexivity. Qed.

(** *** Inputs on which the claims as written fail *)

(** C1: for a video of 10 s and 100 frames, the time sought for frame 3 is
    [(10 / 100) * 3], which binary64 rounds to 0.30000000000000004; the
    quotient [10 * 3 / 100] is the double below it, and the two ways of
    computing differ on 35 of the 100 frames. *)
Lemma sought_time_is_not_the_quotient :
  option_map (@still _) (nth_error (framesRef sampled64) 3)
    = Some (Some 0x1.3333333333334p-2%float)
  /\ (10 * 3 / 100)%float = 0x1.3333333333333p-2%float
  /\ PrimFloat.ltb (10 * 3 / 100) 0x1.3333333333334p-2 = true
  /\ length (filter (fun i =>
               match nth_error (framesRef sampled64) i with
               | Some {| still := Some t |} =>
                   negb (PrimFloat.eqb t (10 * Binary64.of_Z (Z.of_nat i) / 100))
               | _ => true
               end) (seq 0 100)) = 35%nat.
Proof. vm_compute. repeat split. Qed.



(** C7: in the complete run of the preview (100 frames) the value
    emitted with frame 29 is 28, as with frame 28, while
    [floor(29 / 100 * 100)] is 29: the sequence is not increasing and
    differs from the formula read over the rationals. *)
Lemma progress_value_repeated :
  length (loadingProgress sampled64) = 100%nat
  /\ nth_error (loadingProgress sampled64) 28 = Some 28%float
  /\ nth_error (loadingProgress sampled64) 29 = Some 28%float
  /\ Qfloor ((29 # 100) * 100) = 29%Z.
Proof. vm_compute. repeat split. Qed.

(** C5: the same complete run with the page scrolled half way (fraction
    0.5).  When sampling ends, the preview draws the frame for the
    current scroll position, frame 49 (the picture at 4.9 s), while the
    kit's [R()] draws at fraction 0, the first frame: with equal frames
    the two pages show different pictures.  And where a capture finds no
    2d context, the preview stores a canvas without picture and goes on,
    while the kit's listener throws and stores nothing. *)
Lemma kit_starts_at_first_frame :
  let st := run 100 (mount window (page64 1800%float)) (sampling64 100) in
  let k := HtmlKit.kit_run 100 (HtmlKit.kit_open window (page64 1800%float))
             (sampling64 100) in
  let blank := [loadedmetadata 10%float 640 480; seeked NoContext] in
  isReady st = true
  /\ HtmlKit.S k = framesRef st
  /\ scrollPercent (page64 1800%float) = 0x1p-1%float
  /\ option_map (fun cv => last_drawn cv) (canvasRef st)
     = Some (Some 0x1.399999999999ap+2%float)
  /\ last_drawn (HtmlKit.c k) = Some 0%float
  /\ canvasRef st <> Some (HtmlKit.c k)
  /\ length (framesRef (run 100 (mount window (page64 0%float)) blank)) = 1%nat
  /\ HtmlKit.S (HtmlKit.kit_run 100 (HtmlKit.kit_open window (page64 0%float)) blank)
     = [].
Proof.
  intros st k blank.
  assert (P : option_map (fun cv => last_drawn cv) (canvasRef st)
              = Some (Some 0x1.399999999999ap+2%float)) by (vm_compute; reflexivity).
  assert (K : last_drawn (HtmlKit.c k) = Some 0%float) by (vm_compute; reflexivity).
  repeat split; try (vm_compute; reflexivity); try assumption.
  intros E.
  assert (X : option_map
                (fun cv => match last_drawn cv with
                           | Some t => PrimFloat.eqb t 0
                           | None => false
                           end) (canvasRef st) = Some true).
  { rewrite E. vm_compute. reflexivity. }
  vm_compute in X. discriminate X.
Qed.

(** With nothing to scroll the fraction is 0/0, the index is NaN, and
    neither draw routine touches the canvas. *)
Example binary64_undefined_fraction :
  let still_page : Container Binary64.num :=
    {| scrollTop := 0%float; scrollHeight := 900; clientHeight := 900 |} in
  PrimFloat.is_nan (scrollPercent still_page) = true
  /\ handleScroll (framesRef sampled64) (Some still_page) (canvasRef sampled64)
     = canvasRef sampled64
  /\ forall c, HtmlKit.D (framesRef sampled64) c (0 / (900 - 900))%float = Some c.
Proof.
  split; [vm_compute; reflexivity|]. split; [vm_compute; reflexivity|].
  intros c. rewrite D_unfold.
  replace (array_get (framesRef sampled64)
                     (frameIndex (framesRef sampled64) (0 / (900 - 900))%float))
    with (@None (Frame Binary64.num)) by (vm_compute; reflexivity).
  reflexivity.
Qed.

(* ================================================================== *)
(** ** Further instances

    The same window, page and video; a request for a generated video and
    a server that finishes it at the second poll. *)

Lemma canvas_untouched_until_ready_witness :
  canvasRef
    (run 100 (run 100 (mount window (page 0)) [scroll (page 900)])
         (sampling 10 30 ++ [scroll (page 1800)]))
  = Some {| width := 1600; height := 900; has2d := true; paint := [] |}.
Proof.
  destruct (@canvas_untouched_until_ready Exact.num _ 100 window (page 0)
              [scroll (page 900)]
              (repeat (seeked Drawn) 30 ++ [scroll (page 1800)])
              (Exact.Fin 10) 640 480) as [_ W].
  - intros d' w h [E|[]]. discriminate E.
  - apply W. vm_compute. reflexivity.
Defined.

Lemma kit_listener_exception_stalls_witness :
  let kit :=
    HtmlKit.kit_run 100 (HtmlKit.kit_open window (page 0))
      (sampling 10 30 ++ [seeked Throws; seeked Drawn; scroll (page 40)]) in
  HtmlKit.kit_task kit = Stalled /\ length (HtmlKit.S kit) = 30%nat.
Proof.
  intros kit.
  destruct (@kit_listener_exception_stalls Exact.num _ 100 window (page 0)
              (sampling 10 30) [seeked Drawn; scroll (page 40)] Throws
              30 (Exact.Fin 10) 640 480) as (T & S0 & _).
  - vm_compute. reflexivity.
  - discriminate.
  - unfold kit. rewrite kit_run_app. split; [exact T|].
    rewrite S0. vm_compute. reflexivity.
Defined.

Lemma kit_completes_witness :
  HtmlKit.n (HtmlKit.kit_run 4 (HtmlKit.kit_open window (page 1800)) (sampling 10 4))
  = HtmlKit.READY.
Proof.
  destruct (@kit_completes 4 10 640 480 window (page 1800) []) as (Rd & _);
    [lia|exact Rd].
Defined.

Lemma kit_countdown_witness :
  exists a : Z,
    HtmlKit.n (HtmlKit.kit_run 4 (HtmlKit.kit_open window (page 0)) (sampling 10 2))
    = HtmlKit.Count (Exact.of_Z a)
    /\ (2 <= a <= 10)%Z.
Proof.
  pose proof (@kit_countdown 4 window (page 0) (sampling 10 2)) as W.
  cbv zeta in W.
  destruct (HtmlKit.n _) as [v| |] eqn:E.
  - destruct W as (_ & _ & a & -> & B & _); [lia|].
    exists a. split; [reflexivity|exact B].
  - vm_compute in E. discriminate E.
  - vm_compute in E. discriminate E.
Defined.

Lemma kit_draws_while_sampling_witness :
  let kit :=
    HtmlKit.kit_run FRAME_COUNT (HtmlKit.kit_open window (page64 0%float))
      (sampling64 4 ++ [message 0x1.5555555555555p-2%float]) in
  length (HtmlKit.S kit) = 4%nat
  /\ HtmlKit.kit_task kit = AwaitSeeked 4 10%float 640 480
  /\ width (HtmlKit.c kit) = 300%nat
  /\ last_drawn (HtmlKit.c kit) = Some 0x1.999999999999ap-4%float
  /\ nth_error (HtmlKit.S kit) 1 = Some (picture64 0x1.999999999999ap-4%float).
Proof.
  intros kit.
  destruct (@kit_draws_while_sampling Binary64.num _ FRAME_COUNT 4 1 10%float
              0x1.5555555555555p-2%float 640 480 window (page64 0%float))
    as (L & T & C).
  - unfold FRAME_COUNT. lia.
  - apply (forallb_below
             (fun i => isFinite (nmul (ndiv 10%float (of_nat FRAME_COUNT)) (of_nat i)))).
    vm_compute. reflexivity.
  - vm_compute. reflexivity.
  - lia.
  - split; [exact L|]. split; [exact T|].
    split.
    { etransitivity; [exact (f_equal (@width _) C)|]. reflexivity. }
    split.
    { etransitivity; [exact (f_equal (fun cv => last_drawn cv) C)|].
      vm_compute. reflexivity. }
    vm_compute. reflexivity.
Defined.

Lemma unplayable_duration_is_reported_witness :
  let st :=
    run 100 (mount window (page 0))
      ([scroll (page 900)] ++ loadedmetadata Exact.PInf 640 480 :: [seeked Drawn]) in
  console st = ["Frame extraction failed"%string] /\ isReady st = false.
Proof.
  intros st.
  destruct (@unplayable_duration_is_reported 100 Exact.PInf 640 480 window (page 0)
              [scroll (page 900)] [seeked Drawn]) as (C & _ & _ & R).
  - lia.
  - reflexivity.
  - intros d' w h [E|[]]. discriminate E.
  - intros [E|[]]. discriminate E.
  - split; [exact C|exact R].
Defined.

Lemma kit_unplayable_duration_shows_error_witness :
  HtmlKit.n
    (HtmlKit.kit_run 100 (HtmlKit.kit_open window (page 0))
       ([scroll (page 900)] ++ loadedmetadata Exact.NaN 640 480 :: [seeked Drawn]))
  = HtmlKit.ERROR.
Proof.
  destruct (@kit_unplayable_duration_shows_error 100 Exact.NaN 640 480 window (page 0)
              [scroll (page 900)] [seeked Drawn]) as (E & _).
  - lia.
  - reflexivity.
  - intros d' w h [E|[]]. discriminate E.
  - exact E.
Defined.

Lemma scroll_shows_sampled_instant_witness :
  let scrolled : Container Binary64.num :=
    {| scrollTop := 720%float; scrollHeight := 3540; clientHeight := 900 |} in
  let st := run FRAME_COUNT (mount window (page64 0%float))
              (sampling64 FRAME_COUNT ++ [scroll scrolled]) in
  option_map (fun cv => last_drawn cv) (canvasRef st)
  = Some (Some ((10 / 100) * 26)%float).
Proof.
  intros scrolled st.
  destruct (@scroll_shows_sampled_instant Binary64.num _ FRAME_COUNT 26 10%float
              640 480 window (page64 0%float) scrolled) as (earlier & E).
  - unfold FRAME_COUNT. lia.
  - apply (forallb_below
             (fun i => isFinite (nmul (ndiv 10%float (of_nat FRAME_COUNT)) (of_nat i)))).
    vm_compute. reflexivity.
  - vm_compute. reflexivity.
  - unfold FRAME_COUNT. lia.
  - etransitivity; [exact (f_equal (option_map (fun cv => last_drawn cv)) E)|].
    cbn [option_map draw paint]. rewrite app_nil_l, last_of_two.
    vm_compute. reflexivity.
Defined.

Lemma gif_picture_count_witness :
  length [Exact.Fin 0; Exact.Fin 2; Exact.Fin 4; Exact.Fin 6] = 4%nat.
Proof.
  apply (@gif_picture_count Exact.num _ 4 (Exact.Fin 8) true). reflexivity.
Defined.

Lemma gif_images_evenly_spaced_witness :
  option_map (fun l => (length l, firstn 4 l)) (gif_images 20 8%float true)
  = Some (20%nat, [0%float; 0x1.999999999999ap-2%float; 0x1.999999999999ap-1%float;
                   0x1.3333333333334p+0%float]).
Proof.
  etransitivity.
  { apply (f_equal (option_map (fun l => (length l, firstn 4 l)))).
    apply (@gif_images_evenly_spaced Binary64.num _ 20 8%float).
    - lia.
    - vm_compute. reflexivity.
    - intros i H1 H2.
      assert (C : forallb
        (fun i => (i =? 0)%nat
                  || (ngt (nmul (of_nat i) (ndiv 8%float (of_nat 20))) (of_nat 0)
                      && isFinite (nmul (of_nat i) (ndiv 8%float (of_nat 20)))))
        (seq 0 20) = true) by (vm_compute; reflexivity).
      pose proof (forallb_below _ C H2) as B.
      cbv beta in B. destruct (Nat.eqb_spec i 0) as [Z|_]; [lia|].
      cbn [orb] in B. apply andb_prop in B. exact B. }
  vm_compute. reflexivity.
Defined.


Lemma getFrames_fallback_witness :
  getFrames (Exact.Fin 0) 4 = Exact.of_Z 20 /\ getFrames Exact.NaN 1 = Exact.of_Z 80.
Proof.
  split.
  - destruct (@getFrames_fallback 4) as (E & _); [lia|exact E].
  - destruct (@getFrames_fallback 1) as (_ & E & _); [lia|exact E].
Defined.

Lemma rerun_keeps_previous_frames_witness :
  let first := sampled64 in
  let second :=
    run FRAME_COUNT (ScrollPreviewRerun.rerun first)
      (loadedmetadata 8%float 1280 720 :: repeat (seeked Drawn) 2) in
  isReady second = true
  /\ length (framesRef second) = 102%nat
  /\ option_map (fun cv => last_drawn cv)
       (canvasRef (step FRAME_COUNT second (scroll (page64 0%float))))
     = Some (Some 0%float)
  /\ map (@fwidth _) (firstn 1 (framesRef second)) = [640%nat]
  /\ map (@fwidth _) (skipn 100 (framesRef second)) = [1280%nat; 1280%nat].
Proof.
  intros first second.
  destruct (@rerun_keeps_previous_frames Binary64.num _ FRAME_COUNT 2
              10%float 8%float 640 480 1280 720 window
              (page64 0%float) (page64 0%float))
    as (_ & R & F & C).
  - unfold FRAME_COUNT. lia.
  - unfold FRAME_COUNT. lia.
  - apply (forallb_below
             (fun i => isFinite (nmul (ndiv 10%float (of_nat FRAME_COUNT)) (of_nat i)))).
    vm_compute. reflexivity.
  - apply (forallb_below
             (fun i => isFinite (nmul (ndiv 8%float (of_nat FRAME_COUNT)) (of_nat i)))).
    vm_compute. reflexivity.
  - vm_compute. reflexivity.
  - split; [exact R|].
    split.
    { etransitivity; [exact (f_equal (@length _) F)|]. vm_compute. reflexivity. }
    split.
    { etransitivity; [exact (f_equal (option_map (fun cv => last_drawn cv)) C)|].
      vm_compute. reflexivity. }
    split.
    { etransitivity; [exact (f_equal (fun l => map (@fwidth _) (firstn 1 l)) F)|].
      vm_compute. reflexivity. }
    etransitivity; [exact (f_equal (fun l => map (@fwidth _) (skipn 100 l)) F)|].
    vm_compute. reflexivity.
Defined.

(** The preview's formulas evaluated on the shipped constants with
    binary64 numbers: the values agree with those of the exact reading. *)
Example binary64_single_frame :
  framesRef (run 1 (mount window (page64 0%float)) (sampling64 1))
    = [picture64 0%float]
  /\ gif_images 1 8%float true = Some [0%float].
Proof. vm_compute. split; reflexivity. Qed.

Example binary64_getFrames :
  map (getFrames 0%float) [1; 2; 4]%nat = [80; 40; 20]%float
  /\ map (getFrames 8%float) [1; 2; 4]%nat = [80; 40; 20]%float
  /\ getFrames 0x1.3333333333333p-2%float 1 = 3%float
  /\ getFrames 0x1.3333333333333p-2%float 4 = 0%float.
Proof. vm_compute. repeat split. Qed.

(** The countdown of the kit for its 100 frames: with [k] frames stored
    binary64 computes the integer [max 1 (ceiling (10 - 9 k / 100))]. *)
Example binary64_countdown :
  forallb (fun k =>
     PrimFloat.eqb
       (Math_max (of_nat 1)
          (Math_ceil (nsub (of_nat 10)
                           (nmul (ndiv (of_nat k) (of_nat HtmlKit.F)) (of_nat 9)))))
       (Binary64.of_Z (Z.max 1 (Qceiling (10 - (Z.of_nat k # 100) * 9)))))
    (seq 1 99) = true.
Proof. vm_compute. reflexivity. Qed.

(** The kit after its complete run, the page scrolled half way: the text
    is READY and the last picture drawn is the first frame. *)
Example binary64_kit_completes :
  let k := HtmlKit.kit_run HtmlKit.F (HtmlKit.kit_open window (page64 1800%float))
             (sampling64 HtmlKit.F) in
  HtmlKit.n k = HtmlKit.READY
  /\ length (HtmlKit.S k) = 100%nat
  /\ (width (HtmlKit.c k), height (HtmlKit.c k)) = (1600%nat, 900%nat)
  /\ last_drawn (HtmlKit.c k) = Some 0%float.
Proof. vm_compute. repeat split. Qed.

(** A duration that is no finite number, in binary64: the first seek
    throws, the preview logs and the kit shows ERROR. *)
Example binary64_unplayable :
  let st := run FRAME_COUNT (mount window (page64 0%float))
              [loadedmetadata infinity 640 480; seeked Drawn] in
  let k := HtmlKit.kit_run HtmlKit.F (HtmlKit.kit_open window (page64 0%float))
             [loadedmetadata nan 640 480; seeked Drawn] in
  console st = ["Frame extraction failed"%string] /\ isReady st = false
  /\ framesRef st = []
  /\ HtmlKit.n k = HtmlKit.ERROR /\ HtmlKit.S k = [].
Proof. vm_compute. repeat split. Qed.

(** *** A request and a server *)

Local Abbreviation still_image n :=
  ({| Service.file := {| Service.name := n; Service.type := "image/png"%string |};
      Service.base64 := "AAAA"%string |}).

Local Abbreviation request m :=
  ({| Service.Params.prompt := "a cat"%string;
      Service.Params.model := "veo"%string;
      Service.Params.resolution := "720p"%string;
      Service.Params.aspectRatio := "16:9"%string;
      Service.Params.mode := m;
      Service.Params.startFrame := Some (still_image "first.png"%string);
      Service.Params.endFrame := Some (still_image "last.png"%string);
      Service.Params.isLooping := true;
      Service.Params.referenceImages := Some [still_image "ref.png"%string];
      Service.Params.styleImage := Some (still_image "style.png"%string);
      Service.Params.inputVideoObject := Some {| Service.uri := Some "gs://v/0"%string |} |}).

Local Abbreviation pending_operation :=
  ({| Service.done := false; Service.response := None |}).

Local Abbreviation finished_operation :=
  ({| Service.done := true;
      Service.response :=
        Some {| Service.generatedVideos :=
                  Some [Some {| Service.video :=
                                  Some {| Service.uri := Some "https://v/1?alt=media"%string |} |}] |} |}).

Local Abbreviation answer_ok :=
  ({| Service.ok := true; Service.status := 200; Service.statusText := "OK"%string;
      Service.blob := inl "bytes"%string |}).

Local Abbreviation answer_forbidden :=
  ({| Service.ok := false; Service.status := 403;
      Service.statusText := "Forbidden"%string;
      Service.blob := inl "bytes"%string |}).

Local Abbreviation server answer :=
  ({| Service.generateVideos := fun _ => inl pending_operation;
      Service.getVideosOperation := [inl pending_operation; inl finished_operation];
      Service.fetch := fun _ => inl answer |}).

Local Abbreviation generate params srv :=
  (Service.generateVideo "KEY"%string (fun s => inl s)
     (fun b => append "blob:"%string b) params srv).

Lemma request_parts_by_mode_witness :
  exists p,
    Service.generateVideoPayload (request Service.EXTEND_VIDEO) = inl p
    /\ Service.Config.aspectRatio (Service.Payload.config p) = None
    /\ Service.Payload.prompt p = Some "a cat"%string.
Proof.
  eexists. split; [reflexivity|].
  destruct (@request_parts_by_mode (request Service.EXTEND_VIDEO) _ eq_refl)
    as (_ & _ & _ & _ & A & _ & _ & P & _).
  split; [now apply A|apply P; discriminate].
Defined.

Lemma frames_request_witness :
  exists p,
    Service.generateVideoPayload (request Service.FRAMES_TO_VIDEO) = inl p
    /\ Service.Config.lastFrame (Service.Payload.config p) = Service.Payload.image p.
Proof.
  destruct (@frames_request (request Service.FRAMES_TO_VIDEO) eq_refl)
    as (p & E & _ & _ & L & _).
  exists p. split; [exact E|now apply L].
Defined.

Lemma references_request_witness :
  exists p refs,
    Service.generateVideoPayload (request Service.REFERENCES_TO_VIDEO) = inl p
    /\ Service.Config.referenceImages (Service.Payload.config p) = Some refs
    /\ map Service.referenceType refs = [Service.ASSET; Service.STYLE].
Proof.
  destruct (@references_request (request Service.REFERENCES_TO_VIDEO) eq_refl)
    as (p & E & R & _).
  exists p.
  destruct (Service.Config.referenceImages (Service.Payload.config p)) as [refs|].
  - exists refs. destruct R as (_ & _ & T). split; [exact E|]. split; [reflexivity|exact T].
  - destruct R as [R _]. discriminate R.
Defined.

Lemma polling_stops_at_first_settled_witness :
  Service.waits (generate (request Service.EXTEND_VIDEO) (server answer_ok)) = 2%nat.
Proof.
  destruct (@polling_stops_at_first_settled "KEY"%string (fun s => inl s)
              (fun b => append "blob:"%string b)
              (request Service.EXTEND_VIDEO) (server answer_ok) _ eq_refl) as [W _].
  destruct (W 2%nat (inl finished_operation)) as [E _].
  - reflexivity.
  - reflexivity.
  - intros [|[|i]] o L E; [| |lia]; injection E as <-; reflexivity.
  - exact E.
Defined.

Lemma resolved_call_witness :
  Service.fetched (generate (request Service.EXTEND_VIDEO) (server answer_ok))
  = Some "https://v/1?alt=media&key=KEY"%string.
Proof.
  destruct (@resolved_call "KEY"%string (fun s => inl s) (fun b => append "blob:"%string b)
              (request Service.EXTEND_VIDEO) (server answer_ok)
              "blob:bytes"%string "bytes"%string "https://v/1?alt=media"%string
              {| Service.uri := Some "https://v/1?alt=media"%string |} eq_refl)
    as (payload & first & op & polls & r & rest & raw & res & _ & _ & _ & _ & _ & _ & _ & _
        & _ & F & _).
  exact F.
Defined.

Lemma rejected_call_witness :
  exists target,
    Service.fetched (generate (request Service.EXTEND_VIDEO) (server answer_forbidden))
    = Some target.
Proof.
  destruct (@rejected_call "KEY"%string (fun s => inl s) (fun b => append "blob:"%string b)
              (request Service.EXTEND_VIDEO) (server answer_forbidden)
              (Service.FetchFailed 403 "Forbidden"%string) eq_refl)
    as (target & res & F & _).
  exists target. exact F.
Defined.
